(** * FLEX QC: inspection workflow and traceability store

    A shallow embedding of the storage layer (storage.ts), the data model
    (types.ts), the checkpoint templates (constants.tsx) and the handlers of
    the [App] and [AdminPanel] components (App.tsx), followed by the
    properties of the workflow that the specification states.

    Conventions of the embedding.
    - A JavaScript string is a [string]; a character is one code unit, and
      the model keeps the code units below 256.  The upper case of a text
      is taken where it stays below 256 ([upperCaseInRange]).
    - [null] is [None]; a union of string literals is an inductive type.
    - A clock reading ([Date.now()], [new Date()]) is an argument of the
      function that reads the clock, a number of milliseconds; a field that
      holds [toISOString()] of a reading holds the reading itself.
    - [localStorage] is a record of the three keys the program uses, each
      holding the parsed collection; every function of storage.ts runs in
      the state monad [St] over that record and a trace of effects. *)

From Stdlib Require Import ZArith Ascii String.
From stdpp Require Import base list strings pretty sorting.

Open Scope string_scope.
Open Scope Z_scope.
Open Scope list_scope.

(** ** Strings *)

Module JsString.

(** The double quote, code unit 34. *)
Definition dquote : ascii := ascii_of_nat 34.

(** WhiteSpace and LineTerminator code units below 256: TAB, LF, VT, FF,
    CR, SP and NBSP. *)
Definition isWhiteSpace (c : ascii) : bool :=
  let n := nat_of_ascii c in
  bool_decide (n ∈ [9; 10; 11; 12; 13; 32; 160]%nat).

Fixpoint trimStart (s : string) : string :=
  match s with
  | EmptyString => EmptyString
  | String c s' => if isWhiteSpace c then trimStart s' else s
  end.

Fixpoint trimEnd (s : string) : string :=
  match s with
  | EmptyString => EmptyString
  | String c s' =>
      match trimEnd s' with
      | EmptyString => if isWhiteSpace c then EmptyString else String c EmptyString
      | t => String c t
      end
  end.

(** [String.prototype.trim] *)
Definition trim (s : string) : string := trimEnd (trimStart s).

Definition upperChar (c : ascii) : ascii :=
  let n := nat_of_ascii c in
  if bool_decide (97 ≤ n ≤ 122)%nat || bool_decide (224 ≤ n ≤ 246)%nat
     || bool_decide (248 ≤ n ≤ 254)%nat
  then ascii_of_nat (n - 32) else c.

(** [String.prototype.toUpperCase] on the code units below 256.  The
    letters a to z, and the letters from 224 to 254 but the sign 247, go to
    the code unit 32 below; the sharp s (223) goes to two capital S; the
    other code units are kept.  Two code units have their upper case above
    255, the micro sign (181, to 924) and the y with diaeresis (255, to
    376): the upper case of a text that holds one of them is not a text of
    the model, and [upperCaseInRange] tells the texts that hold neither. *)
Fixpoint toUpperCase (s : string) : string :=
  match s with
  | EmptyString => EmptyString
  | String c s' =>
      if bool_decide (nat_of_ascii c = 223%nat)
      then String "S" (String "S" (toUpperCase s'))
      else String (upperChar c) (toUpperCase s')
  end.

Fixpoint upperCaseInRange (s : string) : bool :=
  match s with
  | EmptyString => true
  | String c s' =>
      negb (bool_decide (nat_of_ascii c = 181%nat))
      && negb (bool_decide (nat_of_ascii c = 255%nat))
      && upperCaseInRange s'
  end.

(** The global replace of [escape]: every double quote becomes two. *)
Fixpoint doubleQuotes (s : string) : string :=
  match s with
  | EmptyString => EmptyString
  | String c s' =>
      if bool_decide (c = dquote)
      then String dquote (String dquote (doubleQuotes s'))
      else String c (doubleQuotes s')
  end.

(** A string is falsy exactly when it is empty. *)
Definition truthy (s : string) : bool := negb (bool_decide (s = "")).

Fixpoint hasQuote (s : string) : bool :=
  match s with
  | EmptyString => false
  | String c s' => bool_decide (c = dquote) || hasQuote s'
  end.

End JsString.
Import JsString.

(** ** Data model (types.ts) *)

Inductive StageName := FQC | Packaging.

(** [type Stage = 'FQC' | 'Packaging' | null] *)
Definition Stage := option StageName.

#[global] Instance StageName_eq_dec : EqDecision StageName.
Proof. solve_decision. Defined.

Record User := mkUser {
  usr_userId : string;
  usr_password : string;
  usr_isAdmin : bool;
  usr_isActive : bool;
  usr_assignedStage : Stage
}.

Inductive CheckStatus := Pass | Fail.

#[global] Instance CheckStatus_eq_dec : EqDecision CheckStatus.
Proof. solve_decision. Defined.

Record CheckpointResult := mkCheckpoint {
  cp_id : string;
  cp_label : string;
  cp_status : option CheckStatus;
  cp_image : option string;
  cp_reason : string
}.

Record QCReport := mkReport {
  rep_id : string;
  rep_timestamp : Z;
  rep_stage : Stage;
  rep_userId : string;
  rep_deviceId : string;
  rep_checkpoints : list CheckpointResult
}.

Inductive StageStatus := pending | completed | failed.

#[global] Instance StageStatus_eq_dec : EqDecision StageStatus.
Proof. solve_decision. Defined.

Record DeviceStatus := mkDeviceStatus {
  ds_deviceId : string;
  ds_fqcStatus : StageStatus;
  ds_packagingStatus : StageStatus;
  ds_lastUpdated : Z
}.

Inductive AppStep :=
| STAGE_SELECTION
| LOGIN
| DEVICE_ID_ENTRY
| SCAN_DEVICE_ID
| CHECKLIST
| SUCCESS
| ADMIN
| DASHBOARD.

#[global] Instance AppStep_eq_dec : EqDecision AppStep.
Proof. solve_decision. Defined.

(** The field of a device status that belongs to a stage, and the other one. *)
Definition stageField (s : StageName) (d : DeviceStatus) : StageStatus :=
  match s with FQC => ds_fqcStatus d | Packaging => ds_packagingStatus d end.

Definition otherStage (s : StageName) : StageName :=
  match s with FQC => Packaging | Packaging => FQC end.

(** ** Checkpoint templates and the seeded administrator (constants.tsx) *)

Definition template (i l : string) : string * string := (i, l).

Definition FQC_CHECKPOINTS : list (string * string) :=
  [ template "fqc_01" "Check for outer body - no scratches, cracks, dents (Top & Bottom Panel)";
    template "fqc_02" "Check for all 7 screws properly mounted";
    template "fqc_03" "Check for keypad - all buttons present as per layout, symbols clear and legible";
    template "fqc_04" "Check display segment placement with Tohands logo and protective film attached; no dent, scratches, or gap between display and top cover";
    template "fqc_05" "Check for laser marking: Smart Calculator V5 Powered by AI";
    template "fqc_06" "Check both C-Type USB pin connectors - Charging (Right side) & Printer (Left side)";
    template "fqc_07" "Verify LED light working during Power ON and charger connectivity";
    template "fqc_08" "Display turns ON properly - no missing segments / black spots, proper brightness and contrast";
    template "fqc_09" "Check Device ID verification with respect to System Info and Device Label";
    template "fqc_10" "Observe speaker sound and voice quality";
    template "fqc_11" "Check battery cover properly fixed and sticker position as per standard";
    template "fqc_12" "Check label content clearly printed" ].

Definition PACKAGING_CHECKPOINTS : list (string * string) :=
  [ template "pkg_01" "Verify that the Device ID matches exactly across all three references: Internal Device ID (Calculator), Device ID on the bottom panel of the device, Device ID on the outer box label";
    template "pkg_02" "Ensure the protective case is properly attached to the device";
    template "pkg_03" "Verify the device is correctly placed inside the white device sleeve with logo, and ensure proper logo alignment";
    template "pkg_04" "Confirm Packing Box Insert - 1 is present inside the packaging box";
    template "pkg_05" "Verify the charging adapter and power cable (Type-C to Type-C) are correctly packed in Packing Box Insert - 2";
    template "pkg_06" "Ensure the user manual / quick start guide is available inside the box";
    template "pkg_07" "Verify the packaging box is properly closed and sealed using two circular package seal stickers";
    template "pkg_08" "Ensure the closed box is covered with the packing sleeve (green & white) as per standard";
    template "pkg_09" "Confirm the box is fully closed and secured by applying the wrapping cover";
    template "pkg_10" "Verify the packed box weight falls within the approved acceptable range" ].

Definition INITIAL_ADMIN_USER : User :=
  {| usr_userId := "admin"; usr_password := "123"; usr_isAdmin := true;
     usr_isActive := true; usr_assignedStage := Some FQC |}.

(** The labels of constants.tsx use an en dash, a code unit above 255; the
    templates above write it as a hyphen.  No function of the program reads
    a label's characters. *)

(** ** The storage layer (storage.ts) *)

(** [localStorage], restricted to the three keys of storage.ts.  [None] is
    an absent key; a present key holds the collection that [JSON.parse]
    gives back. *)
Record LocalStorage := mkLocalStorage {
  flex_qc_users : option (list User);
  flex_qc_reports : option (list QCReport);
  flex_qc_device_status : option (list DeviceStatus)
}.

(** What the program does to the outside, in the order it does it: the
    [setItem] writes, the entries into [updateDeviceStatus], and the
    [alert] boxes. *)
Inductive Effect :=
| SetUsers (l : list User)
| SetReports (l : list QCReport)
| SetDeviceStatus (l : list DeviceStatus)
| EnterUpdateDeviceStatus (deviceId : string) (stage : Stage) (status : StageStatus)
| Alert (msg : string).

Record World := mkWorld {
  storage : LocalStorage;
  trace : list Effect
}.

(** State monad over the world. *)
Definition St (A : Type) : Type := World → A * World.

#[global] Instance St_ret : MRet St := λ A (a : A) w, (a, w).
#[global] Instance St_bind : MBind St :=
  λ A B (f : A → St B) (m : St A) w, let '(a, w') := m w in f a w'.

Definition emit (e : Effect) : St unit :=
  λ w, (tt, {| storage := storage w; trace := trace w ++ [e] |}).

Definition getItem {A} (key : LocalStorage → option A) : St (option A) :=
  λ w, (key (storage w), w).

Definition putStorage (f : LocalStorage → LocalStorage) : St unit :=
  λ w, (tt, {| storage := f (storage w); trace := trace w |}).

Definition setItemUsers (l : list User) : St unit :=
  putStorage (λ s, {| flex_qc_users := Some l;
                      flex_qc_reports := flex_qc_reports s;
                      flex_qc_device_status := flex_qc_device_status s |});;
  emit (SetUsers l).

Definition setItemReports (l : list QCReport) : St unit :=
  putStorage (λ s, {| flex_qc_users := flex_qc_users s;
                      flex_qc_reports := Some l;
                      flex_qc_device_status := flex_qc_device_status s |});;
  emit (SetReports l).

Definition setItemDeviceStatus (l : list DeviceStatus) : St unit :=
  putStorage (λ s, {| flex_qc_users := flex_qc_users s;
                      flex_qc_reports := flex_qc_reports s;
                      flex_qc_device_status := Some l |});;
  emit (SetDeviceStatus l).

Definition getStoredUsers : St (list User) :=
  stored ← getItem flex_qc_users;
  match stored with
  | None =>
      let defaultUsers := [INITIAL_ADMIN_USER] in
      setItemUsers defaultUsers;;
      mret defaultUsers
  | Some l => mret l
  end.

Definition saveUsers (users : list User) : St unit := setItemUsers users.

Definition getStoredReports : St (list QCReport) :=
  stored ← getItem flex_qc_reports;
  mret (default [] stored).

Definition getDeviceStatuses : St (list DeviceStatus) :=
  stored ← getItem flex_qc_device_status;
  mret (default [] stored).

(** [allStatuses.find(status => status.deviceId === deviceId) || null] *)
Definition getDeviceStatus (deviceId : string) : St (option DeviceStatus) :=
  allStatuses ← getDeviceStatuses;
  mret (snd <$> list_find (λ status, ds_deviceId status = deviceId) allStatuses).

(** The two assignments [x.fqcStatus = status] and [x.packagingStatus =
    status], chosen by the stage; a [null] stage assigns nothing. *)
Definition assignStage (stage : Stage) (status : StageStatus) (x : DeviceStatus)
  : DeviceStatus :=
  match stage with
  | Some FQC =>
      {| ds_deviceId := ds_deviceId x; ds_fqcStatus := status;
         ds_packagingStatus := ds_packagingStatus x;
         ds_lastUpdated := ds_lastUpdated x |}
  | Some Packaging =>
      {| ds_deviceId := ds_deviceId x; ds_fqcStatus := ds_fqcStatus x;
         ds_packagingStatus := status;
         ds_lastUpdated := ds_lastUpdated x |}
  | None => x
  end.

Definition assignLastUpdated (now : Z) (x : DeviceStatus) : DeviceStatus :=
  {| ds_deviceId := ds_deviceId x; ds_fqcStatus := ds_fqcStatus x;
     ds_packagingStatus := ds_packagingStatus x; ds_lastUpdated := now |}.

(** The array that [updateDeviceStatus] writes back: the record found by
    [findIndex] is updated in place, or a new one is pushed. *)
Definition updatedStatuses (deviceId : string) (stage : Stage)
    (status : StageStatus) (now : Z) (allStatuses : list DeviceStatus)
  : list DeviceStatus :=
  let newStatus :=
    {| ds_deviceId := deviceId; ds_fqcStatus := pending;
       ds_packagingStatus := pending; ds_lastUpdated := now |} in
  match list_find (λ s, ds_deviceId s = deviceId) allStatuses with
  | Some (existingIndex, existingStatus) =>
      <[existingIndex := assignLastUpdated now (assignStage stage status existingStatus)]>
        allStatuses
  | None => allStatuses ++ [assignStage stage status newStatus]
  end.

Definition updateDeviceStatus (deviceId : string) (stage : Stage)
    (status : StageStatus) (now : Z) : St unit :=
  emit (EnterUpdateDeviceStatus deviceId stage status);;
  allStatuses ← getDeviceStatuses;
  setItemDeviceStatus (updatedStatuses deviceId stage status now allStatuses).

(** [saveReport]: append the report, then mark the report's stage completed
    for its device.  [now] is the clock reading of the nested
    [updateDeviceStatus]. *)
Definition saveReport (report : QCReport) (now : Z) : St unit :=
  reports ← getStoredReports;
  setItemReports (reports ++ [report]);;
  updateDeviceStatus (rep_deviceId report) (rep_stage report) completed now.

(** ** The [App] component (App.tsx) *)

(** The state hooks of [App], and the one piece of the DOM that the handlers
    read: [videoStream] says that the video element of the scan screen is
    mounted and carries a camera stream ([videoRef.current.srcObject]).  The
    element is mounted exactly while [currentStep] is [SCAN_DEVICE_ID]. *)
Record AppState := mkApp {
  currentStep : AppStep;
  selectedStage : Stage;
  currentUser : option User;
  deviceId : string;
  deviceImage : option string;
  checkpoints : list CheckpointResult;
  editingId : option string;
  isSubmitting : bool;
  error : string;
  scanning : bool;
  videoStream : bool
}.

Definition initialApp : AppState :=
  {| currentStep := STAGE_SELECTION; selectedStage := None; currentUser := None;
     deviceId := ""; deviceImage := None; checkpoints := []; editingId := None;
     isSubmitting := false; error := ""; scanning := false; videoStream := false |}.

Section Setters.
Variable st : AppState.

(** Leaving the scan screen unmounts its video element, and the stream
    attached to it goes with it. *)
Definition setCurrentStep (x : AppStep) : AppState :=
  mkApp x (selectedStage st) (currentUser st) (deviceId st) (deviceImage st)
    (checkpoints st) (editingId st) (isSubmitting st) (error st) (scanning st)
    (videoStream st && bool_decide (x = SCAN_DEVICE_ID)).
Definition setSelectedStage (x : Stage) : AppState :=
  mkApp (currentStep st) x (currentUser st) (deviceId st) (deviceImage st)
    (checkpoints st) (editingId st) (isSubmitting st) (error st) (scanning st)
    (videoStream st).
Definition setCurrentUser (x : option User) : AppState :=
  mkApp (currentStep st) (selectedStage st) x (deviceId st) (deviceImage st)
    (checkpoints st) (editingId st) (isSubmitting st) (error st) (scanning st)
    (videoStream st).
Definition setDeviceId (x : string) : AppState :=
  mkApp (currentStep st) (selectedStage st) (currentUser st) x (deviceImage st)
    (checkpoints st) (editingId st) (isSubmitting st) (error st) (scanning st)
    (videoStream st).
Definition setDeviceImage (x : option string) : AppState :=
  mkApp (currentStep st) (selectedStage st) (currentUser st) (deviceId st) x
    (checkpoints st) (editingId st) (isSubmitting st) (error st) (scanning st)
    (videoStream st).
Definition setCheckpoints (x : list CheckpointResult) : AppState :=
  mkApp (currentStep st) (selectedStage st) (currentUser st) (deviceId st)
    (deviceImage st) x (editingId st) (isSubmitting st) (error st) (scanning st)
    (videoStream st).
Definition setEditingId (x : option string) : AppState :=
  mkApp (currentStep st) (selectedStage st) (currentUser st) (deviceId st)
    (deviceImage st) (checkpoints st) x (isSubmitting st) (error st) (scanning st)
    (videoStream st).
Definition setIsSubmitting (x : bool) : AppState :=
  mkApp (currentStep st) (selectedStage st) (currentUser st) (deviceId st)
    (deviceImage st) (checkpoints st) (editingId st) x (error st) (scanning st)
    (videoStream st).
Definition setError (x : string) : AppState :=
  mkApp (currentStep st) (selectedStage st) (currentUser st) (deviceId st)
    (deviceImage st) (checkpoints st) (editingId st) (isSubmitting st) x
    (scanning st) (videoStream st).
Definition setScanning (x : bool) : AppState :=
  mkApp (currentStep st) (selectedStage st) (currentUser st) (deviceId st)
    (deviceImage st) (checkpoints st) (editingId st) (isSubmitting st) (error st)
    x (videoStream st).
Definition setVideoStream (x : bool) : AppState :=
  mkApp (currentStep st) (selectedStage st) (currentUser st) (deviceId st)
    (deviceImage st) (checkpoints st) (editingId st) (isSubmitting st) (error st)
    (scanning st) x.
End Setters.

(** A stage inside a template literal. *)
Definition stageText (s : Stage) : string :=
  match s with Some FQC => "FQC" | Some Packaging => "Packaging" | None => "null" end.

Definition MSG_ACCESS_DENIED (s : Stage) : string :=
  "Access denied. You are assigned to " +:+ stageText s +:+ ".".
Definition MSG_CAMERA : string :=
  "Camera access denied. Please enable camera permissions to scan QR codes/barcodes.".
Definition MSG_DISABLED : string := "Account is disabled. Please contact Admin.".
Definition MSG_SELECT_STAGE : string := "Please select a stage from the home screen first.".
Definition MSG_INVALID : string := "Invalid User ID or Password.".
Definition MSG_DEVICE_REQUIRED : string := "Device ID is required".
Definition MSG_FQC_FIRST : string :=
  "Cannot proceed to Packaging. Device must complete FQC stage first.".
Definition MSG_INCOMPLETE : string :=
  "Please complete all checkpoints, images, and reasons.".

(** [startScanning]: [granted] is the outcome of [getUserMedia]. *)
Definition startScanning (granted : bool) (st : AppState) : AppState :=
  if granted then
    if bool_decide (currentStep st = SCAN_DEVICE_ID)
    then setScanning (setVideoStream st true) true
    else st
  else setError st MSG_CAMERA.

Definition stopScanning (st : AppState) : AppState :=
  if bool_decide (currentStep st = SCAN_DEVICE_ID) && videoStream st
  then setScanning (setVideoStream st false) false
  else st.

(** [baseCheckpoints.map(cp => ({ ...cp, status: null, image: null, reason: '' }))] *)
Definition freshChecklist (stage : Stage) : list CheckpointResult :=
  let baseCheckpoints :=
    if bool_decide (stage = Some FQC) then FQC_CHECKPOINTS else PACKAGING_CHECKPOINTS in
  (λ cp : string * string,
     {| cp_id := cp.1; cp_label := cp.2; cp_status := None; cp_image := None;
        cp_reason := "" |}) <$> baseCheckpoints.

(** [detectCode] on one video frame.  The function is polled, by the
    interval of the effect on [scanning] and by the animation frames it
    asks for itself, so the [detectCode] that runs is the one of the render
    in which the polling began: [render] is the session of that render, of
    which the function reads [scanning] and [selectedStage].  [st] is the
    session at the time of the frame, with the video element as it is then.
    [code] is what [jsQR] returns for the frame: [Some data] for a decoded
    code, [None] for a frame without one.  A video without a stream never
    has enough data, and the poll goes on with the state as it is. *)
Definition detectCode (render : AppState) (code : option string) (st : AppState)
  : AppState :=
  if negb (bool_decide (currentStep st = SCAN_DEVICE_ID)) || negb (scanning render) then st
  else if negb (videoStream st) then st
  else
    match code with
    | Some data =>
        let st1 := setDeviceId st data in
        let st2 := setCheckpoints st1 (freshChecklist (selectedStage render)) in
        let st3 := setCurrentStep st2 CHECKLIST in
        (* stopScanning runs on the element of the frame just read *)
        setScanning (setVideoStream st3 false) false
    | None => st
    end.

Definition handleStageSelect (stage : Stage) (st : AppState) : AppState :=
  let st := setSelectedStage st stage in
  match currentUser st with
  | Some u =>
      if negb (usr_isAdmin u) then
        if negb (bool_decide (usr_assignedStage u = stage))
        then setError st (MSG_ACCESS_DENIED (usr_assignedStage u))
        else setError (setCurrentStep st DEVICE_ID_ENTRY) ""
      else setError (setCurrentStep st LOGIN) ""
  | None => setError (setCurrentStep st LOGIN) ""
  end.

Definition handleAdminAccess (st : AppState) : AppState :=
  let st := setSelectedStage st None in
  let st :=
    match currentUser st with
    | Some u => if usr_isAdmin u then setCurrentStep st ADMIN else setCurrentStep st LOGIN
    | None => setCurrentStep st LOGIN
    end in
  setError st "".

Definition handleLogin (userId password : string) (st : AppState) : St AppState :=
  users ← getStoredUsers;
  let user :=
    snd <$> list_find
      (λ u, usr_userId u = userId ∧ usr_password u = password) users in
  mret
    match user with
    | Some user =>
        if negb (usr_isActive user) then setError st MSG_DISABLED
        else if usr_isAdmin user then
          setCurrentStep (setError (setCurrentUser st (Some user)) "") ADMIN
        else
          match selectedStage st with
          | None => setError st MSG_SELECT_STAGE
          | Some _ =>
              if negb (bool_decide (usr_assignedStage user = selectedStage st))
              then setError st (MSG_ACCESS_DENIED (usr_assignedStage user))
              else setCurrentStep (setError (setCurrentUser st (Some user)) "")
                     DEVICE_ID_ENTRY
          end
    | None => setError st MSG_INVALID
    end.

(** The [onChange] of the serial number input. *)
Definition serialNumberInput_onChange (value : string) (st : AppState) : AppState :=
  setDeviceId st (toUpperCase value).

Definition handleDeviceSubmit (st : AppState) : St AppState :=
  if negb (truthy (trim (deviceId st))) then mret (setError st MSG_DEVICE_REQUIRED)
  else
    let proceed :=
      let st1 := setError st "" in
      let st2 := setCheckpoints st1 (freshChecklist (selectedStage st)) in
      setCurrentStep st2 CHECKLIST in
    if bool_decide (selectedStage st = Some Packaging) then
      deviceStatus ← getDeviceStatus (deviceId st);
      match deviceStatus with
      | Some ds =>
          if negb (bool_decide (ds_fqcStatus ds = completed))
          then mret (setError st MSG_FQC_FIRST)
          else mret proceed
      | None => mret (setError st MSG_FQC_FIRST)
      end
    else mret proceed.

(** [Partial<CheckpointResult>]: the fields an update carries. *)
Record CheckpointPatch := mkPatch {
  p_label : option string;
  p_status : option (option CheckStatus);
  p_image : option (option string);
  p_reason : option string
}.

(** [{ ...cp, ...updates }] *)
Definition applyPatch (updates : CheckpointPatch) (cp : CheckpointResult)
  : CheckpointResult :=
  {| cp_id := cp_id cp;
     cp_label := default (cp_label cp) (p_label updates);
     cp_status := default (cp_status cp) (p_status updates);
     cp_image := default (cp_image cp) (p_image updates);
     cp_reason := default (cp_reason cp) (p_reason updates) |}.

Definition handleCheckpointUpdate (id : string) (updates : CheckpointPatch)
    (st : AppState) : AppState :=
  setCheckpoints st
    ((λ cp, if bool_decide (cp_id cp = id) then applyPatch updates cp else cp)
       <$> checkpoints st).

Definition handleAddCheckpoint (now : Z) (st : AppState) : AppState :=
  let newId := "custom_" +:+ pretty now in
  let st1 :=
    setCheckpoints st
      (checkpoints st ++
         [ {| cp_id := newId; cp_label := "New Checkpoint"; cp_status := None;
              cp_image := None; cp_reason := "" |} ]) in
  setEditingId st1 (Some newId).

Definition handleDeleteCheckpoint (id : string) (st : AppState) : AppState :=
  let st1 :=
    setCheckpoints st (filter (λ cp, cp_id cp ≠ id) (checkpoints st)) in
  if bool_decide (editingId st = Some id) then setEditingId st1 None else st1.

(** [handleAIReason]: [reason] is what the suggestion service resolved to. *)
Definition handleAIReason (id reason : string) (st : AppState) : AppState :=
  handleCheckpointUpdate id (mkPatch None None None (Some reason)) st.

(** The predicate under [every] in [handleFinalSubmit]. *)
Definition checkpointComplete (cp : CheckpointResult) : bool :=
  negb (bool_decide (cp_status cp = None))
  && negb (bool_decide (cp_image cp = None))
  && (bool_decide (cp_status cp = Some Pass)
      || (bool_decide (cp_status cp = Some Fail)
          && negb (bool_decide (trim (cp_reason cp) = "")))).

(** [isComplete], the completion validator. *)
Definition canSubmit (checkpoints : list CheckpointResult) : bool :=
  forallb checkpointComplete checkpoints.

(** What the timer callback of [handleFinalSubmit] closes over. *)
Record PendingSubmit := mkPending {
  ps_report : QCReport;
  ps_deviceId : string;
  ps_selectedStage : Stage
}.

(** [report.checkpoints.some(cp => cp.status === 'Fail') ? 'failed' : 'completed'] *)
Definition outcome (cps : list CheckpointResult) : StageStatus :=
  if existsb (λ cp, bool_decide (cp_status cp = Some Fail)) cps
  then failed else completed.

(** The report that [handleFinalSubmit] builds.  [nowId] and [nowStamp] are
    the clock readings behind its id and its timestamp. *)
Definition buildReport (nowId nowStamp : Z) (st : AppState) : QCReport :=
  {| rep_id := "REP-" +:+ pretty nowId;
     rep_timestamp := nowStamp;
     rep_stage := selectedStage st;
     rep_userId :=
       match currentUser st with
       | Some u => if truthy (usr_userId u) then usr_userId u else "Unknown"
       | None => "Unknown"
       end;
     rep_deviceId := deviceId st;
     rep_checkpoints := checkpoints st |}.

(** [handleFinalSubmit], up to [setTimeout]: either the alert and nothing
    else, or the submitting flag and the callback scheduled 1500 ms later. *)
Definition handleFinalSubmit (nowId nowStamp : Z) (st : AppState)
  : St (AppState * option PendingSubmit) :=
  let isComplete := canSubmit (checkpoints st) in
  if negb isComplete then
    emit (Alert MSG_INCOMPLETE);;
    mret (st, None)
  else
    let report := buildReport nowId nowStamp st in
    mret (setIsSubmitting st true,
          Some {| ps_report := report; ps_deviceId := deviceId st;
                  ps_selectedStage := selectedStage st |}).

(** The callback that [handleFinalSubmit] schedules.  [nowSave] and
    [nowUpdate] are the readings of the two [updateDeviceStatus] runs. *)
Definition finalSubmitTimeout (p : PendingSubmit) (nowSave nowUpdate : Z)
    (st : AppState) : St AppState :=
  saveReport (ps_report p) nowSave;;
  updateDeviceStatus (ps_deviceId p) (ps_selectedStage p)
    (outcome (rep_checkpoints (ps_report p))) nowUpdate;;
  mret (setCurrentStep (setIsSubmitting st false) SUCCESS).

(** The clock readings of one submission. *)
Record SubmitClock := mkClock {
  at_id : Z;
  at_stamp : Z;
  at_save : Z;
  at_update : Z
}.

(** A whole submission: the click and, when it was accepted, the callback,
    with no other event in between. *)
Definition submit (clk : SubmitClock) (st : AppState) : St AppState :=
  '(st1, scheduled) ← handleFinalSubmit (at_id clk) (at_stamp clk) st;
  match scheduled with
  | Some p => finalSubmitTimeout p (at_save clk) (at_update clk) st1
  | None => mret st1
  end.

Definition resetApp (st : AppState) : AppState :=
  setCurrentStep
    (setCheckpoints (setDeviceImage (setDeviceId st "") None) []) DEVICE_ID_ENTRY.

Definition logout (st : AppState) : AppState :=
  setCurrentStep
    (setError
       (setCheckpoints
          (setDeviceImage
             (setDeviceId (setSelectedStage (setCurrentUser st None) None) "")
             None)
          [])
       "")
    STAGE_SELECTION.

(** [escape] of [handleExportCSV]: [val] is a string or [null]. *)
Definition escape (val : option string) : string :=
  let text :=
    match val with
    | Some s => if truthy s then s else ""
    | None => ""
    end in
  String dquote (doubleQuotes text) +:+ String dquote "".

(** The rows of the device table of [renderDashboard]:
    [deviceStatuses.slice(0, 10)]. *)
Definition dashboardDeviceRows : St (list DeviceStatus) :=
  deviceStatuses ← getDeviceStatuses;
  mret (take 10 deviceStatuses).

(** ** The [AdminPanel] component (App.tsx) *)

Module AdminPanel.

(** The state hooks of the panel that its handlers write.  [searchResult]
    is [None] for [undefined], [Some None] for [null]. *)
Record State := mkState {
  users : list User;
  newUserId : string;
  newPassword : string;
  newStage : Stage;
  editingUserId : option string;
  searchResult : option (option User);
  hasSearched : bool
}.

(** The effect that runs on mount: [setUsers(getStoredUsers())]. *)
Definition mount : St State :=
  stored ← getStoredUsers;
  mret {| users := stored; newUserId := ""; newPassword := "";
          newStage := Some FQC; editingUserId := None; searchResult := None;
          hasSearched := false |}.

(** [handleSubmit]: the form that registers an operator, or updates the
    one being edited. *)
Definition handleSubmit (a : State) : St State :=
  if negb (truthy (newUserId a)) || negb (truthy (newPassword a)) then mret a
  else
    let editing :=
      match editingUserId a with
      | Some e => if truthy e then Some e else None
      | None => None
      end in
    let updated : list User :=
      match editing with
      | Some e =>
          (λ u, if bool_decide (usr_userId u = e)
                then {| usr_userId := usr_userId u;
                        usr_password := newPassword a;
                        usr_isAdmin := usr_isAdmin u;
                        usr_isActive := usr_isActive u;
                        usr_assignedStage := newStage a |}
                else u) <$> users a
      | None =>
          let newUser :=
            {| usr_userId := newUserId a; usr_password := newPassword a;
               usr_isAdmin := false; usr_isActive := true;
               usr_assignedStage := newStage a |} in
          users a ++ [newUser]
      end in
    saveUsers updated;;
    mret {| users := updated; newUserId := ""; newPassword := "";
            newStage := Some FQC;
            editingUserId := match editing with Some _ => None | None => editingUserId a end;
            searchResult := searchResult a; hasSearched := false |}.

Definition handleEdit (user : User) (a : State) : State :=
  {| users := users a; newUserId := usr_userId user;
     newPassword := usr_password user; newStage := usr_assignedStage user;
     editingUserId := Some (usr_userId user); searchResult := searchResult a;
     hasSearched := hasSearched a |}.

Definition cancelEdit (a : State) : State :=
  {| users := users a; newUserId := ""; newPassword := "";
     newStage := Some FQC; editingUserId := None;
     searchResult := searchResult a; hasSearched := hasSearched a |}.

Definition searchIs (userId : string) (a : State) : bool :=
  match searchResult a with
  | Some (Some u) => bool_decide (usr_userId u = userId)
  | _ => false
  end.

(** [deleteUser]: [confirmed] is the answer to the [confirm] box. *)
Definition deleteUser (userId : string) (confirmed : bool) (a : State) : St State :=
  if bool_decide (userId = "admin") then mret a
  else if negb confirmed then mret a
  else
    let updated := filter (λ u, usr_userId u ≠ userId) (users a) in
    saveUsers updated;;
    mret {| users := updated; newUserId := newUserId a;
            newPassword := newPassword a; newStage := newStage a;
            editingUserId := editingUserId a;
            searchResult := if searchIs userId a then Some None else searchResult a;
            hasSearched := hasSearched a |}.

Definition toggleStatus (userId : string) (a : State) : St State :=
  if bool_decide (userId = "admin") then mret a
  else
    let updated :=
      (λ u, if bool_decide (usr_userId u = userId)
            then {| usr_userId := usr_userId u; usr_password := usr_password u;
                    usr_isAdmin := usr_isAdmin u;
                    usr_isActive := negb (usr_isActive u);
                    usr_assignedStage := usr_assignedStage u |}
            else u) <$> users a in
    saveUsers updated;;
    mret {| users := updated; newUserId := newUserId a;
            newPassword := newPassword a; newStage := newStage a;
            editingUserId := editingUserId a;
            searchResult :=
              if searchIs userId a
              then match list_find (λ u, usr_userId u = userId) updated with
                   | Some (_, u) => Some (Some u)
                   | None => None
                   end
              else searchResult a;
            hasSearched := hasSearched a |}.

End AdminPanel.

(** * Properties *)

(** ** Reading the store *)

Definition statusesOf (w : World) : list DeviceStatus :=
  default [] (flex_qc_device_status (storage w)).

Definition reportsOf (w : World) : list QCReport :=
  default [] (flex_qc_reports (storage w)).

(** The record that [getDeviceStatus] finds for a device. *)
Definition recordOf (d : string) (l : list DeviceStatus) : option DeviceStatus :=
  snd <$> list_find (λ s, ds_deviceId s = d) l.

(** The storage after [setItem] of the device statuses. *)
Definition withStatuses (l : list DeviceStatus) (w : World) : LocalStorage :=
  {| flex_qc_users := flex_qc_users (storage w);
     flex_qc_reports := flex_qc_reports (storage w);
     flex_qc_device_status := Some l |}.

(** Unfolds the monad and the primitives of the storage layer. *)
Ltac st_unfold :=
  unfold setItemDeviceStatus, setItemReports, setItemUsers, getDeviceStatuses,
    getStoredReports, emit, getItem, putStorage;
  unfold mbind, mret, St_bind, St_ret; cbn.

Lemma getDeviceStatus_run d w :
  getDeviceStatus d w = (recordOf d (statusesOf w), w).
Proof. reflexivity. Qed.

Lemma getDeviceStatuses_run w : getDeviceStatuses w = (statusesOf w, w).
Proof. reflexivity. Qed.

Lemma updateDeviceStatus_run d stage v now w :
  updateDeviceStatus d stage v now w =
    (tt, {| storage := withStatuses (updatedStatuses d stage v now (statusesOf w)) w;
            trace := trace w ++
                     [EnterUpdateDeviceStatus d stage v;
                      SetDeviceStatus (updatedStatuses d stage v now (statusesOf w))] |}).
Proof.
  unfold updateDeviceStatus, withStatuses, statusesOf. st_unfold.
  by rewrite <- app_assoc.
Qed.

(** ** Finding a device in an updated array *)

Section Finding.
Implicit Types (l : list DeviceStatus) (d : string) (r : DeviceStatus).

Lemma find_replaced l d i old r :
  list_find (λ s, ds_deviceId s = d) l = Some (i, old) →
  ds_deviceId r = d →
  list_find (λ s, ds_deviceId s = d) (<[i:=r]> l) = Some (i, r).
Proof.
  intros (Hi & _ & Hleast)%list_find_Some Hr.
  apply list_find_insert_Some. right; left.
  split_and!; eauto using lookup_lt_Some.
Qed.

Lemma find_pushed l d r :
  list_find (λ s, ds_deviceId s = d) l = None →
  ds_deviceId r = d →
  list_find (λ s, ds_deviceId s = d) (l ++ [r]) = Some (length l, r).
Proof.
  intros Hnone Hr. rewrite list_find_app_r by done. cbn.
  rewrite decide_True by done. reflexivity.
Qed.

Lemma find_other_replaced l d' i old r :
  l !! i = Some old →
  ds_deviceId r = ds_deviceId old →
  ds_deviceId old ≠ d' →
  list_find (λ s, ds_deviceId s = d') (<[i:=r]> l)
  = list_find (λ s, ds_deviceId s = d') l.
Proof.
  revert i. induction l as [|x l IH]; intros [|i] Hi Hr Hne; simplify_eq/=.
  - rewrite !decide_False by congruence. reflexivity.
  - case_decide; [done|]. by erewrite IH.
Qed.

Lemma find_other_pushed l d' r :
  ds_deviceId r ≠ d' →
  list_find (λ s, ds_deviceId s = d') (l ++ [r])
  = list_find (λ s, ds_deviceId s = d') l.
Proof.
  intros Hne. induction l as [|x l IH]; cbn.
  - by rewrite decide_False.
  - case_decide; [done|]. by rewrite IH.
Qed.

Lemma assignStage_deviceId stage v r :
  ds_deviceId (assignStage stage v r) = ds_deviceId r.
Proof. by destruct stage as [[]|]. Qed.

(** The record of the updated device after [updateDeviceStatus]. *)
Lemma recordOf_updated d stage v now l :
  recordOf d (updatedStatuses d stage v now l) =
    Some match recordOf d l with
         | Some old => assignLastUpdated now (assignStage stage v old)
         | None => assignStage stage v (mkDeviceStatus d pending pending now)
         end.
Proof.
  unfold recordOf, updatedStatuses.
  destruct (list_find _ l) as [[i old]|] eqn:Hfind; cbn.
  - erewrite find_replaced; [done..|].
    apply list_find_Some in Hfind as (_ & Hd & _).
    cbn. by rewrite assignStage_deviceId.
  - erewrite find_pushed; [done..|]. by rewrite assignStage_deviceId.
Qed.

(** The record of every other device is the one it was. *)
Lemma recordOf_updated_other d d' stage v now l :
  d' ≠ d →
  recordOf d' (updatedStatuses d stage v now l) = recordOf d' l.
Proof.
  intros Hne. unfold recordOf, updatedStatuses.
  destruct (list_find (λ s, ds_deviceId s = d) l) as [[i old]|] eqn:Hfind.
  - apply list_find_Some in Hfind as (Hi & Hd & _).
    erewrite find_other_replaced; [done..| |congruence].
    cbn. by rewrite assignStage_deviceId.
  - rewrite find_other_pushed; [done|].
    rewrite assignStage_deviceId. cbn. congruence.
Qed.
End Finding.

Lemma stageField_assign s v r : stageField s (assignStage (Some s) v r) = v.
Proof. by destruct s. Qed.

Lemma stageField_assign_other s v r :
  stageField (otherStage s) (assignStage (Some s) v r) = stageField (otherStage s) r.
Proof. by destruct s. Qed.

Lemma stageField_assignLastUpdated s now r :
  stageField s (assignLastUpdated now r) = stageField s r.
Proof. by destruct s. Qed.

Lemma assignStage_lastUpdated stage v r :
  ds_lastUpdated (assignStage stage v r) = ds_lastUpdated r.
Proof. by destruct stage as [[]|]. Qed.

(** [deviceId] stays the key of the array: an update never adds a second
    record for a device. *)
Lemma updatedStatuses_NoDup d stage v now l :
  NoDup (ds_deviceId <$> l) →
  NoDup (ds_deviceId <$> updatedStatuses d stage v now l).
Proof.
  intros Hnodup. unfold updatedStatuses.
  destruct (list_find _ l) as [[i old]|] eqn:Hfind.
  - apply list_find_Some in Hfind as (Hi & Hd & _).
    rewrite list_fmap_insert. cbn. rewrite assignStage_deviceId.
    rewrite list_insert_id; [done|]. by rewrite list_lookup_fmap, Hi.
  - rewrite fmap_app, NoDup_app. cbn. rewrite assignStage_deviceId. cbn.
    split_and!; [done | | apply NoDup_singleton].
    intros x Hx ->%list_elem_of_singleton.
    apply list_elem_of_fmap in Hx as (r & Hr & Hin).
    apply list_find_None in Hfind.
    rewrite Forall_forall in Hfind. by apply (Hfind r).
Qed.

(** ** The completion validator *)

(** A checkpoint that may be submitted, in the words of the specification. *)
Definition Complete (cp : CheckpointResult) : Prop :=
  cp_status cp ≠ None ∧ cp_image cp ≠ None ∧
  (cp_status cp = Some Pass ∨
   (cp_status cp = Some Fail ∧ trim (cp_reason cp) ≠ "")).

Lemma checkpointComplete_spec cp : checkpointComplete cp = true ↔ Complete cp.
Proof.
  unfold checkpointComplete, Complete.
  rewrite !andb_true_iff, orb_true_iff, andb_true_iff, !negb_true_iff.
  rewrite !bool_decide_eq_false, !bool_decide_eq_true.
  tauto.
Qed.

Lemma canSubmit_spec c : canSubmit c = true ↔ Forall Complete c.
Proof.
  unfold canSubmit. induction c as [|cp c IH]; cbn.
  - split; [constructor | done].
  - rewrite andb_true_iff, Forall_cons, IH, checkpointComplete_spec. reflexivity.
Qed.

(** C1.  [canSubmit c] is true exactly when every checkpoint of [c] has a
    status, an image, and is either a pass or a fail with a reason that is
    not empty once trimmed.  When it is false, [handleFinalSubmit] refuses:
    the session is as it was, no callback is scheduled, the storage is the
    same, and the only effect is the alert. *)
Theorem canSubmit_iff_complete_and_refusal (c : list CheckpointResult) :
  (canSubmit c = true ↔ Forall Complete c) ∧
  (∀ nowId nowStamp st w,
      checkpoints st = c →
      canSubmit c = false →
      handleFinalSubmit nowId nowStamp st w =
        ((st, None),
         {| storage := storage w; trace := trace w ++ [Alert MSG_INCOMPLETE] |})).
Proof.
  split; [apply canSubmit_spec|].
  intros nowId nowStamp st w Hc Hfalse.
  unfold handleFinalSubmit. rewrite Hc, Hfalse. reflexivity.
Qed.

(** ** The device status update *)

(** C6.  [updateDeviceStatus d s v] leaves the users and the reports alone.
    When the device has a record, the array is the old one with that record
    replaced by one that has the same device, the field of stage [s] set to
    [v], the field of the other stage as it was and [lastUpdated] set to the
    clock reading, which is later than the old value whenever the clock
    reading is.  When the device has no record, one is pushed with the other
    stage pending.  A record of another device is at the same place before
    and after.  A second update of the same device and stage at a later
    clock reading sets the field of [s] again, keeps the other field, moves
    [lastUpdated] forward and adds no record. *)
Theorem updateDeviceStatus_frame
    (d : string) (s : StageName) (v : StageStatus) (now : Z) (w : World) :
  let before := statusesOf w in
  let w' := (updateDeviceStatus d (Some s) v now w).2 in
  let after := statusesOf w' in
  flex_qc_users (storage w') = flex_qc_users (storage w) ∧
  flex_qc_reports (storage w') = flex_qc_reports (storage w) ∧
  match list_find (λ r, ds_deviceId r = d) before with
  | Some (i, old) =>
      ∃ r', after = <[i:=r']> before ∧
            recordOf d after = Some r' ∧
            ds_deviceId r' = d ∧
            stageField s r' = v ∧
            stageField (otherStage s) r' = stageField (otherStage s) old ∧
            ds_lastUpdated r' = now ∧
            (ds_lastUpdated old < now → ds_lastUpdated old < ds_lastUpdated r')
  | None =>
      ∃ r', after = before ++ [r'] ∧
            recordOf d after = Some r' ∧
            ds_deviceId r' = d ∧
            stageField s r' = v ∧
            stageField (otherStage s) r' = pending ∧
            ds_lastUpdated r' = now
  end ∧
  (∀ i r, ds_deviceId r ≠ d → after !! i = Some r ↔ before !! i = Some r) ∧
  (∀ d', d' ≠ d → recordOf d' after = recordOf d' before) ∧
  (∀ v2 now2,
      now < now2 →
      let again := statusesOf (updateDeviceStatus d (Some s) v2 now2 w').2 in
      ∃ r1 r2,
        recordOf d after = Some r1 ∧ recordOf d again = Some r2 ∧
        stageField s r2 = v2 ∧
        stageField (otherStage s) r2 = stageField (otherStage s) r1 ∧
        ds_lastUpdated r1 < ds_lastUpdated r2 ∧
        ds_deviceId <$> again = ds_deviceId <$> after).
Proof.
  intros before w' after.
  assert (Hafter : after = updatedStatuses d (Some s) v now before).
  { subst after w'. by rewrite updateDeviceStatus_run. }
  split_and!.
  - subst w'. by rewrite updateDeviceStatus_run.
  - subst w'. by rewrite updateDeviceStatus_run.
  - pose proof (recordOf_updated d (Some s) v now before) as Hrec.
    rewrite <- Hafter in Hrec. unfold updatedStatuses in Hafter.
    unfold recordOf in Hrec at 2. revert Hafter Hrec.
    destruct (list_find _ before) as [[i old]|] eqn:Hfind; cbn; intros Hafter Hrec.
    + eexists. split; [exact Hafter|]. split; [exact Hrec|].
      apply list_find_Some in Hfind as (_ & Hd & _).
      destruct s; cbn; split_and!; auto.
    + eexists. split; [exact Hafter|]. split; [exact Hrec|].
      destruct s; cbn; split_and!; auto.
  - intros i r Hr. rewrite Hafter. unfold updatedStatuses.
    destruct (list_find _ before) as [[i0 old]|] eqn:Hfind.
    + apply list_find_Some in Hfind as (Hi0 & Hd & _).
      destruct (decide (i0 = i)) as [->|Hne].
      * rewrite list_lookup_insert_eq by eauto using lookup_lt_Some.
        split; intros Heq; exfalso; apply Hr.
        -- injection Heq as <-. by destruct s.
        -- congruence.
      * by rewrite list_lookup_insert_ne.
    + rewrite lookup_app_Some. split; [|auto].
      intros [?|[_ Hlast]]; [done|].
      destruct (i - length before)%nat; simplify_eq/=.
      exfalso. apply Hr. by destruct s.
  - intros d' Hne. rewrite Hafter. by apply recordOf_updated_other.
  - intros v2 now2 Hlater again.
    assert (Hagain : again = updatedStatuses d (Some s) v2 now2 after).
    { subst again. by rewrite updateDeviceStatus_run. }
    pose proof (recordOf_updated d (Some s) v now before) as Hr1.
    rewrite <- Hafter in Hr1.
    pose proof (recordOf_updated d (Some s) v2 now2 after) as Hr2.
    rewrite <- Hagain, Hr1 in Hr2.
    eexists _, _. split; [exact Hr1|]. split; [exact Hr2|].
    split_and!.
    + by rewrite stageField_assignLastUpdated, stageField_assign.
    + by rewrite stageField_assignLastUpdated, stageField_assign_other.
    + destruct (recordOf d before); [cbn; lia|].
      rewrite assignStage_lastUpdated. cbn. lia.
    + rewrite Hagain. unfold updatedStatuses at 1. unfold recordOf in Hr1.
      destruct (list_find _ after) as [[i r1]|] eqn:Hfind; [|done].
      apply list_find_Some in Hfind as (Hi & Hd & _).
      rewrite list_fmap_insert. cbn [ds_deviceId assignLastUpdated].
      rewrite assignStage_deviceId.
      apply list_insert_id. by rewrite list_lookup_fmap, Hi.
Qed.

(** ** A submission *)

(** The storage after an accepted submission. *)
Definition submittedStorage (clk : SubmitClock) (st : AppState) (w : World)
  : LocalStorage :=
  {| flex_qc_users := flex_qc_users (storage w);
     flex_qc_reports :=
       Some (reportsOf w ++ [buildReport (at_id clk) (at_stamp clk) st]);
     flex_qc_device_status :=
       Some (updatedStatuses (deviceId st) (selectedStage st)
               (outcome (checkpoints st)) (at_update clk)
               (updatedStatuses (deviceId st) (selectedStage st) completed
                  (at_save clk) (statusesOf w))) |}.

(** The effects of an accepted submission, in order. *)
Definition submittedTrace (clk : SubmitClock) (st : AppState) (w : World)
  : list Effect :=
  let d := deviceId st in
  let stage := selectedStage st in
  let first := updatedStatuses d stage completed (at_save clk) (statusesOf w) in
  [ SetReports (reportsOf w ++ [buildReport (at_id clk) (at_stamp clk) st]);
    EnterUpdateDeviceStatus d stage completed;
    SetDeviceStatus first;
    EnterUpdateDeviceStatus d stage (outcome (checkpoints st));
    SetDeviceStatus
      (updatedStatuses d stage (outcome (checkpoints st)) (at_update clk) first) ].

Lemma statusesOf_submitted clk st w tr :
  statusesOf {| storage := submittedStorage clk st w; trace := tr |} =
    updatedStatuses (deviceId st) (selectedStage st) (outcome (checkpoints st))
      (at_update clk)
      (updatedStatuses (deviceId st) (selectedStage st) completed (at_save clk)
         (statusesOf w)).
Proof. reflexivity. Qed.

Lemma submit_accepted clk st w :
  canSubmit (checkpoints st) = true →
  submit clk st w =
    (setCurrentStep (setIsSubmitting (setIsSubmitting st true) false) SUCCESS,
     {| storage := submittedStorage clk st w;
        trace := trace w ++ submittedTrace clk st w |}).
Proof.
  intros Hok. unfold submit, handleFinalSubmit. rewrite Hok. cbn.
  unfold finalSubmitTimeout, saveReport. unfold mbind at 1 2 3 4, St_bind, mret, St_ret.
  cbn. unfold getStoredReports, setItemReports. st_unfold.
  rewrite !updateDeviceStatus_run. cbn.
  unfold submittedStorage, submittedTrace, withStatuses, statusesOf, reportsOf. cbn.
  rewrite <- !app_assoc. reflexivity.
Qed.

Lemma submit_refused clk st w :
  canSubmit (checkpoints st) = false →
  submit clk st w =
    (st, {| storage := storage w; trace := trace w ++ [Alert MSG_INCOMPLETE] |}).
Proof.
  intros Hno. unfold submit, handleFinalSubmit. rewrite Hno. reflexivity.
Qed.

Lemma outcome_failed cps :
  Exists (λ cp, cp_status cp = Some Fail) cps → outcome cps = failed.
Proof.
  intros Hex. unfold outcome.
  replace (existsb _ cps) with true; [done|].
  symmetry. apply existsb_exists.
  apply Exists_exists in Hex as (cp & Hin & Hfail).
  exists cp. split; [by apply list_elem_of_In | by apply bool_decide_eq_true].
Qed.

Lemma outcome_completed cps :
  Forall (λ cp, cp_status cp = Some Pass) cps → outcome cps = completed.
Proof.
  intros Hall. unfold outcome.
  replace (existsb _ cps) with false; [done|].
  symmetry. induction Hall as [|cp cps Hcp _ IH]; cbn; [done|].
  rewrite IH, Hcp. reflexivity.
Qed.

(** C3.  After an accepted submission for device [d] at stage [s], the
    record that [getDeviceStatus] finds for [d] has the field of [s] failed
    when some checkpoint of the report is a fail and completed when all are
    passes; the field of the other stage is the one the device's record had
    before, or pending when the device had none.  The report is the last of
    the stored reports and the session is on the success screen. *)
Theorem submit_records_outcome
    (clk : SubmitClock) (st : AppState) (w : World) (s : StageName) :
  selectedStage st = Some s →
  canSubmit (checkpoints st) = true →
  let d := deviceId st in
  let st' := (submit clk st w).1 in
  let w' := (submit clk st w).2 in
  ∃ r',
    (getDeviceStatus d w').1 = Some r' ∧
    (Exists (λ cp, cp_status cp = Some Fail) (checkpoints st) →
       stageField s r' = failed) ∧
    (Forall (λ cp, cp_status cp = Some Pass) (checkpoints st) →
       stageField s r' = completed) ∧
    stageField (otherStage s) r' =
      match (getDeviceStatus d w).1 with
      | Some r => stageField (otherStage s) r
      | None => pending
      end ∧
    reportsOf w' = reportsOf w ++ [buildReport (at_id clk) (at_stamp clk) st] ∧
    currentStep st' = SUCCESS.
Proof.
  intros Hs Hok d st' w'. subst st' w'.
  rewrite (submit_accepted _ _ _ Hok). cbn [fst snd].
  rewrite !getDeviceStatus_run. cbn [fst].
  rewrite statusesOf_submitted. subst d.
  rewrite Hs, !recordOf_updated.
  eexists. split; [reflexivity|].
  split_and!.
  - intros Hex. rewrite stageField_assignLastUpdated, stageField_assign.
    by apply outcome_failed.
  - intros Hall. rewrite stageField_assignLastUpdated, stageField_assign.
    by apply outcome_completed.
  - rewrite stageField_assignLastUpdated, stageField_assign_other.
    destruct (recordOf (deviceId st) (statusesOf w)) as [old|].
    + by rewrite stageField_assignLastUpdated, stageField_assign_other.
    + rewrite stageField_assign_other. by destruct s.
  - reflexivity.
  - reflexivity.
Qed.

(** ** Sample sessions *)

Definition emptyWorld : World :=
  {| storage := mkLocalStorage None None None; trace := [] |}.

Definition operator (stage : StageName) : User :=
  {| usr_userId := "op1"; usr_password := "pw"; usr_isAdmin := false;
     usr_isActive := true; usr_assignedStage := Some stage |}.

(** A checkpoint that the operator has judged and photographed. *)
Definition checked (status : CheckStatus) (reason : string) : CheckpointResult :=
  {| cp_id := "fqc_01"; cp_label := "Check label content clearly printed";
     cp_status := Some status; cp_image := Some "data:image/png;base64,AAAA";
     cp_reason := reason |}.

(** A session on the checklist screen. *)
Definition sessionAt (stage : StageName) (d : string) (cps : list CheckpointResult)
  : AppState :=
  {| currentStep := CHECKLIST; selectedStage := Some stage;
     currentUser := Some (operator stage); deviceId := d; deviceImage := None;
     checkpoints := cps; editingId := None; isSubmitting := false; error := "";
     scanning := false; videoStream := false |}.

Definition sampleClock : SubmitClock :=
  {| at_id := 1000; at_stamp := 1000; at_save := 2500; at_update := 2501 |}.

Lemma submit_records_outcome_witness :
  let st := sessionAt FQC "D1" [checked Fail "scratched"] in
  ∃ r', (getDeviceStatus "D1" (submit sampleClock st emptyWorld).2).1 = Some r' ∧
        ds_fqcStatus r' = failed ∧ ds_packagingStatus r' = pending.
Proof.
  destruct (submit_records_outcome sampleClock
              (sessionAt FQC "D1" [checked Fail "scratched"]) emptyWorld FQC
              eq_refl eq_refl) as (r' & Hr & Hfail & _ & Hother & _).
  exists r'. split; [exact Hr|]. split; [|exact Hother].
  apply Hfail. constructor. reflexivity.
Defined.

(** A fail whose reason is two spaces is refused, and nothing is stored. *)
Lemma canSubmit_iff_complete_and_refusal_witness :
  let st := sessionAt FQC "D1" [checked Fail "  "] in
  canSubmit (checkpoints st) = false ∧
  handleFinalSubmit 1000 1000 st emptyWorld =
    ((st, None),
     {| storage := storage emptyWorld; trace := [Alert MSG_INCOMPLETE] |}).
Proof.
  split; [reflexivity|].
  apply (proj2 (canSubmit_iff_complete_and_refusal [checked Fail "  "])
           1000 1000 (sessionAt FQC "D1" [checked Fail "  "]) emptyWorld);
    reflexivity.
Defined.

(** D1 fails FQC at time 1000 and passes it at time 2000. *)
Lemma updateDeviceStatus_frame_witness :
  let w1 := (updateDeviceStatus "D1" (Some FQC) failed 1000 emptyWorld).2 in
  let again := statusesOf (updateDeviceStatus "D1" (Some FQC) completed 2000 w1).2 in
  ∃ r1 r2,
    recordOf "D1" (statusesOf w1) = Some r1 ∧ recordOf "D1" again = Some r2 ∧
    ds_fqcStatus r2 = completed ∧
    ds_packagingStatus r2 = ds_packagingStatus r1 ∧
    ds_lastUpdated r1 < ds_lastUpdated r2.
Proof.
  destruct (updateDeviceStatus_frame "D1" FQC failed 1000 emptyWorld)
    as (_ & _ & _ & _ & _ & Hagain).
  destruct (Hagain completed 2000 ltac:(lia))
    as (r1 & r2 & H1 & H2 & Hstage & Hother & Hlater & _).
  exists r1, r2. split_and!; assumption.
Defined.

(** C4.  The effects of submitting a report with a failed checkpoint for a
    device that has no record: after the report is written,
    [updateDeviceStatus] is entered twice, first from [saveReport] with
    completed and then from the callback with failed, and the array written
    in between marks the stage completed. *)
Theorem submit_failed_report_trace :
  let st := sessionAt FQC "D1" [checked Fail "scratched"] in
  trace (submit sampleClock st emptyWorld).2 =
    [ SetReports [buildReport 1000 1000 st];
      EnterUpdateDeviceStatus "D1" (Some FQC) completed;
      SetDeviceStatus [mkDeviceStatus "D1" completed pending 2500];
      EnterUpdateDeviceStatus "D1" (Some FQC) failed;
      SetDeviceStatus [mkDeviceStatus "D1" failed pending 2501] ].
Proof. vm_compute. reflexivity. Qed.

(** ** Entering a stage by hand *)

(** With [deviceId] as the key of the device statuses, the record found for
    a device is the one record that carries its id. *)
Lemma recordOf_unique_key l d r :
  NoDup (ds_deviceId <$> l) →
  recordOf d l = Some r ↔ r ∈ l ∧ ds_deviceId r = d.
Proof.
  intros Hnodup. unfold recordOf. split.
  - intros ([i r0] & Hfind & ->)%fmap_Some.
    apply list_find_Some in Hfind as (Hi & Hd & _).
    split; [by eapply list_elem_of_lookup_2 | done].
  - intros [Hin Hd].
    destruct (list_find_elem_of (λ s, ds_deviceId s = d) l r Hin Hd)
      as [[i r0] Hfind].
    rewrite Hfind. cbn. f_equal.
    apply list_find_Some in Hfind as (Hi & Hd0 & _).
    apply list_elem_of_lookup in Hin as [j Hj].
    assert (i = j) as ->; [|congruence].
    eapply (NoDup_lookup _ _ _ d Hnodup); rewrite list_lookup_fmap.
    + by rewrite Hi; cbn; rewrite Hd0.
    + by rewrite Hj; cbn; rewrite Hd.
Qed.

(** The session after an entry that was let through. *)
Definition entered (st : AppState) : AppState :=
  setCurrentStep
    (setCheckpoints (setError st "") (freshChecklist (selectedStage st)))
    CHECKLIST.

(** Some record of the store says that the device completed FQC. *)
Definition fqcCompleted (d : string) (w : World) : Prop :=
  ∃ r, r ∈ statusesOf w ∧ ds_deviceId r = d ∧ ds_fqcStatus r = completed.

(** The manual entry into Packaging as the specification words it, for
    every text of the serial number input: the checklist is reached exactly
    when the device completed FQC, and otherwise the entry is refused with
    the message of the missing prerequisite, the session and the store being
    otherwise the same. *)
Definition manualPackagingGate (d : string) (st : AppState) (w : World) : Prop :=
  currentStep st = DEVICE_ID_ENTRY →
  selectedStage st = Some Packaging →
  deviceId st = d →
  NoDup (ds_deviceId <$> statusesOf w) →
  (currentStep (handleDeviceSubmit st w).1 = CHECKLIST ↔ fqcCompleted d w) ∧
  (fqcCompleted d w → handleDeviceSubmit st w = (entered st, w)) ∧
  (¬ fqcCompleted d w → handleDeviceSubmit st w = (setError st MSG_FQC_FIRST, w)).

Definition atDeviceIdEntry (stage : StageName) (d : string) : AppState :=
  setCheckpoints (setCurrentStep (sessionAt stage d []) DEVICE_ID_ENTRY) [].

(** A serial number of one space, at the Packaging station, with no record
    in the store: the entry is refused, but with the message of the missing
    device id. *)
Lemma blank_serial_refused_as_missing :
  ¬ (∀ d st w, manualPackagingGate d st w).
Proof.
  intros Hclaim.
  destruct (Hclaim " " (atDeviceIdEntry Packaging " ") emptyWorld)
    as (_ & _ & Hrefused); try reflexivity.
  { constructor. }
  assert (Hnone : ¬ fqcCompleted " " emptyWorld).
  { intros (r & Hin & _). by apply elem_of_nil in Hin. }
  specialize (Hrefused Hnone). vm_compute in Hrefused. discriminate Hrefused.
Qed.

(** C2.  A serial number that is blank once trimmed is refused with the
    message of the missing device id.  For one that is not blank, submitted
    by hand at the device screen of a store keyed by device id: at the
    Packaging station the checklist is reached exactly when a record of the
    device has FQC completed, and otherwise only the error message changes,
    to the one of the missing prerequisite, the store being untouched; at
    the FQC station the checklist is always reached. *)
Theorem handleDeviceSubmit_gate (st : AppState) (w : World) :
  let d := deviceId st in
  (trim d = "" → handleDeviceSubmit st w = (setError st MSG_DEVICE_REQUIRED, w)) ∧
  (trim d ≠ "" → manualPackagingGate d st w) ∧
  (trim d ≠ "" → selectedStage st = Some FQC →
   handleDeviceSubmit st w = (entered st, w)).
Proof.
  intros d. subst d. split.
  { intros Htrim. unfold handleDeviceSubmit, truthy. rewrite Htrim. reflexivity. }
  assert (Hblank : trim (deviceId st) ≠ "" →
                   negb (truthy (trim (deviceId st))) = false).
  { intros Htrim. unfold truthy. rewrite negb_involutive.
    by apply bool_decide_eq_false. }
  split.
  - intros Htrim Hstep Hstage _ Hnodup. specialize (Hblank Htrim).
    set (d := deviceId st) in *.
    assert (Hrun : handleDeviceSubmit st w =
              match recordOf d (statusesOf w) with
              | Some ds =>
                  if negb (bool_decide (ds_fqcStatus ds = completed))
                  then (setError st MSG_FQC_FIRST, w) else (entered st, w)
              | None => (setError st MSG_FQC_FIRST, w)
              end).
    { unfold handleDeviceSubmit. fold d. rewrite Hblank, Hstage.
      rewrite bool_decide_true by done.
      unfold mbind, St_bind. rewrite getDeviceStatus_run.
      destruct (recordOf d (statusesOf w)) as [ds|]; [|done].
      unfold entered. rewrite Hstage.
      by destruct (bool_decide (ds_fqcStatus ds = completed)). }
    assert (Hiff : fqcCompleted d w ↔
              ∃ ds, recordOf d (statusesOf w) = Some ds ∧ ds_fqcStatus ds = completed).
    { unfold fqcCompleted. split.
      - intros (r & Hin & Hr & Hc). exists r. split; [|done].
        by apply recordOf_unique_key.
      - intros (r & Hrec & Hc). exists r.
        apply recordOf_unique_key in Hrec as [? ?]; done. }
    rewrite Hiff, Hrun.
    destruct (recordOf d (statusesOf w)) as [ds|].
    + destruct (decide (ds_fqcStatus ds = completed)) as [Hc|Hc].
      * rewrite bool_decide_true by done. cbn.
        split_and!; [split; eauto | done | intros []; eauto].
      * rewrite bool_decide_false by done. cbn. rewrite Hstep.
        split_and!; [split; [done|] | | done];
          intros (ds' & ? & ?); simplify_eq.
    + cbn. rewrite Hstep.
      split_and!; [split; [done|] | | done]; intros (ds' & ? & ?); simplify_eq.
  - intros Htrim Hstage. unfold handleDeviceSubmit, entered.
    rewrite (Hblank Htrim), Hstage. reflexivity.
Qed.

Lemma handleDeviceSubmit_gate_witness :
  let w := (updateDeviceStatus "D1" (Some FQC) completed 2500 emptyWorld).2 in
  let st := atDeviceIdEntry Packaging "D1" in
  handleDeviceSubmit st w = (entered st, w) ∧
  handleDeviceSubmit (atDeviceIdEntry Packaging "D2") w =
    (setError (atDeviceIdEntry Packaging "D2") MSG_FQC_FIRST, w).
Proof.
  set (w := (updateDeviceStatus "D1" (Some FQC) completed 2500 emptyWorld).2).
  assert (Hkeys : NoDup (ds_deviceId <$> statusesOf w)).
  { apply NoDup_singleton. }
  split.
  - destruct (handleDeviceSubmit_gate (atDeviceIdEntry Packaging "D1") w)
      as (_ & Hgate & _).
    destruct (Hgate ltac:(by vm_compute) eq_refl eq_refl eq_refl Hkeys)
      as (_ & Henter & _).
    apply Henter.
    exists (mkDeviceStatus "D1" completed pending 2500).
    split_and!; [apply list_elem_of_here | done | done].
  - destruct (handleDeviceSubmit_gate (atDeviceIdEntry Packaging "D2") w)
      as (_ & Hgate & _).
    destruct (Hgate ltac:(by vm_compute) eq_refl eq_refl eq_refl Hkeys)
      as (_ & _ & Hrefuse).
    apply Hrefuse.
    intros (r & Hin & Hr & _).
    apply list_elem_of_singleton in Hin as ->. discriminate Hr.
Defined.

(** ** Entering a stage by scanning *)

(** The operator marks every checkpoint of the checklist as a pass and
    attaches a photo to it. *)
Definition passAll (st : AppState) : AppState :=
  foldr
    (λ cp acc,
       handleCheckpointUpdate (cp_id cp)
         (mkPatch None (Some (Some Pass)) (Some (Some "data:image/png;base64,AAAA")) None)
         acc)
    st (checkpoints st).

(** A store with the administrator and one Packaging operator, and no
    device status at all. *)
Definition packagingStation : World :=
  {| storage := mkLocalStorage (Some [INITIAL_ADMIN_USER; operator Packaging]) None None;
     trace := [] |}.

(** The operator picks Packaging, logs in, and is at the device screen. *)
Definition atPackagingDeviceScreen : AppState * World :=
  handleLogin "op1" "pw" (handleStageSelect (Some Packaging) initialApp)
    packagingStation.

(** From the device screen the operator opens the scanner, starts the
    camera, and a frame decodes to [data]; the [detectCode] that polls is
    the one of the render in which the scan started. *)
Definition scanned (data : string) (st : AppState) : AppState :=
  let started := startScanning true (setCurrentStep st SCAN_DEVICE_ID) in
  detectCode started (Some data) started.

(** C5.  A run of the workflow from the first screen: a Packaging operator
    who types D1 is refused, since D1 has no record; the same operator who
    scans D1 is on the Packaging checklist, and the submission that follows
    takes the Packaging field of D1 out of pending while its FQC field is
    pending. *)
Theorem scan_enters_packaging_without_fqc :
  let st := atPackagingDeviceScreen.1 in
  let w := atPackagingDeviceScreen.2 in
  currentStep st = DEVICE_ID_ENTRY ∧
  selectedStage st = Some Packaging ∧
  (getDeviceStatus "D1" w).1 = None ∧
  (handleDeviceSubmit (serialNumberInput_onChange "D1" st) w).1
    = setError (serialNumberInput_onChange "D1" st) MSG_FQC_FIRST ∧
  currentStep (scanned "D1" st) = CHECKLIST ∧
  deviceId (scanned "D1" st) = "D1" ∧
  checkpoints (scanned "D1" st) = freshChecklist (Some Packaging) ∧
  (getDeviceStatus "D1" (submit sampleClock (passAll (scanned "D1" st)) w).2).1
    = Some (mkDeviceStatus "D1" pending completed 2501).
Proof. vm_compute. repeat split. Qed.

(** ** The device id of a session *)

Lemma recordOf_deviceId d l r : recordOf d l = Some r → ds_deviceId r = d.
Proof.
  unfold recordOf. intros ([i r0] & Hfind & ->)%fmap_Some.
  by apply list_find_Some in Hfind as (_ & Hd & _).
Qed.

Lemma handleDeviceSubmit_deviceId st w :
  deviceId (handleDeviceSubmit st w).1 = deviceId st.
Proof.
  unfold handleDeviceSubmit.
  destruct (negb (truthy _)); [done|].
  destruct (bool_decide (selectedStage st = _)); [|done].
  unfold mbind, St_bind. rewrite getDeviceStatus_run.
  destruct (recordOf _ _) as [ds|]; [|done].
  by destruct (negb _).
Qed.

(** At the FQC station of an empty store the operator types the label, or
    scans it, marks every checkpoint as a pass and submits. *)
Definition typedRun (label : string) : World :=
  let st := serialNumberInput_onChange label (atDeviceIdEntry FQC "") in
  let '(st1, w) := handleDeviceSubmit st emptyWorld in
  (submit sampleClock (passAll st1) w).2.

Definition scannedRun (label : string) : World :=
  (submit sampleClock (passAll (scanned label (atDeviceIdEntry FQC ""))) emptyWorld).2.

(** ** The operator registry *)

Import AdminPanel.

Definition userIds (l : list User) : list string := usr_userId <$> l.

(** The store that [saveUsers] leaves. *)
Definition usersOf (w : World) : option (list User) := flex_qc_users (storage w).

(** The form registers a new operator: both inputs are filled and no
    operator is being edited. *)
Definition creates (a : State) : Prop :=
  newUserId a ≠ "" ∧ newPassword a ≠ "" ∧
  (editingUserId a = None ∨ editingUserId a = Some "").

(** The operator that the form registers. *)
Definition formUser (a : State) : User :=
  {| usr_userId := newUserId a; usr_password := newPassword a;
     usr_isAdmin := false; usr_isActive := true; usr_assignedStage := newStage a |}.

Definition registry (l : list User) (uid pw : string) : State :=
  {| users := l; newUserId := uid; newPassword := pw; newStage := Some FQC;
     editingUserId := None; searchResult := None; hasSearched := false |}.

Definition storedUsers (l : list User) : World :=
  {| storage := mkLocalStorage (Some l) None None; trace := [] |}.

(** Registering op1 a second time: the ids were distinct, the form is
    accepted, and both the panel and the store hold op1 twice. *)
Lemma duplicate_userId_is_registered :
  let l := [INITIAL_ADMIN_USER; operator FQC] in
  let a := registry l "op1" "other" in
  let result := handleSubmit a (storedUsers l) in
  NoDup (userIds l) ∧
  userIds (users result.1) = ["admin"; "op1"; "op1"] ∧
  usersOf result.2 = Some (users result.1) ∧
  ¬ NoDup (userIds (users result.1)).
Proof.
  cbv zeta. split_and!.
  - change (NoDup ["admin"; "op1"]).
    apply NoDup_cons. split; [|apply NoDup_singleton].
    intros Hin%list_elem_of_singleton. discriminate Hin.
  - vm_compute. reflexivity.
  - vm_compute. reflexivity.
  - change (¬ NoDup ["admin"; "op1"; "op1"]).
    intros Hnodup. apply NoDup_cons in Hnodup as [_ Hnodup].
    apply NoDup_cons in Hnodup as [Hnotin _].
    apply Hnotin. apply list_elem_of_here.
Qed.

Lemma truthy_true s : truthy s = true ↔ s ≠ "".
Proof. unfold truthy. by rewrite negb_true_iff, bool_decide_eq_false. Qed.

Lemma truthy_false s : truthy s = false ↔ s = "".
Proof. unfold truthy. by rewrite negb_false_iff, bool_decide_eq_true. Qed.

(** Mapping users without touching their ids keeps the list of ids. *)
Lemma userIds_fmap_same (f : User → User) l :
  (∀ u, usr_userId (f u) = usr_userId u) → userIds (f <$> l) = userIds l.
Proof.
  intros Hf. unfold userIds. rewrite <- list_fmap_compose.
  apply list_fmap_ext. intros ? u _. apply Hf.
Qed.

Lemma userIds_filter_NoDup (P : User → Prop) `{∀ u, Decision (P u)} l :
  NoDup (userIds l) → NoDup (userIds (filter P l)).
Proof.
  unfold userIds. induction l as [|u l IH]; [done|].
  rewrite fmap_cons, NoDup_cons. intros [Hnotin Hnodup].
  rewrite filter_cons. case_decide; [|auto].
  rewrite fmap_cons. apply NoDup_cons. split; [|auto].
  intros (u' & Heq & Hin%list_elem_of_filter)%list_elem_of_fmap.
  apply Hnotin. apply list_elem_of_fmap. exists u'. tauto.
Qed.

(** What [handleSubmit] leaves in the panel, case by case. *)
Lemma handleSubmit_users a w :
  users (handleSubmit a w).1 =
    if negb (truthy (newUserId a)) || negb (truthy (newPassword a)) then users a
    else match editingUserId a with
         | Some e =>
             if truthy e
             then (λ u, if bool_decide (usr_userId u = e)
                        then mkUser (usr_userId u) (newPassword a) (usr_isAdmin u)
                               (usr_isActive u) (newStage a)
                        else u) <$> users a
             else users a ++ [formUser a]
         | None => users a ++ [formUser a]
         end.
Proof.
  unfold handleSubmit.
  destruct (negb (truthy (newUserId a)) || negb (truthy (newPassword a))); [done|].
  destruct (editingUserId a) as [e|]; [destruct (truthy e)|]; reflexivity.
Qed.

(** C7.  With distinct user ids in the panel: [handleSubmit] keeps them
    distinct exactly when it does not register an id that is already there;
    a registration is appended and written to the store whatever its id is;
    an update, [toggleStatus] and [deleteUser] keep the ids distinct. *)
Theorem admin_operations_userIds (a : State) (w : World) :
  NoDup (userIds (users a)) →
  (NoDup (userIds (users (handleSubmit a w).1)) ↔
     ¬ (creates a ∧ newUserId a ∈ userIds (users a))) ∧
  (creates a →
     users (handleSubmit a w).1 = users a ++ [formUser a] ∧
     usersOf (handleSubmit a w).2 = Some (users a ++ [formUser a])) ∧
  (∀ uid, userIds (users (toggleStatus uid a w).1) = userIds (users a)) ∧
  (∀ uid confirmed, NoDup (userIds (users (deleteUser uid confirmed a w).1))).
Proof.
  intros Hnodup.
  assert (Hcreate : creates a →
            handleSubmit a w =
              (mkState (users a ++ [formUser a]) "" "" (Some FQC) (editingUserId a)
                 (searchResult a) false,
               {| storage := mkLocalStorage (Some (users a ++ [formUser a]))
                               (flex_qc_reports (storage w))
                               (flex_qc_device_status (storage w));
                  trace := trace w ++ [SetUsers (users a ++ [formUser a])] |})).
  { intros (Hid%truthy_true & Hpw%truthy_true & Hedit).
    unfold handleSubmit. rewrite Hid, Hpw. cbn [negb orb].
    destruct Hedit as [-> | ->]; reflexivity. }
  assert (Hsnoc : NoDup (userIds (users a ++ [formUser a])) ↔
                  newUserId a ∉ userIds (users a)).
  { unfold userIds. rewrite fmap_app, NoDup_app. cbn. split.
    - intros (_ & Hdisj & _) Hin. apply (Hdisj _ Hin). apply list_elem_of_here.
    - intros Hnotin. split_and!; [done | | apply NoDup_singleton].
      intros x Hx ->%list_elem_of_singleton. done. }
  split_and!.
  - rewrite handleSubmit_users.
    destruct (truthy (newUserId a)) eqn:Hid; cbn [negb orb].
    2:{ apply truthy_false in Hid. split; [|done].
        intros _ [(Hne & _) _]. done. }
    destruct (truthy (newPassword a)) eqn:Hpw; cbn [negb orb].
    2:{ apply truthy_false in Hpw. split; [|done].
        intros _ [(_ & Hne & _) _]. done. }
    apply truthy_true in Hid, Hpw.
    destruct (editingUserId a) as [e|] eqn:Hedit.
    + destruct (truthy e) eqn:He.
      * rewrite userIds_fmap_same by (intros u; by case_bool_decide).
        split; [|done]. intros _ [(_ & _ & [?|Hsome]) _]; [congruence|].
        apply truthy_true in He. congruence.
      * apply truthy_false in He as ->. rewrite Hsnoc.
        unfold creates. rewrite Hedit. split.
        -- intros Hnotin [_ Hin]. done.
        -- intros Hno Hin. apply Hno. split_and!; auto.
    + rewrite Hsnoc. unfold creates. rewrite Hedit. split.
      * intros Hnotin [_ Hin]. done.
      * intros Hno Hin. apply Hno. split_and!; auto.
  - intros Hc. rewrite (Hcreate Hc). done.
  - intros uid. unfold toggleStatus.
    destruct (bool_decide (uid = "admin")); [done|]. cbn.
    apply userIds_fmap_same. intros u; by case_bool_decide.
  - intros uid confirmed. unfold deleteUser.
    destruct (bool_decide (uid = "admin")); [done|].
    destruct confirmed; [|done]. cbn.
    by apply userIds_filter_NoDup.
Qed.

Lemma admin_operations_userIds_witness :
  let l := [INITIAL_ADMIN_USER; operator FQC] in
  NoDup (userIds (users (handleSubmit (registry l "op2" "pw") (storedUsers l)).1)) ∧
  NoDup (userIds (users (deleteUser "op1" true (registry l "" "") (storedUsers l)).1)).
Proof.
  assert (Hl : NoDup (userIds [INITIAL_ADMIN_USER; operator FQC])).
  { apply NoDup_cons. split; [|apply NoDup_singleton].
    intros Hin%list_elem_of_singleton. discriminate Hin. }
  split.
  - destruct (admin_operations_userIds
                (registry [INITIAL_ADMIN_USER; operator FQC] "op2" "pw")
                (storedUsers [INITIAL_ADMIN_USER; operator FQC]) Hl)
      as (Hiff & _).
    apply Hiff. intros [_ Hin]. cbn in Hin.
    apply elem_of_cons in Hin as [Hin|Hin]; [discriminate Hin|].
    apply list_elem_of_singleton in Hin. discriminate Hin.
  - destruct (admin_operations_userIds
                (registry [INITIAL_ADMIN_USER; operator FQC] "" "")
                (storedUsers [INITIAL_ADMIN_USER; operator FQC]) Hl)
      as (_ & _ & _ & Hdel).
    apply Hdel.
Defined.

(** ** The device table of the dashboard *)

(** The rows run from the most recently updated to the least. *)
Definition newestFirst (rows : list DeviceStatus) : Prop :=
  ∀ i j a b,
    rows !! i = Some a → rows !! j = Some b → (i < j)%nat →
    ds_lastUpdated b ≤ ds_lastUpdated a.

(** Two devices pass FQC one after the other. *)
Definition twoDevices : World :=
  (updateDeviceStatus "D2" (Some FQC) completed 2000
     (updateDeviceStatus "D1" (Some FQC) completed 1000 emptyWorld).2).2.

(** Eleven devices pass FQC one after the other, device [n] at time [n]. *)
Definition elevenDevices : World :=
  foldl
    (λ w n, (updateDeviceStatus ("D" +:+ pretty n) (Some FQC) completed n w).2)
    emptyWorld [1; 2; 3; 4; 5; 6; 7; 8; 9; 10; 11].

(** The table lists D1 before D2 although D2 was updated last, and with
    eleven devices it leaves out the one updated last. *)
Lemma dashboard_rows_in_stored_order :
  (dashboardDeviceRows twoDevices).1
    = [mkDeviceStatus "D1" completed pending 1000;
       mkDeviceStatus "D2" completed pending 2000] ∧
  ¬ newestFirst (dashboardDeviceRows twoDevices).1 ∧
  ds_lastUpdated <$> (dashboardDeviceRows elevenDevices).1
    = [1; 2; 3; 4; 5; 6; 7; 8; 9; 10] ∧
  ds_lastUpdated <$> statusesOf elevenDevices
    = [1; 2; 3; 4; 5; 6; 7; 8; 9; 10; 11].
Proof.
  split_and!; try (vm_compute; reflexivity).
  intros Hsorted.
  specialize (Hsorted 0%nat 1%nat
                (mkDeviceStatus "D1" completed pending 1000)
                (mkDeviceStatus "D2" completed pending 2000)
                eq_refl eq_refl (Nat.lt_0_succ 0)).
  cbn in Hsorted. lia.
Qed.

Lemma dashboardDeviceRows_run w :
  dashboardDeviceRows w = (take 10 (statusesOf w), w).
Proof. reflexivity. Qed.

(** C8.  The device table reads the store without writing it and shows the
    first ten records of the stored array, in the order of the array.  That
    order is the order in which the devices were first recorded: an update
    of a recorded device leaves every device at its row, and a device
    without a record goes to the end of the array. *)
Theorem dashboardDeviceRows_stored_order (w : World) :
  let rows := (dashboardDeviceRows w).1 in
  (dashboardDeviceRows w).2 = w ∧
  (length rows ≤ 10)%nat ∧
  (∀ i, (i < 10)%nat → rows !! i = statusesOf w !! i) ∧
  (∀ i, (10 ≤ i)%nat → rows !! i = None) ∧
  (∀ d stage v now,
      let w' := (updateDeviceStatus d stage v now w).2 in
      match recordOf d (statusesOf w) with
      | Some _ =>
          ds_deviceId <$> (dashboardDeviceRows w').1 = ds_deviceId <$> rows
      | None =>
          ds_deviceId <$> statusesOf w' = (ds_deviceId <$> statusesOf w) ++ [d]
      end).
Proof.
  intros rows. subst rows. rewrite dashboardDeviceRows_run. cbn [fst snd].
  split_and!.
  - reflexivity.
  - rewrite length_take. lia.
  - intros i Hi. by apply lookup_take_lt.
  - intros i Hi. apply lookup_ge_None. rewrite length_take. lia.
  - intros d stage v now.
    rewrite updateDeviceStatus_run, dashboardDeviceRows_run. cbn [fst snd].
    change (statusesOf {| storage := withStatuses ?l w; trace := _ |}) with l.
    unfold recordOf, updatedStatuses.
    destruct (list_find _ (statusesOf w)) as [[i old]|] eqn:Hfind; cbn [fmap option_fmap option_map snd].
    + apply list_find_Some in Hfind as (Hi & Hd & _).
      rewrite !fmap_take. f_equal.
      rewrite list_fmap_insert. cbn. rewrite assignStage_deviceId.
      apply list_insert_id. by rewrite list_lookup_fmap, Hi.
    + rewrite fmap_app. cbn. by rewrite assignStage_deviceId.
Qed.

(** ** The escaping of the CSV export *)

Definition quoted (s : string) : string := String dquote s +:+ String dquote "".

(** The text He said hi, with hi between double quotes. *)
Definition heSaidHi : string := "He said " +:+ quoted "hi".

(** Escaping the escaped text of abc, a value without quotes, gives a text
    other than the escaped text of abc. *)
Lemma escape_not_idempotent :
  ¬ (∀ v, hasQuote v = false →
          escape (Some (escape (Some v))) = escape (Some v)).
Proof.
  intros Hidem. specialize (Hidem "abc" eq_refl).
  vm_compute in Hidem. discriminate Hidem.
Qed.

Lemma doubleQuotes_no_quote v : hasQuote v = false → doubleQuotes v = v.
Proof.
  induction v as [|c v IH]; cbn; [done|].
  intros [Hc Hv]%orb_false_iff. rewrite Hc. f_equal. auto.
Qed.

Lemma escape_Some v : escape (Some v) = quoted (doubleQuotes v).
Proof.
  unfold escape. destruct (truthy v) eqn:Hv; [done|].
  by apply truthy_false in Hv as ->.
Qed.

(** The number of double quotes of a string. *)
Fixpoint countQuotes (s : string) : nat :=
  match s with
  | EmptyString => 0
  | String c s' => (if bool_decide (c = dquote) then 1 else 0) + countQuotes s'
  end.

(** C9.  [escape] puts the value between two double quotes after doubling
    each double quote of it: the doubled text has twice the quotes of the
    value and as many more characters as the value has quotes, and [null]
    is escaped as the empty string.  The text He said hi, with hi between
    double quotes, becomes that text with hi between two double quotes on
    each side, the whole between double quotes.  A value without quotes is
    left as it is by the doubling, so its escaped text is the value between
    two quotes. *)
Theorem escape_doubles_and_wraps :
  (∀ v, escape (Some v) = quoted (doubleQuotes v)) ∧
  escape None = quoted "" ∧
  (∀ v, countQuotes (doubleQuotes v) = (2 * countQuotes v)%nat ∧
        String.length (doubleQuotes v) = (String.length v + countQuotes v)%nat) ∧
  escape (Some heSaidHi) = quoted ("He said " +:+ quoted (quoted "hi")) ∧
  (∀ v, hasQuote v = false →
        doubleQuotes v = v ∧ escape (Some v) = quoted v).
Proof.
  split_and!.
  - apply escape_Some.
  - reflexivity.
  - induction v as [|c v [IHq IHl]]; cbn; [done|].
    case_bool_decide; cbn.
    + rewrite bool_decide_true by done. cbn. rewrite IHq, IHl. lia.
    + rewrite bool_decide_false by done. cbn. rewrite IHq, IHl. lia.
  - vm_compute. reflexivity.
  - intros v Hv. rewrite escape_Some, doubleQuotes_no_quote by done. done.
Qed.

(** ** Further properties of the store and scenarios of the workflow *)

(** X1.  [updateDeviceStatus] keeps the device ids of the stored statuses
    pairwise distinct. *)
Theorem updateDeviceStatus_keeps_key d stage v now w :
  NoDup (ds_deviceId <$> statusesOf w) →
  NoDup (ds_deviceId <$> statusesOf (updateDeviceStatus d stage v now w).2).
Proof.
  intros Hnodup. rewrite updateDeviceStatus_run.
  change (statusesOf {| storage := withStatuses ?l w; trace := _ |}) with l.
  by apply updatedStatuses_NoDup.
Qed.

Lemma updateDeviceStatus_keeps_key_witness :
  NoDup (ds_deviceId <$>
           statusesOf (updateDeviceStatus "D1" (Some FQC) completed 1000 emptyWorld).2).
Proof.
  apply (updateDeviceStatus_keeps_key "D1" (Some FQC) completed 1000 emptyWorld).
  apply NoDup_nil_2.
Defined.

(** A store with the administrator and one FQC operator. *)
Definition fqcStation : World :=
  {| storage := mkLocalStorage (Some [INITIAL_ADMIN_USER; operator FQC]) None None;
     trace := [] |}.

(** Two logins, as an example.  On a fresh store the administrator, through
    the admin access and with no stage selected, reaches the admin console,
    and the store is seeded with the administrator alone.  An operator assigned to
    FQC who selects Packaging is denied and stays on the login screen, with
    no user bound to the session. *)
Theorem login_scenarios :
  let admin := handleLogin "admin" "123" (handleAdminAccess initialApp) emptyWorld in
  let op := handleLogin "op1" "pw" (handleStageSelect (Some Packaging) initialApp)
              fqcStation in
  currentStep admin.1 = ADMIN ∧
  currentUser admin.1 = Some INITIAL_ADMIN_USER ∧
  selectedStage admin.1 = None ∧
  usersOf admin.2 = Some [INITIAL_ADMIN_USER] ∧
  currentStep op.1 = LOGIN ∧
  currentUser op.1 = None ∧
  error op.1 = MSG_ACCESS_DENIED (Some FQC).
Proof. vm_compute. repeat split. Qed.

(** An example over two stations.  Device D1 passes FQC with every
    checkpoint a pass; its serial number is then let through at the
    Packaging station; the Packaging
    report with one failed checkpoint leaves FQC completed and makes
    Packaging failed. *)
Theorem fqc_then_packaging_scenario :
  let fqcDone :=
    (submit sampleClock (passAll (entered (atDeviceIdEntry FQC "D1"))) emptyWorld).2 in
  let packaging := handleDeviceSubmit (atDeviceIdEntry Packaging "D1") fqcDone in
  let failOne :=
    handleCheckpointUpdate "pkg_01"
      (mkPatch None (Some (Some Fail)) None (Some "Label mismatch"))
      (passAll packaging.1) in
  let later := {| at_id := 9000; at_stamp := 9000; at_save := 10500; at_update := 10501 |} in
  (getDeviceStatus "D1" fqcDone).1 = Some (mkDeviceStatus "D1" completed pending 2501) ∧
  currentStep packaging.1 = CHECKLIST ∧
  checkpoints packaging.1 = freshChecklist (Some Packaging) ∧
  canSubmit (checkpoints failOne) = true ∧
  (getDeviceStatus "D1" (submit later failOne packaging.2).2).1
    = Some (mkDeviceStatus "D1" completed failed 10501).
Proof. vm_compute. repeat split. Qed.

(** * The rest of the storage layer *)

Lemma getStoredUsers_run w :
  getStoredUsers w =
    match usersOf w with
    | Some l => (l, w)
    | None =>
        ([INITIAL_ADMIN_USER],
         {| storage := mkLocalStorage (Some [INITIAL_ADMIN_USER])
                         (flex_qc_reports (storage w))
                         (flex_qc_device_status (storage w));
            trace := trace w ++ [SetUsers [INITIAL_ADMIN_USER]] |})
    end.
Proof.
  unfold getStoredUsers, usersOf. st_unfold.
  destruct (flex_qc_users (storage w)); [by destruct w|]. reflexivity.
Qed.

Lemma saveUsers_run l w :
  saveUsers l w =
    (tt, {| storage := mkLocalStorage (Some l) (flex_qc_reports (storage w))
                         (flex_qc_device_status (storage w));
            trace := trace w ++ [SetUsers l] |}).
Proof. reflexivity. Qed.

Lemma getStoredReports_run w : getStoredReports w = (reportsOf w, w).
Proof. reflexivity. Qed.

(** X2.  [getStoredUsers] seeds the store once: on a store without users it
    writes the administrator alone and returns that list; on a store with
    users, the empty list included, it returns them and writes nothing.
    Either way the store then holds the list returned, a second call
    returns it again without a write, and reports and device statuses are
    as they were. *)
Theorem getStoredUsers_seeds_once (w : World) :
  let l := (getStoredUsers w).1 in
  let w1 := (getStoredUsers w).2 in
  usersOf w1 = Some l ∧
  getStoredUsers w1 = (l, w1) ∧
  reportsOf w1 = reportsOf w ∧ statusesOf w1 = statusesOf w ∧
  match usersOf w with
  | Some stored => l = stored ∧ w1 = w
  | None => l = [INITIAL_ADMIN_USER] ∧
            trace w1 = trace w ++ [SetUsers [INITIAL_ADMIN_USER]]
  end.
Proof.
  cbv zeta. rewrite (getStoredUsers_run w).
  destruct (usersOf w) as [stored|] eqn:Hstored; cbn [fst snd].
  - rewrite getStoredUsers_run, Hstored. done.
  - rewrite getStoredUsers_run. done.
Qed.

(** X3.  What [saveUsers] writes is what [getStoredUsers] reads back, for
    every list, the empty one included (no administrator is seeded over
    it); the write leaves reports and device statuses alone. *)
Theorem saveUsers_getStoredUsers (l : list User) (w : World) :
  let w1 := (saveUsers l w).2 in
  getStoredUsers w1 = (l, w1) ∧
  reportsOf w1 = reportsOf w ∧ statusesOf w1 = statusesOf w.
Proof. cbv zeta. rewrite saveUsers_run, getStoredUsers_run. done. Qed.

Lemma statusesOf_mk us rs l tr :
  statusesOf {| storage := mkLocalStorage us rs (Some l); trace := tr |} = l.
Proof. reflexivity. Qed.

Lemma reportsOf_mk us l ds tr :
  reportsOf {| storage := mkLocalStorage us (Some l) ds; trace := tr |} = l.
Proof. reflexivity. Qed.

Lemma saveReport_run r now w :
  saveReport r now w =
    (tt,
     {| storage :=
          mkLocalStorage (flex_qc_users (storage w))
            (Some (reportsOf w ++ [r]))
            (Some (updatedStatuses (rep_deviceId r) (rep_stage r) completed now
                     (statusesOf w)));
        trace :=
          trace w ++
          [SetReports (reportsOf w ++ [r]);
           EnterUpdateDeviceStatus (rep_deviceId r) (rep_stage r) completed;
           SetDeviceStatus
             (updatedStatuses (rep_deviceId r) (rep_stage r) completed now
                (statusesOf w))] |}).
Proof.
  unfold saveReport. unfold mbind at 1 2, St_bind.
  rewrite getStoredReports_run. unfold setItemReports. st_unfold.
  rewrite updateDeviceStatus_run. cbn.
  unfold withStatuses, statusesOf, reportsOf. cbn.
  by rewrite <- !app_assoc.
Qed.

(** X4.  [saveReport] puts the report at the end of the stored reports and
    keeps every earlier report and the users.  It also marks the report's
    stage completed for the report's device, whatever the checkpoints of
    the report say, and leaves the record of every other device alone. *)
Theorem saveReport_appends (r : QCReport) (now : Z) (w : World) :
  let w1 := (saveReport r now w).2 in
  getStoredReports w1 = (reportsOf w ++ [r], w1) ∧
  usersOf w1 = usersOf w ∧
  (∀ s, rep_stage r = Some s →
        ∃ rec, recordOf (rep_deviceId r) (statusesOf w1) = Some rec ∧
               stageField s rec = completed) ∧
  (∀ d, d ≠ rep_deviceId r → recordOf d (statusesOf w1) = recordOf d (statusesOf w)).
Proof.
  cbv zeta. rewrite saveReport_run. cbn [snd]. split_and!.
  - reflexivity.
  - reflexivity.
  - intros s Hs. rewrite statusesOf_mk, recordOf_updated, Hs. eexists. split; [reflexivity|].
    destruct (recordOf _ _).
    + by rewrite stageField_assignLastUpdated, stageField_assign.
    + by rewrite stageField_assign.
  - intros d Hd. rewrite statusesOf_mk. by apply recordOf_updated_other.
Qed.

(** * Logging in *)

(** Two elements of a list with distinct keys that share a key are one. *)
Lemma NoDup_fmap_same_key {A K} (f : A → K) (l : list A) x y :
  NoDup (f <$> l) → x ∈ l → y ∈ l → f x = f y → x = y.
Proof.
  intros Hnodup [i Hi]%list_elem_of_lookup [j Hj]%list_elem_of_lookup Hf.
  assert (i = j) as ->; [|congruence].
  eapply (NoDup_lookup _ _ _ (f x) Hnodup); rewrite list_lookup_fmap.
  - by rewrite Hi.
  - by rewrite Hj, Hf.
Qed.

(** The session that a successful login leaves. *)
Definition loggedIn (st : AppState) (u : User) (step : AppStep) : AppState :=
  setCurrentStep (setError (setCurrentUser st (Some u)) "") step.

Lemma handleLogin_run userId password st w :
  handleLogin userId password st w =
    (match list_find (λ u, usr_userId u = userId ∧ usr_password u = password)
             (getStoredUsers w).1 with
     | Some (_, user) =>
         if negb (usr_isActive user) then setError st MSG_DISABLED
         else if usr_isAdmin user then loggedIn st user ADMIN
         else match selectedStage st with
              | None => setError st MSG_SELECT_STAGE
              | Some _ =>
                  if negb (bool_decide (usr_assignedStage user = selectedStage st))
                  then setError st (MSG_ACCESS_DENIED (usr_assignedStage user))
                  else loggedIn st user DEVICE_ID_ENTRY
              end
     | None => setError st MSG_INVALID
     end,
     (getStoredUsers w).2).
Proof.
  unfold handleLogin. unfold mbind, St_bind.
  destruct (getStoredUsers w) as [users w1]. cbn [fst snd].
  by destruct (list_find _ users) as [[i user]|].
Qed.

Lemma MSG_ACCESS_DENIED_not_empty s : MSG_ACCESS_DENIED s ≠ "".
Proof. by destruct s as [[]|]. Qed.

(** X5.  [handleLogin] reads the users (seeding a store without any) and
    writes nothing else.  It either binds a stored user whose id and
    password are the ones typed and who is active, an administrator going
    to the admin console whatever stage is selected and an operator to the
    device screen of the selected stage, which is the stage the operator is
    assigned to; or it changes nothing but the error message, which is then
    not empty.  The message is the one of invalid credentials exactly when
    no stored user has both the id and the password.  With distinct user
    ids, every stored active user is let in with the right password:
    an administrator always, an operator when the assigned stage is the
    selected one. *)
Theorem handleLogin_outcomes (userId password : string) (st : AppState) (w : World) :
  let users := (getStoredUsers w).1 in
  let st' := (handleLogin userId password st w).1 in
  let has_credentials u := usr_userId u = userId ∧ usr_password u = password in
  (handleLogin userId password st w).2 = (getStoredUsers w).2 ∧
  ((∃ u, u ∈ users ∧ has_credentials u ∧ usr_isActive u = true ∧
         if usr_isAdmin u then st' = loggedIn st u ADMIN
         else st' = loggedIn st u DEVICE_ID_ENTRY ∧
              is_Some (selectedStage st) ∧
              usr_assignedStage u = selectedStage st) ∨
   (∃ msg, msg ≠ "" ∧ st' = setError st msg)) ∧
  (st' = setError st MSG_INVALID ↔ ¬ ∃ u, u ∈ users ∧ has_credentials u) ∧
  (NoDup (userIds users) →
   ∀ u, u ∈ users → has_credentials u → usr_isActive u = true →
        (usr_isAdmin u = true → st' = loggedIn st u ADMIN) ∧
        (usr_isAdmin u = false → is_Some (selectedStage st) →
         usr_assignedStage u = selectedStage st →
         st' = loggedIn st u DEVICE_ID_ENTRY)).
Proof.
  cbv zeta. rewrite handleLogin_run. cbn [fst snd].
  set (users := (getStoredUsers w).1).
  split; [reflexivity|].
  destruct (list_find _ users) as [[i user]|] eqn:Hfind.
  - apply list_find_Some in Hfind as (Hi & Hcred & _).
    assert (Hin : user ∈ users) by (by eapply list_elem_of_lookup_2).
    pose proof Hcred as [Hid Hpw].
    assert (Hfound : ∀ u, u ∈ users → usr_userId u = userId →
                          NoDup (userIds users) → u = user).
    { intros u Hu Hu_id Hnodup.
      eapply (NoDup_fmap_same_key usr_userId users); eauto.
      congruence. }
    split_and!.
    + destruct (usr_isActive user) eqn:Hactive; cbn [negb].
      2:{ right. exists MSG_DISABLED. done. }
      destruct (usr_isAdmin user) eqn:Hadmin.
      { left. exists user. rewrite Hadmin. done. }
      destruct (selectedStage st) as [s|] eqn:Hstage.
      2:{ right. exists MSG_SELECT_STAGE. done. }
      case_bool_decide as Hassigned; cbn [negb].
      * left. exists user. rewrite Hadmin. split_and!; try done.
      * right. eexists. split; [apply MSG_ACCESS_DENIED_not_empty | done].
    + split.
      * intros Heq. exfalso.
        assert (Herr : ∀ a b, a = b → error a = error b) by congruence.
        destruct (usr_isActive user); cbn [negb] in Heq;
          [|apply Herr in Heq; discriminate Heq].
        destruct (usr_isAdmin user); [apply Herr in Heq; discriminate Heq|].
        destruct (selectedStage st); [|apply Herr in Heq; discriminate Heq].
        destruct (negb _); apply Herr in Heq; cbn in Heq; [|discriminate Heq].
        by destruct (usr_assignedStage user) as [[]|].
      * intros Hno. exfalso. apply Hno. eauto.
    + intros Hnodup u Hu [Hid' Hpw'] Hactive.
      apply Hfound in Hu as ->; [|done..].
      rewrite Hactive. cbn [negb]. split.
      * intros ->. done.
      * intros -> [s Hs] Hassigned. rewrite Hs.
        rewrite bool_decide_true by congruence. done.
  - apply list_find_None in Hfind. rewrite Forall_forall in Hfind.
    split_and!.
    + right. exists MSG_INVALID. done.
    + split; [|done]. intros _ (u & Hu & Hcred). by apply (Hfind u).
    + intros _ u Hu Hcred. by destruct (Hfind u Hu).
Qed.

(** * The CSV export ([handleExportCSV]) *)

(** [Array.prototype.join] on strings. *)
Fixpoint join (sep : string) (l : list string) : string :=
  match l with
  | [] => ""
  | [x] => x
  | x :: rest => x +:+ sep +:+ join sep rest
  end.

(** [cp.status || 'N/A'] *)
Definition statusText (s : option CheckStatus) : string :=
  match s with Some Pass => "Pass" | Some Fail => "Fail" | None => "N/A" end.

(** One checkpoint of the summary column. *)
Definition checkpointSummary (cp : CheckpointResult) : string :=
  cp_label cp +:+ ": " +:+ statusText (cp_status cp) +:+
  (if bool_decide (cp_status cp = Some Fail)
   then " (Reason: " +:+
        (if truthy (cp_reason cp) then cp_reason cp else "Not provided") +:+ ")"
   else "").

Definition checkpointsSummary (r : QCReport) : string :=
  join " | " (checkpointSummary <$> rep_checkpoints r).

(** [r.stage] as [escape] receives it. *)
Definition stageValue (s : Stage) : option string :=
  match s with Some FQC => Some "FQC" | Some Packaging => Some "Packaging" | None => None end.

Definition headers : list string :=
  ["Report ID"; "Timestamp"; "Stage"; "User ID"; "Device ID"; "Checkpoints Summary"].

Definition newline : string := String (ascii_of_nat 10) "".
Definition comma : ascii := ascii_of_nat 44.

(** The text before the first T: [split('T')[0]]. *)
Fixpoint beforeT (s : string) : string :=
  match s with
  | EmptyString => EmptyString
  | String c s' => if bool_decide (c = "T"%char) then EmptyString else String c (beforeT s')
  end.

Section CsvExport.
(** [toISOString] of a stored clock reading: the stored timestamp of a
    report, as text. *)
Variable toISOString : Z → string.

(** The values of the six columns of a report, before escaping. *)
Definition rowValues (r : QCReport) : list (option string) :=
  [ Some (rep_id r); Some (toISOString (rep_timestamp r)); stageValue (rep_stage r);
    Some (rep_userId r); Some (rep_deviceId r); Some (checkpointsSummary r) ].

Definition csvRow (r : QCReport) : string := join "," (escape <$> rowValues r).

Definition csvContent (reports : list QCReport) : string :=
  join newline (join "," headers :: (csvRow <$> reports)).

(** [handleExportCSV]: the alert and no file for an empty store, else the
    name and the content of the file that is downloaded.  [now] is the
    clock reading behind the name. *)
Definition handleExportCSV (now : Z) : St (option (string * string)) :=
  reports ← getStoredReports;
  if bool_decide (length reports = 0%nat) then
    emit (Alert "No reports available to export.");;
    mret None
  else
    let dateStr := beforeT (toISOString now) in
    mret (Some ("Flex_QC_Export_" +:+ dateStr +:+ ".csv", csvContent reports)).

End CsvExport.

(** * The workflow as a machine *)

(** An operation of the admin panel, with the panel's hooks at the time. *)
Inductive PanelOp :=
| PanelMount
| PanelSubmit (a : AdminPanel.State)
| PanelDelete (userId : string) (confirmed : bool) (a : AdminPanel.State)
| PanelToggle (userId : string) (a : AdminPanel.State).

Definition panelOp (op : PanelOp) : St unit :=
  match op with
  | PanelMount => AdminPanel.mount;; mret tt
  | PanelSubmit a => AdminPanel.handleSubmit a;; mret tt
  | PanelDelete userId confirmed a => AdminPanel.deleteUser userId confirmed a;; mret tt
  | PanelToggle userId a => AdminPanel.toggleStatus userId a;; mret tt
  end.

(** What can happen to a session: a control of the current screen is used,
    or something the session waits for arrives (a video frame, the camera
    permission, a photo that was read, a suggested reason).  A video frame
    comes with the render whose [detectCode] polls, taken here as any
    session. *)
Inductive Event :=
| ClickLogo
| ClickLogout
| ClickBack
| StageSelect (stage : StageName)
| AdminAccess
| LoginSubmit (userId password : string)
| DeviceImage (image : option string)
| SerialInput (value : string)
| OpenScanner
| DeviceSubmit
| ScanStart (granted : bool)
| ScanStop
| VideoFrame (render : AppState) (code : option string)
| Editing (id : option string)
| CheckpointUpdate (id : string) (updates : CheckpointPatch)
| AddCheckpoint (now : Z)
| DeleteCheckpoint (id : string)
| FinalSubmit (clk : SubmitClock)
| NextDevice
| ToDashboard
| ManageUsers
| Panel (op : PanelOp)
| ExportCSV (now : Z).

Section Workflow.
Variable toISOString : Z → string.

(** [on screen st k]: [k] when the session is on [screen], else nothing
    happens, the control not being rendered. *)
Definition on (screen : AppStep) (st : AppState) (k : St AppState) : St AppState :=
  if bool_decide (currentStep st = screen) then k else mret st.

(** One event.  A control acts on the screen that renders it: the logo
    while nobody is logged in, the header's logout while somebody is (the
    admin console and the dashboard have a logout of their own), the back
    button of each screen towards the screen it names.  What arrives late
    is handled on whatever screen the session is on by then. *)
Definition step (e : Event) (st : AppState) : St AppState :=
  match e with
  | ClickLogo =>
      mret (match currentUser st with
            | None => setCurrentStep st STAGE_SELECTION
            | Some _ => st
            end)
  | ClickLogout =>
      if bool_decide (is_Some (currentUser st))
         || bool_decide (currentStep st = ADMIN)
         || bool_decide (currentStep st = DASHBOARD)
      then mret (logout st) else mret st
  | ClickBack =>
      mret (match currentStep st with
            | LOGIN | DEVICE_ID_ENTRY | ADMIN | DASHBOARD =>
                setCurrentStep st STAGE_SELECTION
            | CHECKLIST | SCAN_DEVICE_ID => setCurrentStep st DEVICE_ID_ENTRY
            | STAGE_SELECTION | SUCCESS => st
            end)
  | StageSelect stage => on STAGE_SELECTION st (mret (handleStageSelect (Some stage) st))
  | AdminAccess => on STAGE_SELECTION st (mret (handleAdminAccess st))
  | LoginSubmit userId password => on LOGIN st (handleLogin userId password st)
  | DeviceImage image => mret (setDeviceImage st image)
  | SerialInput value => on DEVICE_ID_ENTRY st (mret (serialNumberInput_onChange value st))
  | OpenScanner => on DEVICE_ID_ENTRY st (mret (setCurrentStep st SCAN_DEVICE_ID))
  | DeviceSubmit => on DEVICE_ID_ENTRY st (handleDeviceSubmit st)
  | ScanStart granted => mret (startScanning granted st)
  | ScanStop => on SCAN_DEVICE_ID st (mret (stopScanning st))
  | VideoFrame render code => mret (detectCode render code st)
  | Editing id => on CHECKLIST st (mret (setEditingId st id))
  | CheckpointUpdate id updates => mret (handleCheckpointUpdate id updates st)
  | AddCheckpoint now => on CHECKLIST st (mret (handleAddCheckpoint now st))
  | DeleteCheckpoint id => on CHECKLIST st (mret (handleDeleteCheckpoint id st))
  | FinalSubmit clk =>
      on CHECKLIST st (if isSubmitting st then mret st else submit clk st)
  | NextDevice => on SUCCESS st (mret (resetApp st))
  | ToDashboard => on ADMIN st (mret (setCurrentStep st DASHBOARD))
  | ManageUsers => on DASHBOARD st (mret (setCurrentStep st ADMIN))
  | Panel op => on ADMIN st (panelOp op;; mret st)
  | ExportCSV now =>
      if bool_decide (currentStep st = ADMIN) || bool_decide (currentStep st = DASHBOARD)
      then handleExportCSV toISOString now;; mret st
      else mret st
  end.

(** A sequence of events, each submission running to its end before the
    next event. *)
Fixpoint run (es : list Event) (st : AppState) : St AppState :=
  match es with
  | [] => mret st
  | e :: es => st' ← step e st; run es st'
  end.

End Workflow.

(** ** Who is on which screen *)

(** On the screens of an inspection the session is bound to an operator,
    not an administrator, whose assigned stage is the selected stage; on
    the admin console and the dashboard it is bound to an administrator. *)
Definition Authorized (st : AppState) : Prop :=
  match currentStep st with
  | DEVICE_ID_ENTRY | SCAN_DEVICE_ID | CHECKLIST | SUCCESS =>
      ∃ u s, currentUser st = Some u ∧ usr_isAdmin u = false ∧
             usr_assignedStage u = Some s ∧ selectedStage st = Some s
  | ADMIN | DASHBOARD => ∃ u, currentUser st = Some u ∧ usr_isAdmin u = true
  | STAGE_SELECTION | LOGIN => True
  end.

Lemma handleDeviceSubmit_cases st w :
  handleDeviceSubmit st w = (setError st MSG_DEVICE_REQUIRED, w) ∨
  handleDeviceSubmit st w = (setError st MSG_FQC_FIRST, w) ∨
  handleDeviceSubmit st w = (entered st, w).
Proof.
  unfold handleDeviceSubmit, entered.
  destruct (negb (truthy _)); [by left|].
  destruct (bool_decide (selectedStage st = _)); [|by right; right].
  unfold mbind, St_bind. rewrite getDeviceStatus_run.
  destruct (recordOf _ _) as [ds|]; [|by right; left].
  destruct (negb _); [by right; left | by right; right].
Qed.

Lemma submit_cases clk st w :
  (canSubmit (checkpoints st) = true ∧
   submit clk st w =
     (setCurrentStep (setIsSubmitting (setIsSubmitting st true) false) SUCCESS,
      {| storage := submittedStorage clk st w;
         trace := trace w ++ submittedTrace clk st w |})) ∨
  (canSubmit (checkpoints st) = false ∧
   submit clk st w =
     (st, {| storage := storage w; trace := trace w ++ [Alert MSG_INCOMPLETE] |})).
Proof.
  destruct (canSubmit (checkpoints st)) eqn:Hok.
  - left. split; [done|]. by apply submit_accepted.
  - right. split; [done|]. by apply submit_refused.
Qed.

Lemma panelOp_users_only op w :
  reportsOf (panelOp op w).2 = reportsOf w ∧
  statusesOf (panelOp op w).2 = statusesOf w.
Proof.
  destruct op as [|a|uid confirmed a|uid a]; unfold panelOp.
  - unfold AdminPanel.mount. unfold mbind, St_bind, mret, St_ret.
    rewrite getStoredUsers_run. by destruct (usersOf w).
  - unfold AdminPanel.handleSubmit.
    destruct (_ || _); [done|]. by split.
  - unfold AdminPanel.deleteUser.
    destruct (bool_decide _); [done|]. by destruct confirmed.
  - unfold AdminPanel.toggleStatus. by destruct (bool_decide _).
Qed.

Section WorkflowFacts.
Variable toISOString : Z → string.

Lemma handleExportCSV_storage now w :
  storage (handleExportCSV toISOString now w).2 = storage w.
Proof.
  unfold handleExportCSV. unfold mbind, St_bind.
  rewrite getStoredReports_run. by destruct (bool_decide _).
Qed.

Lemma on_cases screen st k w :
  on screen st k w = k w ∧ currentStep st = screen ∨
  on screen st k w = (st, w) ∧ currentStep st ≠ screen.
Proof. unfold on. case_bool_decide; [by left | by right]. Qed.

(** The session after one event, whatever the store. *)
Lemma step_Authorized e st w :
  Authorized st → Authorized (step toISOString e st w).1.
Proof.
  intros Hauth. destruct e; unfold step.
  - (* ClickLogo *)
    cbn. by destruct (currentUser st).
  - (* ClickLogout *)
    by destruct (_ || _).
  - (* ClickBack *)
    cbn. unfold Authorized in *.
    destruct (currentStep st) eqn:Hstep; cbn; rewrite ?Hstep; done.
  - (* StageSelect *)
    destruct (on_cases STAGE_SELECTION st (mret (handleStageSelect (Some stage) st)) w)
      as [[-> Hstep]|[-> _]]; [|done].
    cbn. unfold handleStageSelect. cbn.
    destruct (currentUser st) as [u|] eqn:Hu; [|done].
    destruct (usr_isAdmin u) eqn:Hadmin; cbn; [done|].
    case_bool_decide as Hassigned; cbn.
    + unfold Authorized. cbn. exists u, stage. by rewrite Hu.
    + unfold Authorized in *. cbn. by rewrite Hstep.
  - (* AdminAccess *)
    destruct (on_cases STAGE_SELECTION st (mret (handleAdminAccess st)) w)
      as [[-> Hstep]|[-> _]]; [|done].
    cbn. unfold handleAdminAccess. cbn.
    destruct (currentUser st) as [u|] eqn:Hu; [|done].
    destruct (usr_isAdmin u) eqn:Hadmin; [|done].
    unfold Authorized. cbn. eauto.
  - (* LoginSubmit *)
    destruct (on_cases LOGIN st (handleLogin userId password st) w)
      as [[-> Hstep]|[-> _]]; [|done].
    rewrite handleLogin_run. cbn [fst].
    assert (Hsame : ∀ msg, Authorized (setError st msg)).
    { intros msg. unfold Authorized in *. cbn. by rewrite Hstep. }
    destruct (list_find _ _) as [[i user]|]; [|done].
    destruct (negb (usr_isActive user)); [done|].
    destruct (usr_isAdmin user) eqn:Hadmin.
    { unfold Authorized. cbn. eauto. }
    destruct (selectedStage st) as [s|] eqn:Hstage; [|done].
    case_bool_decide as Hassigned; cbn [negb]; [|done].
    unfold Authorized. cbn. exists user, s. by rewrite Hstage.
  - (* DeviceImage *) done.
  - (* SerialInput *)
    destruct (on_cases DEVICE_ID_ENTRY st
                (mret (serialNumberInput_onChange value st)) w)
      as [[-> Hstep]|[-> _]]; done.
  - (* OpenScanner *)
    destruct (on_cases DEVICE_ID_ENTRY st (mret (setCurrentStep st SCAN_DEVICE_ID)) w)
      as [[-> Hstep]|[-> _]]; [|done].
    unfold Authorized in *. cbn. by rewrite Hstep in Hauth.
  - (* DeviceSubmit *)
    destruct (on_cases DEVICE_ID_ENTRY st (handleDeviceSubmit st) w)
      as [[-> Hstep]|[-> _]]; [|done].
    unfold Authorized in *. rewrite Hstep in Hauth.
    destruct (handleDeviceSubmit_cases st w) as [-> | [-> | ->]]; cbn;
      by rewrite ?Hstep.
  - (* ScanStart *)
    cbn. unfold startScanning. destruct granted; [|done].
    case_bool_decide as Hstep; [|done].
    unfold Authorized in *. cbn. by rewrite Hstep in *.
  - (* ScanStop *)
    destruct (on_cases SCAN_DEVICE_ID st (mret (stopScanning st)) w)
      as [[-> Hstep]|[-> _]]; [|done].
    cbn. unfold stopScanning. destruct (_ && _); [|done].
    unfold Authorized in *. cbn. by rewrite Hstep in *.
  - (* VideoFrame *)
    cbn. unfold detectCode.
    case_bool_decide as Hstep; cbn [negb orb]; [|done].
    destruct (scanning render); cbn [negb]; [|done].
    destruct (videoStream st); cbn [negb]; [|done].
    destruct code as [data|]; [|done].
    unfold Authorized in *. cbn. by rewrite Hstep in Hauth.
  - (* Editing *)
    destruct (on_cases CHECKLIST st (mret (setEditingId st id)) w)
      as [[-> Hstep]|[-> _]]; done.
  - (* CheckpointUpdate *) done.
  - (* AddCheckpoint *)
    destruct (on_cases CHECKLIST st (mret (handleAddCheckpoint now st)) w)
      as [[-> Hstep]|[-> _]]; done.
  - (* DeleteCheckpoint *)
    destruct (on_cases CHECKLIST st (mret (handleDeleteCheckpoint id st)) w)
      as [[-> Hstep]|[-> _]]; [|done].
    cbn. unfold handleDeleteCheckpoint. by destruct (bool_decide _).
  - (* FinalSubmit *)
    destruct (on_cases CHECKLIST st
                (if isSubmitting st then mret st else submit clk st) w)
      as [[-> Hstep]|[-> _]]; [|done].
    destruct (isSubmitting st); [done|].
    destruct (submit_cases clk st w) as [[_ ->]|[_ ->]]; [|done].
    unfold Authorized in *. cbn. by rewrite Hstep in Hauth.
  - (* NextDevice *)
    destruct (on_cases SUCCESS st (mret (resetApp st)) w)
      as [[-> Hstep]|[-> _]]; [|done].
    unfold Authorized in *. cbn. by rewrite Hstep in Hauth.
  - (* ToDashboard *)
    destruct (on_cases ADMIN st (mret (setCurrentStep st DASHBOARD)) w)
      as [[-> Hstep]|[-> _]]; [|done].
    unfold Authorized in *. cbn. by rewrite Hstep in Hauth.
  - (* ManageUsers *)
    destruct (on_cases DASHBOARD st (mret (setCurrentStep st ADMIN)) w)
      as [[-> Hstep]|[-> _]]; [|done].
    unfold Authorized in *. cbn. by rewrite Hstep in Hauth.
  - (* Panel *)
    destruct (on_cases ADMIN st (panelOp op;; mret st) w)
      as [[-> Hstep]|[-> _]]; [|done].
    unfold mbind, St_bind. by destruct (panelOp op w).
  - (* ExportCSV *)
    destruct (_ || _); [|done].
    unfold mbind, St_bind. by destruct (handleExportCSV _ _ _).
Qed.

End WorkflowFacts.

Section Runs.
Variable toISOString : Z → string.

Lemma run_cons e es st w :
  run toISOString (e :: es) st w =
    run toISOString es (step toISOString e st w).1 (step toISOString e st w).2.
Proof. cbn. unfold mbind, St_bind. by destruct (step _ _ _ _). Qed.

Lemma run_Authorized_from es st w :
  Authorized st → Authorized (run toISOString es st w).1.
Proof.
  revert st w. induction es as [|e es IH]; intros st w Hauth; [done|].
  rewrite run_cons. apply IH. by apply step_Authorized.
Qed.

(** X6.  In every run of the workflow from the first screen, over any
    store, in which each submission runs to its end before the next event:
    a session on the device, scan, checklist or success screen is bound to
    an operator who is no administrator and whose assigned stage is the
    selected stage, and a session on the admin console or the dashboard is
    bound to an administrator. *)
Theorem run_Authorized (es : list Event) (w : World) :
  Authorized (run toISOString es initialApp w).1.
Proof. by apply run_Authorized_from. Qed.

(** ** What the workflow does to the stored records *)

(** One event leaves the reports and the device statuses alone, unless it
    is an accepted submission from the checklist. *)
Lemma step_records e st w :
  let w' := (step toISOString e st w).2 in
  (reportsOf w' = reportsOf w ∧ statusesOf w' = statusesOf w) ∨
  (∃ clk, e = FinalSubmit clk ∧ currentStep st = CHECKLIST ∧
          canSubmit (checkpoints st) = true ∧
          storage w' = submittedStorage clk st w).
Proof.
  cbv zeta. destruct e; unfold step;
    try (left; done);
    try (left; unfold on; case_bool_decide; done).
  - (* ClickLogout *) left. by destruct (_ || _).
  - (* LoginSubmit *)
    left. unfold on. case_bool_decide; [|done].
    rewrite handleLogin_run. cbn [snd].
    rewrite getStoredUsers_run. by destruct (usersOf w).
  - (* DeviceSubmit *)
    left. unfold on. case_bool_decide; [|done].
    by destruct (handleDeviceSubmit_cases st w) as [-> | [-> | ->]].
  - (* FinalSubmit *)
    unfold on. case_bool_decide as Hstep; [|by left].
    destruct (isSubmitting st); [by left|].
    destruct (submit_cases clk st w) as [[Hok ->]|[_ ->]]; [|by left].
    right. exists clk. done.
  - (* Panel *)
    left. unfold on. case_bool_decide; [|done].
    unfold mbind, St_bind.
    pose proof (panelOp_users_only op w) as Hpanel.
    by destruct (panelOp op w).
  - (* ExportCSV *)
    left. destruct (_ || _); [|done].
    unfold mbind, St_bind.
    pose proof (handleExportCSV_storage toISOString now w) as Hexport.
    destruct (handleExportCSV _ _ _) as [file w1]. cbn in *.
    unfold reportsOf, statusesOf. by rewrite Hexport.
Qed.

(** A stored report that went through the validator at a station. *)
Definition ReportOk (r : QCReport) : Prop :=
  canSubmit (rep_checkpoints r) = true ∧ is_Some (rep_stage r).

Lemma run_reports_from es st w :
  Authorized st →
  Forall ReportOk (reportsOf w) →
  reportsOf w `prefix_of` reportsOf (run toISOString es st w).2 ∧
  Forall ReportOk (reportsOf (run toISOString es st w).2).
Proof.
  revert st w. induction es as [|e es IH]; intros st w Hauth Hok; [done|].
  rewrite run_cons.
  pose proof (step_Authorized toISOString e st w Hauth) as Hauth'.
  destruct (step_records e st w) as [[Hreports _]|(clk & _ & Hstep & Hcan & Hstorage)].
  - destruct (IH _ (step toISOString e st w).2 Hauth') as [Hprefix Hall];
      rewrite Hreports in *; done.
  - assert (Hreports : reportsOf (step toISOString e st w).2 =
                       reportsOf w ++ [buildReport (at_id clk) (at_stamp clk) st]).
    { unfold reportsOf at 1. by rewrite Hstorage. }
    destruct (IH _ (step toISOString e st w).2 Hauth') as [Hprefix Hall].
    + rewrite Hreports. apply Forall_app. split; [done|].
      apply Forall_singleton. split; [done|]. cbn.
      unfold Authorized in Hauth. rewrite Hstep in Hauth.
      destruct Hauth as (u & s & _ & _ & _ & ->). by eexists.
    + split; [|done]. etrans; [|exact Hprefix].
      rewrite Hreports. by apply prefix_app_r.
Qed.

(** X7.  In every run of the workflow from the first screen in which each
    submission runs to its end before the next event, over a store whose
    reports are complete and carry a stage: the reports stored before the
    run are the first reports stored after it, in the same order, and every
    report stored after it is complete, in the sense of the validator, and
    carries a stage. *)
Theorem run_reports (es : list Event) (w : World) :
  Forall ReportOk (reportsOf w) →
  let w' := (run toISOString es initialApp w).2 in
  reportsOf w `prefix_of` reportsOf w' ∧ Forall ReportOk (reportsOf w').
Proof. intros Hok. by apply run_reports_from. Qed.

End Runs.

(** ** Device statuses only move forward *)

Lemma stageField_assignStage s stage v r :
  stageField s (assignStage stage v r) =
    if bool_decide (stage = Some s) then v else stageField s r.
Proof. by destruct stage as [[]|], s. Qed.

Lemma outcome_not_pending cps : outcome cps ≠ pending.
Proof. unfold outcome. by destruct (existsb _ _). Qed.

(** An update with a status other than pending keeps every record and
    takes no field of it back to pending. *)
Lemma updatedStatuses_keeps d stage v now l d' r :
  v ≠ pending →
  recordOf d' l = Some r →
  ∃ r', recordOf d' (updatedStatuses d stage v now l) = Some r' ∧
        ∀ s, stageField s r ≠ pending → stageField s r' ≠ pending.
Proof.
  intros Hv Hr. destruct (decide (d' = d)) as [->|Hne].
  - rewrite recordOf_updated, Hr. eexists. split; [reflexivity|].
    intros s Hs. rewrite stageField_assignLastUpdated, stageField_assignStage.
    by case_bool_decide.
  - rewrite recordOf_updated_other by done. eauto.
Qed.

Section Forward.
Variable toISOString : Z → string.

Lemma step_statuses_forward e st w d r :
  recordOf d (statusesOf w) = Some r →
  ∃ r', recordOf d (statusesOf (step toISOString e st w).2) = Some r' ∧
        ∀ s, stageField s r ≠ pending → stageField s r' ≠ pending.
Proof.
  intros Hr.
  destruct (step_records toISOString e st w)
    as [[_ Hstatuses]|(clk & _ & _ & _ & Hstorage)].
  - rewrite Hstatuses. eauto.
  - unfold statusesOf at 1. rewrite Hstorage. cbn.
    destruct (updatedStatuses_keeps (deviceId st) (selectedStage st) completed
                (at_save clk) (statusesOf w) d r) as (r1 & Hr1 & Hkeep1);
      [done..|].
    destruct (updatedStatuses_keeps (deviceId st) (selectedStage st)
                (outcome (checkpoints st)) (at_update clk)
                (updatedStatuses (deviceId st) (selectedStage st) completed
                   (at_save clk) (statusesOf w)) d r1) as (r2 & Hr2 & Hkeep2);
      [apply outcome_not_pending | done |].
    exists r2. split; [done|]. auto.
Qed.

Lemma step_statuses_NoDup e st w :
  NoDup (ds_deviceId <$> statusesOf w) →
  NoDup (ds_deviceId <$> statusesOf (step toISOString e st w).2).
Proof.
  intros Hnodup.
  destruct (step_records toISOString e st w)
    as [[_ Hstatuses]|(clk & _ & _ & _ & Hstorage)].
  - by rewrite Hstatuses.
  - unfold statusesOf at 1. rewrite Hstorage. cbn.
    by do 2 apply updatedStatuses_NoDup.
Qed.

(** X8.  Along every run of the workflow, from any session and over any
    store: a device that has a status record keeps one, and a stage of it
    that is completed or failed never goes back to pending.  If the device
    ids of the stored statuses are pairwise distinct before the run, they
    are after it. *)
Theorem run_statuses_forward
    (es : list Event) (st : AppState) (w : World) (d : string) (r : DeviceStatus) :
  recordOf d (statusesOf w) = Some r →
  let w' := (run toISOString es st w).2 in
  (∃ r', recordOf d (statusesOf w') = Some r' ∧
         ∀ s, stageField s r ≠ pending → stageField s r' ≠ pending) ∧
  (NoDup (ds_deviceId <$> statusesOf w) → NoDup (ds_deviceId <$> statusesOf w')).
Proof.
  cbv zeta. revert st w r. induction es as [|e es IH]; intros st w r Hr.
  - split; [eauto | done].
  - rewrite run_cons.
    destruct (step_statuses_forward e st w d r Hr) as (r1 & Hr1 & Hkeep1).
    destruct (IH (step toISOString e st w).1 (step toISOString e st w).2 r1 Hr1)
      as [(r2 & Hr2 & Hkeep2) Hnodup].
    split.
    + exists r2. split; [done|]. auto.
    + intros Hbefore. apply Hnodup. by apply step_statuses_NoDup.
Qed.

End Forward.

(** * Edges of a submission *)

Lemma finalSubmitTimeout_run p nowSave nowUpdate st w :
  finalSubmitTimeout p nowSave nowUpdate st w =
    (setCurrentStep (setIsSubmitting st false) SUCCESS,
     (updateDeviceStatus (ps_deviceId p) (ps_selectedStage p)
        (outcome (rep_checkpoints (ps_report p))) nowUpdate
        (saveReport (ps_report p) nowSave w).2).2).
Proof.
  unfold finalSubmitTimeout. unfold mbind at 1 2, St_bind.
  destruct (saveReport _ _ _) as [[] w1]. by destruct (updateDeviceStatus _ _ _ _ _) as [[] w2].
Qed.

Lemma updateDeviceStatus_reports d stage v now w :
  reportsOf (updateDeviceStatus d stage v now w).2 = reportsOf w.
Proof. by rewrite updateDeviceStatus_run. Qed.

(** X9.  Logging out between the click on the submit button and the timer
    of the submission: the callback still stores the report and the device
    status, the store being the one that the submission leaves without the
    logout, with the outcome of the checklist recorded for the device at
    the stage of the click; and it puts the session, which has no user and
    no stage by then, on the success screen.  The next-device button then
    leads to a device screen without a user, from which every serial
    number that is not blank is let through to a checklist, whatever the
    store holds. *)
Theorem logout_during_submission
    (nowId nowStamp nowSave nowUpdate : Z) (st : AppState) (w : World) :
  canSubmit (checkpoints st) = true →
  ∃ p,
    handleFinalSubmit nowId nowStamp st w = ((setIsSubmitting st true, Some p), w) ∧
    let late := finalSubmitTimeout p nowSave nowUpdate
                  (logout (setIsSubmitting st true)) w in
    currentStep late.1 = SUCCESS ∧
    currentUser late.1 = None ∧ selectedStage late.1 = None ∧
    late.2 = (submit (mkClock nowId nowStamp nowSave nowUpdate) st w).2 ∧
    reportsOf late.2 = reportsOf w ++ [buildReport nowId nowStamp st] ∧
    (∃ r, (getDeviceStatus (deviceId st) late.2).1 = Some r ∧
          ds_deviceId r = deviceId st ∧ ds_lastUpdated r = nowUpdate ∧
          ∀ s, selectedStage st = Some s →
               stageField s r = outcome (checkpoints st)) ∧
    let next := resetApp late.1 in
    currentStep next = DEVICE_ID_ENTRY ∧ currentUser next = None ∧
    ¬ Authorized next ∧
    ∀ value w2,
      upperCaseInRange value = true →
      trim (toUpperCase value) ≠ "" →
      handleDeviceSubmit (serialNumberInput_onChange value next) w2
        = (entered (serialNumberInput_onChange value next), w2) ∧
      currentStep (entered (serialNumberInput_onChange value next)) = CHECKLIST.
Proof.
  intros Hok. eexists. split.
  { unfold handleFinalSubmit. rewrite Hok. reflexivity. }
  cbv zeta. rewrite finalSubmitTimeout_run. cbn [fst snd].
  assert (Hstore :
    (updateDeviceStatus (deviceId st) (selectedStage st) (outcome (checkpoints st))
       nowUpdate (saveReport (buildReport nowId nowStamp st) nowSave w).2).2
    = (submit (mkClock nowId nowStamp nowSave nowUpdate) st w).2).
  { unfold submit, handleFinalSubmit. rewrite Hok. cbn [negb].
    unfold mbind at 1, St_bind, mret, St_ret. cbn [at_id at_stamp at_save at_update].
    by rewrite finalSubmitTimeout_run. }
  split_and!.
  - reflexivity.
  - reflexivity.
  - reflexivity.
  - exact Hstore.
  - rewrite updateDeviceStatus_reports, saveReport_run. reflexivity.
  - cbn [ps_deviceId ps_selectedStage ps_report rep_checkpoints buildReport].
    rewrite Hstore, (submit_accepted _ _ _ Hok). cbn [snd].
    rewrite getDeviceStatus_run, statusesOf_submitted.
    cbn [fst at_update at_save]. eexists. split; [apply recordOf_updated|].
    split_and!.
    + eapply recordOf_deviceId. apply recordOf_updated.
    + by rewrite recordOf_updated.
    + intros s ->.
      by rewrite recordOf_updated, stageField_assignLastUpdated, stageField_assign.
  - reflexivity.
  - reflexivity.
  - unfold Authorized. cbn [currentStep resetApp setCurrentStep].
    intros (u & s & Hu & _). discriminate Hu.
  - intros value w2 _ Htrim. split; [|reflexivity].
    unfold handleDeviceSubmit.
    change (deviceId (serialNumberInput_onChange value _)) with (toUpperCase value).
    unfold truthy. rewrite (bool_decide_false _ Htrim). cbn [negb].
    reflexivity.
Qed.

(** X10.  The Packaging gate follows the latest FQC report of a device:
    after an accepted FQC submission for a device id that is not blank, a
    manual entry of that id at the Packaging station is let through when
    every checkpoint of the report was a pass, and refused when one was a
    fail, whatever the store held before. *)
Theorem packaging_gate_follows_fqc_report
    (clk : SubmitClock) (st st2 : AppState) (w : World) :
  selectedStage st = Some FQC →
  canSubmit (checkpoints st) = true →
  trim (deviceId st) ≠ "" →
  selectedStage st2 = Some Packaging →
  deviceId st2 = deviceId st →
  let w' := (submit clk st w).2 in
  (Forall (λ cp, cp_status cp = Some Pass) (checkpoints st) →
     handleDeviceSubmit st2 w' = (entered st2, w')) ∧
  (Exists (λ cp, cp_status cp = Some Fail) (checkpoints st) →
     handleDeviceSubmit st2 w' = (setError st2 MSG_FQC_FIRST, w')).
Proof.
  intros Hstage Hok Htrim Hstage2 Hd2. cbv zeta.
  rewrite (submit_accepted _ _ _ Hok). cbn [snd].
  set (w' := {| storage := _; trace := _ |}).
  assert (Hrec : ∃ r, recordOf (deviceId st) (statusesOf w') = Some r ∧
                      ds_fqcStatus r = outcome (checkpoints st)).
  { subst w'. rewrite statusesOf_submitted, Hstage, !recordOf_updated.
    eexists. split; [reflexivity|].
    change (stageField FQC
              (assignLastUpdated (at_update clk)
                 (assignStage (Some FQC) (outcome (checkpoints st))
                    match recordOf (deviceId st) (statusesOf w) with
                    | Some old => assignLastUpdated (at_save clk)
                                    (assignStage (Some FQC) completed old)
                    | None => assignStage (Some FQC) completed
                                (mkDeviceStatus (deviceId st) pending pending (at_save clk))
                    end)) = outcome (checkpoints st)).
    by rewrite stageField_assignLastUpdated, stageField_assign. }
  destruct Hrec as (r & Hr & Hfqc).
  assert (Hrun : handleDeviceSubmit st2 w' =
            if bool_decide (outcome (checkpoints st) = completed)
            then (entered st2, w') else (setError st2 MSG_FQC_FIRST, w')).
  { unfold handleDeviceSubmit, entered. rewrite Hd2, Hstage2.
    unfold truthy. rewrite (bool_decide_false _ Htrim). cbn [negb].
    rewrite bool_decide_true by done.
    unfold mbind, St_bind. rewrite getDeviceStatus_run, Hr, Hfqc.
    by case_bool_decide. }
  rewrite Hrun. split.
  - intros Hall. by rewrite (outcome_completed _ Hall).
  - intros Hex. by rewrite (outcome_failed _ Hex).
Qed.

(** * Editing the checklist *)

Lemma handleCheckpointUpdate_checkpoints id updates st :
  checkpoints (handleCheckpointUpdate id updates st) =
    (λ cp, if bool_decide (cp_id cp = id) then applyPatch updates cp else cp)
      <$> checkpoints st.
Proof. reflexivity. Qed.

Lemma handleDeleteCheckpoint_checkpoints id st :
  checkpoints (handleDeleteCheckpoint id st) =
    filter (λ cp, cp_id cp ≠ id) (checkpoints st).
Proof. unfold handleDeleteCheckpoint. by destruct (bool_decide _). Qed.

Lemma filter_all {A} (P : A → Prop) `{∀ x, Decision (P x)} (l : list A) :
  Forall P l → filter P l = l.
Proof.
  induction 1 as [|x l Hx _ IH]; [done|].
  rewrite filter_cons_True by done. by rewrite IH.
Qed.

(** The operator deletes every checkpoint of the checklist, one by one. *)
Definition deleteAll (st : AppState) : AppState :=
  foldr (λ cp acc, handleDeleteCheckpoint (cp_id cp) acc) st (checkpoints st).

Lemma deletes_session l st :
  let st' := foldr (λ cp acc, handleDeleteCheckpoint (cp_id cp) acc) st l in
  selectedStage st' = selectedStage st ∧ deviceId st' = deviceId st ∧
  currentUser st' = currentUser st ∧ currentStep st' = currentStep st ∧
  checkpoints st' = filter (λ cp, cp_id cp ∉ cp_id <$> l) (checkpoints st).
Proof.
  cbv zeta. induction l as [|x l IH]; cbn [foldr].
  - split_and!; try done. symmetry. apply filter_all.
    apply Forall_forall. intros cp _. apply not_elem_of_nil.
  - destruct IH as (Hstage & Hd & Hu & Hstep & Hcps).
    assert (Hframe : ∀ id s,
              selectedStage (handleDeleteCheckpoint id s) = selectedStage s ∧
              deviceId (handleDeleteCheckpoint id s) = deviceId s ∧
              currentUser (handleDeleteCheckpoint id s) = currentUser s ∧
              currentStep (handleDeleteCheckpoint id s) = currentStep s).
    { intros id s. unfold handleDeleteCheckpoint. by destruct (bool_decide _). }
    destruct (Hframe (cp_id x)
                (foldr (λ cp acc, handleDeleteCheckpoint (cp_id cp) acc) st l))
      as (-> & -> & -> & ->).
    split_and!; try done.
    rewrite handleDeleteCheckpoint_checkpoints, Hcps, list_filter_filter.
    apply list_filter_iff. intros cp. rewrite fmap_cons, not_elem_of_cons. tauto.
Qed.

Lemma deleteAll_checkpoints st : checkpoints (deleteAll st) = [].
Proof.
  unfold deleteAll.
  destruct (deletes_session (checkpoints st) st) as (_ & _ & _ & _ & ->).
  apply elem_of_nil_inv. intros cp [Hnot Hin]%list_elem_of_filter.
  apply Hnot. apply list_elem_of_fmap. by exists cp.
Qed.

(** X11.  Every checkpoint can be deleted, and the empty checklist is
    accepted: an operator who deletes all checkpoints and submits stores a
    report without checkpoints, and the stage of the device is recorded as
    completed. *)
Theorem empty_checklist_is_accepted
    (clk : SubmitClock) (st : AppState) (w : World) (s : StageName) :
  selectedStage st = Some s →
  let st0 := deleteAll st in
  let w' := (submit clk st0 w).2 in
  checkpoints st0 = [] ∧
  canSubmit (checkpoints st0) = true ∧
  (∃ r, reportsOf w' = reportsOf w ++ [r] ∧ rep_checkpoints r = [] ∧
        rep_deviceId r = deviceId st ∧ rep_stage r = Some s) ∧
  (∃ rec, (getDeviceStatus (deviceId st) w').1 = Some rec ∧
          stageField s rec = completed).
Proof.
  intros Hstage. cbv zeta.
  pose proof (deleteAll_checkpoints st) as Hnil.
  destruct (deletes_session (checkpoints st) st) as (Hs & Hd & _ & _ & _).
  fold (deleteAll st) in Hs, Hd.
  assert (Hok : canSubmit (checkpoints (deleteAll st)) = true) by by rewrite Hnil.
  rewrite (submit_accepted _ _ _ Hok). cbn [snd].
  split_and!; [done | done | |].
  - eexists. split; [reflexivity|]. cbn. by rewrite Hnil, Hd, Hs.
  - rewrite getDeviceStatus_run, statusesOf_submitted. cbn [fst].
    rewrite Hd, Hs, Hstage, Hnil, !recordOf_updated.
    eexists. split; [reflexivity|].
    by rewrite stageField_assignLastUpdated, stageField_assign.
Qed.

Lemma empty_checklist_is_accepted_witness :
  let st := sessionAt Packaging "D7" (freshChecklist (Some Packaging)) in
  ∃ rec, (getDeviceStatus "D7" (submit sampleClock (deleteAll st) emptyWorld).2).1
           = Some rec ∧
         ds_packagingStatus rec = completed.
Proof.
  destruct (empty_checklist_is_accepted sampleClock
              (sessionAt Packaging "D7" (freshChecklist (Some Packaging)))
              emptyWorld Packaging eq_refl) as (_ & _ & _ & rec & Hrec & Hdone).
  exists rec. split; [exact Hrec | exact Hdone].
Defined.

(** The patch of a pass with its photo. *)
Definition passPatch (image : string) : CheckpointPatch :=
  mkPatch None (Some (Some Pass)) (Some (Some image)) None.

Lemma applyPatch_twice updates cp :
  applyPatch updates (applyPatch updates cp) = applyPatch updates cp.
Proof.
  unfold applyPatch. cbn.
  by destruct (p_label updates), (p_status updates), (p_image updates),
    (p_reason updates).
Qed.

Lemma updates_checkpoints updates l st :
  checkpoints (foldr (λ cp acc, handleCheckpointUpdate (cp_id cp) updates acc) st l) =
    (λ cp, if bool_decide (cp_id cp ∈ cp_id <$> l) then applyPatch updates cp else cp)
      <$> checkpoints st.
Proof.
  induction l as [|x l IH]; cbn [foldr].
  - rewrite <- (list_fmap_id (checkpoints st)) at 1.
    apply list_fmap_ext. intros i cp _. cbn.
    rewrite bool_decide_false; [done|]. apply not_elem_of_nil.
  - rewrite handleCheckpointUpdate_checkpoints, IH, <- list_fmap_compose.
    apply list_fmap_ext. intros i cp _. cbn [compose]. rewrite fmap_cons.
    assert (Hid : ∀ c, cp_id (applyPatch updates c) = cp_id c) by done.
    destruct (decide (cp_id cp = cp_id x)) as [Heq|Hne].
    + rewrite (bool_decide_true (cp_id cp ∈ _ :: _))
        by (rewrite Heq; apply list_elem_of_here).
      destruct (bool_decide (cp_id cp ∈ cp_id <$> l)).
      * rewrite Hid, bool_decide_true by done. apply applyPatch_twice.
      * by rewrite bool_decide_true.
    + assert (Hiff : cp_id cp ∈ cp_id x :: (cp_id <$> l) ↔ cp_id cp ∈ cp_id <$> l).
      { rewrite elem_of_cons. tauto. }
      rewrite (bool_decide_ext _ _ Hiff).
      destruct (bool_decide (cp_id cp ∈ cp_id <$> l)).
      * by rewrite Hid, bool_decide_false.
      * by rewrite bool_decide_false.
Qed.

(** X12.  Whatever the checklist holds (template, added, renamed or
    relabelled checkpoints, ids that repeat), marking each of its
    checkpoints as a pass with a photo makes it acceptable to the
    validator, and changes neither the number of checkpoints nor their ids
    and labels. *)
Theorem passAll_can_submit (st : AppState) :
  canSubmit (checkpoints (passAll st)) = true ∧
  cp_id <$> checkpoints (passAll st) = cp_id <$> checkpoints st ∧
  cp_label <$> checkpoints (passAll st) = cp_label <$> checkpoints st ∧
  outcome (checkpoints (passAll st)) = completed.
Proof.
  unfold passAll. rewrite updates_checkpoints.
  set (patch := mkPatch None _ _ None).
  assert (Hall : ∀ cp, cp ∈ checkpoints st →
            (if bool_decide (cp_id cp ∈ cp_id <$> checkpoints st)
             then applyPatch patch cp else cp) = applyPatch patch cp).
  { intros cp Hin. rewrite bool_decide_true; [done|].
    apply list_elem_of_fmap. by exists cp. }
  split_and!.
  - apply canSubmit_spec, Forall_fmap, Forall_forall. intros cp Hin. cbn.
    rewrite (Hall cp Hin). apply checkpointComplete_spec. reflexivity.
  - rewrite <- list_fmap_compose. apply list_fmap_ext. intros i cp Hcp. cbn.
    by destruct (bool_decide _).
  - rewrite <- list_fmap_compose. apply list_fmap_ext. intros i cp Hcp. cbn.
    by destruct (bool_decide _).
  - apply outcome_completed, Forall_fmap, Forall_forall. intros cp Hin. cbn.
    by rewrite (Hall cp Hin).
Qed.

(** * Ids derived from the clock *)

Definition templateIds : list string :=
  (fst <$> FQC_CHECKPOINTS) ++ (fst <$> PACKAGING_CHECKPOINTS).

Lemma customId_inj (n1 n2 : Z) :
  "custom_" +:+ pretty n1 = "custom_" +:+ pretty n2 ↔ n1 = n2.
Proof.
  split; [|by intros ->]. intros Heq%(inj (String.append "custom_")).
  by apply (inj pretty).
Qed.

Lemma customId_not_template (now : Z) : "custom_" +:+ pretty now ∉ templateIds.
Proof.
  assert (Hall : Forall (λ t, "custom_" +:+ pretty now ≠ t) templateIds).
  { unfold templateIds. cbn. repeat constructor; discriminate. }
  rewrite Forall_forall in Hall. intros Hin. by apply (Hall _ Hin).
Qed.

(** X13.  The id of an added checkpoint comes from the clock.  The
    checkpoint is put last and unset, so the checklist cannot be submitted
    until it is judged or deleted.  Its id is never the id of a template
    checkpoint, and two added checkpoints share their id exactly when they
    were added at the same clock reading; then an update of the one is an
    update of the other, and deleting the one deletes both. *)
Theorem added_checkpoint_ids (now1 now2 : Z) (st : AppState) :
  let st1 := handleAddCheckpoint now1 st in
  let st2 := handleAddCheckpoint now2 st1 in
  ∃ c1 c2,
    checkpoints st1 = checkpoints st ++ [c1] ∧
    checkpoints st2 = checkpoints st ++ [c1; c2] ∧
    canSubmit (checkpoints st1) = false ∧
    (cp_id c1 ∉ templateIds) ∧
    (cp_id c1 = cp_id c2 ↔ now1 = now2) ∧
    (now1 = now2 →
     (∀ updates,
        checkpoints (handleCheckpointUpdate (cp_id c2) updates st2) =
          checkpoints (handleCheckpointUpdate (cp_id c2) updates st)
            ++ [applyPatch updates c1; applyPatch updates c2]) ∧
     checkpoints (handleDeleteCheckpoint (cp_id c2) st2) =
       checkpoints (handleDeleteCheckpoint (cp_id c2) st)).
Proof.
  cbv zeta. eexists _, _. split; [reflexivity|]. split.
  { cbn. by rewrite <- app_assoc. }
  split_and!.
  - unfold canSubmit. cbn [checkpoints handleAddCheckpoint setEditingId setCheckpoints].
    rewrite forallb_app. cbn. apply andb_false_r.
  - apply customId_not_template.
  - apply customId_inj.
  - intros ->. split.
    + intros updates. rewrite !handleCheckpointUpdate_checkpoints.
      cbn [checkpoints handleAddCheckpoint setEditingId setCheckpoints].
      rewrite <- app_assoc, fmap_app. f_equal. cbn [fmap list_fmap app cp_id].
      by rewrite bool_decide_true.
    + rewrite !handleDeleteCheckpoint_checkpoints.
      cbn [checkpoints handleAddCheckpoint setEditingId setCheckpoints].
      rewrite <- app_assoc, filter_app.
      rewrite <- (app_nil_r (filter _ (checkpoints st))) at 2. f_equal.
      cbn [app]. rewrite filter_cons_False by (cbn; tauto).
      by rewrite filter_cons_False by (cbn; tauto).
Qed.

(** X14.  The id of a report comes from the clock alone: two reports, of
    whatever sessions, have the same id exactly when they were built at the
    same clock reading. *)
Theorem report_id_from_clock (n1 s1 n2 s2 : Z) (st1 st2 : AppState) :
  rep_id (buildReport n1 s1 st1) = rep_id (buildReport n2 s2 st2) ↔ n1 = n2.
Proof.
  cbn [rep_id buildReport]. split; [|by intros ->].
  intros Heq%(inj (String.append "REP-")). by apply (inj pretty).
Qed.

(** * The counters of the dashboard ([renderDashboard]) *)

(** The counters are JavaScript numbers; the counts of a store are natural
    numbers far below 2^53, on which those are exact. *)
Definition fqcCount (reports : list QCReport) : nat :=
  length (filter (λ r, rep_stage r = Some FQC) reports).

Definition packagingCount (reports : list QCReport) : nat :=
  length (filter (λ r, rep_stage r = Some Packaging) reports).

Definition passCount (reports : list QCReport) : nat :=
  foldl (λ count report,
           count + length (filter (λ cp, cp_status cp = Some Pass)
                             (rep_checkpoints report)))%nat
    0%nat reports.

Definition failCount (reports : list QCReport) : nat :=
  foldl (λ count report,
           count + length (filter (λ cp, cp_status cp = Some Fail)
                             (rep_checkpoints report)))%nat
    0%nat reports.

(** The checkpoints of a list that carry a status. *)
Definition statusCount (s : CheckStatus) (cps : list CheckpointResult) : nat :=
  length (filter (λ cp, cp_status cp = Some s) cps).

Lemma foldl_count {A} (g : A → nat) (l : list A) (a : nat) :
  foldl (λ count x, count + g x)%nat a l = (a + sum_list_with g l)%nat.
Proof.
  revert a. induction l as [|x l IH]; intros a; cbn; [lia|]. rewrite IH. lia.
Qed.

Lemma passCount_sum reports :
  passCount reports = sum_list_with (λ r, statusCount Pass (rep_checkpoints r)) reports.
Proof. unfold passCount. by rewrite (foldl_count (λ r, statusCount Pass (rep_checkpoints r))). Qed.

Lemma failCount_sum reports :
  failCount reports = sum_list_with (λ r, statusCount Fail (rep_checkpoints r)) reports.
Proof. unfold failCount. by rewrite (foldl_count (λ r, statusCount Fail (rep_checkpoints r))). Qed.

Lemma canSubmit_statuses cps :
  canSubmit cps = true →
  (statusCount Pass cps + statusCount Fail cps = length cps)%nat.
Proof.
  intros Hok%canSubmit_spec. unfold statusCount.
  induction Hok as [|cp cps (Hstatus & _ & _) _ IH]; [done|].
  rewrite !filter_cons. cbn [length].
  destruct (cp_status cp) as [[]|] eqn:Hcp; [| |done].
  - rewrite decide_True, decide_False by done. cbn [length]. lia.
  - rewrite decide_False, decide_True by done. cbn [length]. lia.
Qed.

Lemma outcome_statusCount cps :
  outcome cps = if bool_decide (statusCount Fail cps = 0%nat) then completed else failed.
Proof.
  unfold outcome, statusCount. induction cps as [|cp cps IH]; [done|].
  cbn [existsb]. rewrite filter_cons.
  destruct (decide (cp_status cp = Some Fail)) as [Hfail|Hfail].
  - by rewrite bool_decide_true by done.
  - rewrite (bool_decide_false _ Hfail). cbn [orb]. exact IH.
Qed.

(** X15.  The stage counters.  Each report counts for at most one stage,
    and the two counters add up to the number of reports when every report
    carries a stage.  An accepted submission raises the counter of its
    stage by one and leaves the other; a refused one leaves both. *)
Theorem dashboard_stage_counters :
  (∀ reports,
     (fqcCount reports + packagingCount reports ≤ length reports)%nat ∧
     (Forall (λ r, is_Some (rep_stage r)) reports →
      (fqcCount reports + packagingCount reports = length reports)%nat)) ∧
  (∀ clk st w,
     let before := reportsOf w in
     let after := reportsOf (submit clk st w).2 in
     if canSubmit (checkpoints st) then
       fqcCount after
         = (fqcCount before + if bool_decide (selectedStage st = Some FQC)
                              then 1 else 0)%nat ∧
       packagingCount after
         = (packagingCount before + if bool_decide (selectedStage st = Some Packaging)
                                    then 1 else 0)%nat
     else fqcCount after = fqcCount before ∧
          packagingCount after = packagingCount before).
Proof.
  split.
  - intros reports. unfold fqcCount, packagingCount.
    induction reports as [|r reports [IHle IHeq]]; [done|].
    rewrite !filter_cons, Forall_cons. cbn [length].
    destruct (rep_stage r) as [[]|] eqn:Hr.
    + rewrite decide_True, decide_False by done. cbn [length].
      split; [lia|]. intros [_ Hall]. specialize (IHeq Hall). lia.
    + rewrite decide_False, decide_True by done. cbn [length].
      split; [lia|]. intros [_ Hall]. specialize (IHeq Hall). lia.
    + rewrite !decide_False by done. split; [lia|]. by intros [[? ?] _].
  - intros clk st w. cbv zeta.
    destruct (canSubmit (checkpoints st)) eqn:Hok.
    + rewrite (submit_accepted _ _ _ Hok). cbn [snd].
      unfold reportsOf at 1 3. cbn [storage submittedStorage flex_qc_reports].
      unfold fqcCount, packagingCount. cbn [default from_option id].
      rewrite !filter_app, !length_app, !filter_cons, !filter_nil.
      cbn [rep_stage buildReport].
      split; repeat case_decide; repeat case_bool_decide; cbn [length]; congruence.
    + by rewrite (submit_refused _ _ _ Hok).
Qed.

(** X16.  The pass and fail counters.  Over complete reports they add up
    to the number of checkpoints of all reports.  An accepted submission
    adds to them the number of passes and the number of fails of the
    checklist; its outcome is failed exactly when it raises the fail
    counter; and when a stage is selected, the status that the store then
    holds for the device at that stage is failed exactly when the
    submission raised the fail counter. *)
Theorem dashboard_pass_fail_counters :
  (∀ reports,
     Forall (λ r, canSubmit (rep_checkpoints r) = true) reports →
     (passCount reports + failCount reports
      = sum_list_with (λ r, length (rep_checkpoints r)) reports)%nat) ∧
  (∀ clk st w,
     canSubmit (checkpoints st) = true →
     let before := reportsOf w in
     let after := reportsOf (submit clk st w).2 in
     passCount after = (passCount before + statusCount Pass (checkpoints st))%nat ∧
     failCount after = (failCount before + statusCount Fail (checkpoints st))%nat ∧
     (outcome (checkpoints st) = failed ↔ (failCount before < failCount after)%nat) ∧
     (∀ s, selectedStage st = Some s →
           ∃ r, (getDeviceStatus (deviceId st) (submit clk st w).2).1 = Some r ∧
                (stageField s r = failed ↔ (failCount before < failCount after)%nat))).
Proof.
  split.
  - intros reports Hall. rewrite passCount_sum, failCount_sum.
    induction Hall as [|r reports Hr _ IH]; [done|].
    cbn [sum_list_with]. pose proof (canSubmit_statuses _ Hr). lia.
  - intros clk st w Hok. cbv zeta.
    rewrite (submit_accepted _ _ _ Hok). cbn [snd].
    rewrite getDeviceStatus_run, statusesOf_submitted. cbn [fst].
    unfold submittedStorage.
    rewrite reportsOf_mk, !passCount_sum, !failCount_sum, !sum_list_with_app.
    cbn [sum_list_with rep_checkpoints buildReport].
    assert (Hfailed : outcome (checkpoints st) = failed ↔
                      (sum_list_with (λ r, statusCount Fail (rep_checkpoints r))
                         (reportsOf w) <
                       sum_list_with (λ r, statusCount Fail (rep_checkpoints r))
                         (reportsOf w) + (statusCount Fail (checkpoints st) + 0))%nat).
    { rewrite outcome_statusCount. case_bool_decide; split; intros; try done; lia. }
    split_and!; [lia | lia | exact Hfailed |].
    intros s Hs. eexists. split; [apply recordOf_updated|].
    rewrite Hs, recordOf_updated, stageField_assignLastUpdated, stageField_assign.
    exact Hfailed.
Qed.


(** * Objects used as counters ([failureCounts], [inspectorProductivity]) *)

Module JsObject.

(** The property names that an object literal inherits from
    [Object.prototype].  Reading one of them from a counter gives a
    function or an object, not a count. *)
Definition inherited : list string :=
  [ "constructor"; "hasOwnProperty"; "isPrototypeOf"; "propertyIsEnumerable";
    "toLocaleString"; "toString"; "valueOf"; "__defineGetter__";
    "__defineSetter__"; "__lookupGetter__"; "__lookupSetter__"; "__proto__" ].

(** The own properties of a counter, in the order of their creation. *)
Definition Counter := list (string * nat).

(** [o[k] = (o[k] || 0) + 1] for a key that is not inherited: the count of
    an own property goes up where the property stands, a new property is
    created last with the count 1. *)
Fixpoint bump (k : string) (o : Counter) : Counter :=
  match o with
  | [] => [(k, 1%nat)]
  | (k', n) :: o' =>
      if bool_decide (k' = k) then (k', S n) :: o' else (k', n) :: bump k o'
  end.

(** The same for any key: [None] when the key is inherited, the value
    stored then being a text, outside of what the counters model. *)
Definition increment (k : string) (o : option Counter) : option Counter :=
  match o with
  | Some c => if bool_decide (k ∈ inherited) then None else Some (bump k c)
  | None => None
  end.

Definition isDigit (c : ascii) : bool :=
  let n := nat_of_ascii c in bool_decide (48 ≤ n ≤ 57)%nat.

Fixpoint digitsValue (acc : N) (s : string) : N :=
  match s with
  | EmptyString => acc
  | String c s' => digitsValue (10 * acc + (N.of_nat (nat_of_ascii c) - 48))%N s'
  end.

Fixpoint allDigits (s : string) : bool :=
  match s with
  | EmptyString => true
  | String c s' => isDigit c && allDigits s'
  end.

(** An array index: the canonical decimal text of an integer from 0 to
    2^32 - 2. *)
Definition arrayIndex (k : string) : option N :=
  match k with
  | EmptyString => None
  | String c rest =>
      if allDigits k
         && (negb (bool_decide (c = "0"%char)) || bool_decide (rest = ""))
         && (digitsValue 0 k <=? 4294967294)%N
      then Some (digitsValue 0 k) else None
  end.

(** Stable sorting by insertion: [Array.prototype.sort] is stable, and a
    stable sort has one result. *)
Section Sort.
Context {A : Type} (before : A → A → bool).

Fixpoint insertSorted (x : A) (l : list A) : list A :=
  match l with
  | [] => [x]
  | y :: l' => if before x y then x :: y :: l' else y :: insertSorted x l'
  end.

Definition stableSort (l : list A) : list A := foldr insertSorted [] l.
End Sort.

(** [Object.entries]: the array indices in ascending order, then the other
    keys in the order of their creation. *)
Definition entries (o : Counter) : list (string * nat) :=
  let indexed :=
    omap (λ kv, (λ i, (i, kv)) <$> arrayIndex kv.1) o in
  let others := filter (λ kv, arrayIndex kv.1 = None) o in
  (snd <$> stableSort (λ a b, (a.1 <=? b.1)%N) indexed) ++ others.

End JsObject.
Import JsObject.

(** [failureCounts]: the counter of the labels of the failed checkpoints. *)
Definition failureCounts (reports : list QCReport) : option Counter :=
  foldl (λ counts report,
           foldl (λ counts cp,
                    if bool_decide (cp_status cp = Some Fail)
                    then increment (cp_label cp) counts else counts)
             counts (rep_checkpoints report))
    (Some []) reports.

(** [sortedFailures]: the entries by falling count, the first five. *)
Definition sortedFailures (reports : list QCReport) : option (list (string * nat)) :=
  (λ counts, take 5 (stableSort (λ a b, (b.2 <=? a.2)%nat) (entries counts)))
    <$> failureCounts reports.

(** [inspectorProductivity] as the table shows it. *)
Definition inspectorProductivity (reports : list QCReport)
  : option (list (string * nat)) :=
  entries <$> foldl (λ counts report, increment (rep_userId report) counts)
                (Some []) reports.
(** ** Sorting and enumerating *)

Section SortFacts.
Context {A : Type} (before : A → A → bool).
Hypothesis before_total : ∀ x y, before x y = false → before y x = true.
Hypothesis before_trans : ∀ x y z, before x y = true → before y z = true → before x z = true.

Lemma insertSorted_perm x l : insertSorted before x l ≡ₚ x :: l.
Proof.
  induction l as [|y l IH]; cbn; [done|].
  destruct (before x y); [done|]. rewrite IH. apply Permutation_swap.
Qed.

Lemma stableSort_perm l : stableSort before l ≡ₚ l.
Proof.
  induction l as [|x l IH]; cbn; [done|].
  by rewrite insertSorted_perm, IH.
Qed.

Lemma insertSorted_sorted x l :
  StronglySorted (λ a b, before a b = true) l →
  StronglySorted (λ a b, before a b = true) (insertSorted before x l).
Proof.
  induction 1 as [|y l Hsorted IH Hall]; cbn; [repeat constructor|].
  destruct (before x y) eqn:Hxy.
  - constructor; [by constructor|]. constructor; [done|].
    eapply Forall_impl; [exact Hall|]. intros z Hyz. by eapply before_trans.
  - constructor; [done|].
    rewrite insertSorted_perm. constructor; [by apply before_total | done].
Qed.

Lemma stableSort_sorted l :
  StronglySorted (λ a b, before a b = true) (stableSort before l).
Proof.
  induction l as [|x l IH]; cbn; [constructor|]. by apply insertSorted_sorted.
Qed.
End SortFacts.

Lemma entries_perm (o : Counter) : entries o ≡ₚ o.
Proof.
  unfold entries. rewrite stableSort_perm.
  rewrite <- (filter_app_complement (λ kv : string * nat, is_Some (arrayIndex kv.1)) o) at 3.
  f_equiv.
  - induction o as [|kv o IH]; [done|].
    cbn [omap list_omap]. rewrite filter_cons.
    destruct (arrayIndex kv.1) as [i|] eqn:Hidx; cbn.
    + rewrite decide_True by by eexists. cbn in IH. by rewrite IH.
    + rewrite decide_False by by intros [? ?]. exact IH.
  - apply reflexive_eq, list_filter_iff. intros kv.
    rewrite <- eq_None_not_Some. done.
Qed.

(** ** What a counter holds *)

(** The count that a counter holds for a key, 0 for a key it has not. *)
Fixpoint held (k : string) (o : Counter) : nat :=
  match o with
  | [] => 0
  | (k', n) :: o' => if bool_decide (k' = k) then n else held k o'
  end.

(** How often a key occurs in a list of keys. *)
Definition occurrences (k : string) (ks : list string) : nat :=
  length (filter (λ k', k' = k) ks).

Lemma bump_keys k o :
  (bump k o).*1 = if bool_decide (k ∈ o.*1) then o.*1 else o.*1 ++ [k].
Proof.
  induction o as [|[k' n] o IH]; cbn [bump].
  - by rewrite bool_decide_false by apply not_elem_of_nil.
  - rewrite fmap_cons. cbn [fst].
    destruct (decide (k' = k)) as [->|Hne].
    + rewrite (bool_decide_true (k = k)) by done.
      by rewrite bool_decide_true by apply list_elem_of_here.
    + rewrite (bool_decide_false (k' = k)) by done.
      rewrite fmap_cons, IH. cbn [fst].
      assert (Hiff : k ∈ k' :: o.*1 ↔ k ∈ o.*1).
      { rewrite elem_of_cons. split; [intros [?|?]; [congruence|done] | auto]. }
      rewrite (bool_decide_ext _ _ Hiff).
      by destruct (bool_decide (k ∈ o.*1)).
Qed.

Ltac decide_keys :=
  repeat first
    [ rewrite bool_decide_true by congruence
    | rewrite bool_decide_false by congruence
    | progress cbn [held] ].

Lemma bump_held k k' o :
  held k' (bump k o) = if bool_decide (k' = k) then S (held k o) else held k' o.
Proof.
  induction o as [|[k0 n] o IH]; cbn [bump held].
  - destruct (decide (k' = k)) as [->|Hne]; by decide_keys.
  - destruct (decide (k0 = k)) as [->|Hne0];
      destruct (decide (k' = k)) as [->|Hne]; decide_keys; try done.
    + rewrite IH. by decide_keys.
    + destruct (decide (k0 = k')) as [->|Hne1]; decide_keys; [done|].
      rewrite IH. by decide_keys.
Qed.

Lemma bump_sum k o :
  sum_list_with snd (bump k o) = S (sum_list_with snd o).
Proof.
  induction o as [|[k' n] o IH]; cbn [bump]; [cbn; lia|].
  destruct (bool_decide (k' = k)); cbn; [lia|]. cbn in IH. rewrite IH. lia.
Qed.

Lemma held_elem_of k n o :
  NoDup (o.*1) → (k, n) ∈ o ↔ held k o = n ∧ k ∈ o.*1.
Proof.
  induction o as [|[k' n'] o IH]; cbn [held fmap list_fmap fst].
  - intros _. rewrite !elem_of_nil. tauto.
  - change (list_fmap _ _ fst o) with (o.*1).
    rewrite NoDup_cons. intros [Hnot Hnodup].
    rewrite !elem_of_cons, (IH Hnodup). case_bool_decide as Hk.
    + subst. split.
      * intros [Heq|[_ Hin]]; [|done]. simplify_eq. auto.
      * intros [-> _]. by left.
    + split.
      * intros [Heq|[? ?]]; [|auto]. simplify_eq.
      * intros [? [?|?]]; [congruence | auto].
Qed.

(** The counter after the keys [ks], from the empty counter. *)
Definition tally (ks : list string) : Counter := foldl (λ o k, bump k o) [] ks.

Lemma tally_snoc ks k : tally (ks ++ [k]) = bump k (tally ks).
Proof. unfold tally. by rewrite foldl_app. Qed.

Lemma tally_spec ks :
  NoDup ((tally ks).*1) ∧
  (∀ k, held k (tally ks) = occurrences k ks ∧ (k ∈ (tally ks).*1 ↔ k ∈ ks)) ∧
  sum_list_with snd (tally ks) = length ks.
Proof.
  induction ks as [|k ks (Hnodup & Hheld & Hsum)] using rev_ind.
  - split_and!; [constructor | | done]. intros k. cbn. by rewrite !elem_of_nil.
  - rewrite tally_snoc. split_and!.
    + rewrite bump_keys. case_bool_decide as Hin; [done|].
      apply NoDup_app. split_and!; [done | | apply NoDup_singleton].
      intros x Hx ->%list_elem_of_singleton. done.
    + intros k'. rewrite bump_held, bump_keys.
      destruct (Hheld k') as [Hh Hk']. destruct (Hheld k) as [Hhk Hkk].
      unfold occurrences in *. rewrite filter_app, length_app, filter_cons, filter_nil.
      split.
      * case_bool_decide as Heq.
        -- subst. rewrite decide_True by done. cbn [length]. lia.
        -- rewrite decide_False by congruence. cbn [length]. lia.
      * rewrite elem_of_app, list_elem_of_singleton.
        case_bool_decide as Hin.
        -- rewrite Hk'. split; [auto|]. intros [?| ->]; [done|]. by apply Hkk.
        -- rewrite elem_of_app, list_elem_of_singleton, Hk'. done.
    + rewrite bump_sum, length_app, Hsum. cbn. lia.
Qed.

Lemma increments_tally ks :
  foldl (λ o k, increment k o) (Some []) ks =
    if bool_decide (Forall (λ k, k ∉ inherited) ks) then Some (tally ks) else None.
Proof.
  induction ks as [|k ks IH] using rev_ind.
  - by rewrite bool_decide_true by constructor.
  - rewrite foldl_app, IH. cbn [foldl].
    assert (Hiff : Forall (λ k, k ∉ inherited) (ks ++ [k]) ↔
                   Forall (λ k, k ∉ inherited) ks ∧ k ∉ inherited).
    { by rewrite Forall_app, Forall_singleton. }
    rewrite (bool_decide_ext _ _ Hiff).
    case_bool_decide as Hks.
    + unfold increment. case_bool_decide as Hk.
      * rewrite bool_decide_false by tauto. done.
      * rewrite bool_decide_true by tauto. by rewrite tally_snoc.
    + rewrite bool_decide_false by tauto. done.
Qed.
(** ** The failures table and the productivity table *)

(** The labels of the failed checkpoints of the reports, in the order in
    which [failureCounts] meets them. *)
Definition failedLabels (reports : list QCReport) : list string :=
  concat ((λ r, cp_label <$> filter (λ cp, cp_status cp = Some Fail)
                                (rep_checkpoints r)) <$> reports).

(** How many failed checkpoints of the reports carry a label. *)
Definition failuresOf (label : string) (reports : list QCReport) : nat :=
  sum_list_with
    (λ r, length (filter (λ cp, cp_status cp = Some Fail ∧ cp_label cp = label)
                    (rep_checkpoints r)))
    reports.

Lemma occurrences_app k l1 l2 :
  occurrences k (l1 ++ l2) = (occurrences k l1 + occurrences k l2)%nat.
Proof. unfold occurrences. by rewrite filter_app, length_app. Qed.

Lemma occurrences_pos k ks : k ∈ ks ↔ (0 < occurrences k ks)%nat.
Proof.
  unfold occurrences. induction ks as [|k' ks IH].
  - rewrite elem_of_nil, filter_nil. cbn. lia.
  - rewrite elem_of_cons, filter_cons, IH.
    destruct (decide (k' = k)) as [->|Hne]; cbn [length]; [split; [lia|auto]|].
    split; [intros [?|?]; [congruence|done] | auto].
Qed.

Lemma failures_increments (acc : option Counter) reports :
  foldl (λ counts report,
           foldl (λ counts cp,
                    if bool_decide (cp_status cp = Some Fail)
                    then increment (cp_label cp) counts else counts)
             counts (rep_checkpoints report))
    acc reports =
  foldl (λ o k, increment k o) acc (failedLabels reports).
Proof.
  unfold failedLabels. revert acc.
  induction reports as [|r reports IH]; intros acc; [done|].
  cbn [foldl fmap list_fmap concat]. rewrite foldl_app, IH. f_equal.
  clear. revert acc.
  induction (rep_checkpoints r) as [|cp cps IH]; intros acc; [done|].
  cbn [foldl]. rewrite filter_cons.
  destruct (decide (cp_status cp = Some Fail)) as [Hfail|Hfail].
  - rewrite bool_decide_true by done. cbn [fmap list_fmap foldl]. apply IH.
  - rewrite bool_decide_false by done. apply IH.
Qed.

Lemma failureCounts_increments reports :
  failureCounts reports =
    foldl (λ o k, increment k o) (Some []) (failedLabels reports).
Proof. apply failures_increments. Qed.

Lemma occurrences_failedLabels label reports :
  occurrences label (failedLabels reports) = failuresOf label reports.
Proof.
  unfold failedLabels, failuresOf.
  induction reports as [|r reports IH]; [done|].
  cbn [fmap list_fmap concat sum_list_with]. rewrite occurrences_app, IH. f_equal.
  unfold occurrences. clear.
  induction (rep_checkpoints r) as [|cp cps IH]; [done|].
  rewrite !filter_cons.
  destruct (decide (cp_status cp = Some Fail)) as [Hfail|Hfail].
  - cbn [fmap list_fmap]. rewrite filter_cons.
    destruct (decide (cp_label cp = label)) as [Hl|Hl].
    + rewrite decide_True by done. cbn [length]. by rewrite <- IH.
    + rewrite decide_False by tauto. exact IH.
  - rewrite decide_False by tauto. exact IH.
Qed.

Lemma StronglySorted_weaken {A} (R R' : A → A → Prop) l :
  (∀ a b, R a b → R' a b) → StronglySorted R l → StronglySorted R' l.
Proof.
  intros Himpl. induction 1 as [|x l _ IH Hall]; constructor; [done|].
  eapply Forall_impl; eauto.
Qed.

(** The entries of a tally, whatever their order: distinct keys, each with
    the number of its occurrences. *)
Lemma tally_entries ks (l : list (string * nat)) :
  l ≡ₚ tally ks →
  NoDup l.*1 ∧
  (∀ k n, (k, n) ∈ l ↔ n = occurrences k ks ∧ (0 < n)%nat) ∧
  sum_list_with snd l = length ks.
Proof.
  intros Hperm. destruct (tally_spec ks) as (Hnodup & Hheld & Hsum).
  split_and!.
  - by rewrite Hperm.
  - intros k n. rewrite Hperm, (held_elem_of _ _ _ Hnodup).
    destruct (Hheld k) as [-> ->]. rewrite occurrences_pos. split.
    + intros [<- ?]. done.
    + intros [-> ?]. done.
  - by rewrite Hperm.
Qed.

(** X17.  The table of the top failures, when no failed checkpoint is
    labelled with a property name of [Object.prototype]: it has at most
    five rows, with falling counts and distinct labels; the count of a row
    is the number of failed checkpoints with that label in all reports, and
    is not zero; and a label with failures that has no row has no more
    failures than any row, the table then being full. *)
Theorem sortedFailures_top (reports : list QCReport) :
  Forall (λ label, label ∉ inherited) (failedLabels reports) →
  ∃ top,
    sortedFailures reports = Some top ∧
    (length top ≤ 5)%nat ∧
    StronglySorted (λ a b, (b.2 ≤ a.2)%nat) top ∧
    NoDup top.*1 ∧
    (∀ label n, (label, n) ∈ top →
                n = failuresOf label reports ∧ (0 < n)%nat) ∧
    (∀ label, (0 < failuresOf label reports)%nat → label ∉ top.*1 →
              length top = 5%nat ∧
              Forall (λ row, (failuresOf label reports ≤ row.2)%nat) top).
Proof.
  intros Hkeys. unfold sortedFailures.
  rewrite failureCounts_increments, increments_tally, bool_decide_true by done.
  cbn [fmap option_fmap option_map].
  pose proof (λ label, occurrences_failedLabels label reports) as Hocc.
  set (ks := failedLabels reports) in *.
  set (sorted := stableSort _ (entries (tally ks))).
  assert (Hperm : sorted ≡ₚ tally ks).
  { subst sorted. by rewrite stableSort_perm, entries_perm. }
  destruct (tally_entries ks sorted Hperm) as (Hnodup & Hmem & _).
  assert (Hsorted : StronglySorted (λ a b : string * nat, (b.2 ≤ a.2)%nat) sorted).
  { eapply StronglySorted_weaken;
      [|apply (stableSort_sorted (λ a b : string * nat, (b.2 <=? a.2)%nat))].
    - intros a b Hab. cbn in Hab. by apply Nat.leb_le.
    - intros x y Hxy. apply Nat.leb_gt in Hxy. apply Nat.leb_le. lia.
    - intros x y z Hxy%Nat.leb_le Hyz%Nat.leb_le. apply Nat.leb_le. lia. }
  pose proof (take_drop 5 sorted) as Hsplit.
  eexists. split; [reflexivity|]. split_and!.
  - rewrite length_take. lia.
  - rewrite <- Hsplit in Hsorted. by eapply StronglySorted_app_1_l.
  - rewrite <- Hsplit, fmap_app in Hnodup. by apply NoDup_app in Hnodup as [? _].
  - intros label n Hin.
    assert (Hin' : (label, n) ∈ sorted).
    { rewrite <- Hsplit. apply elem_of_app. by left. }
    apply Hmem in Hin' as [-> Hpos]. by rewrite Hocc in *.
  - intros label Hpos Hnot. rewrite <- Hocc in *.
    assert (Hin : (label, occurrences label ks) ∈ sorted) by by apply Hmem.
    rewrite <- Hsplit in Hin. apply elem_of_app in Hin as [Hin|Hin].
    { exfalso. apply Hnot. apply list_elem_of_fmap. by exists (label, occurrences label ks). }
    split.
    + rewrite length_take.
      destruct (decide (length sorted ≤ 5)%nat) as [Hle|Hgt]; [|lia].
      rewrite drop_ge in Hin by done. by apply elem_of_nil in Hin.
    + apply Forall_forall. intros row Hrow.
      rewrite <- Hsplit in Hsorted.
      apply (StronglySorted_app_1_elem_of _ _ _ row _ Hsorted Hrow Hin).
Qed.

Lemma occurrences_userIds u reports :
  occurrences u (rep_userId <$> reports)
  = length (filter (λ r, rep_userId r = u) reports).
Proof.
  unfold occurrences. induction reports as [|r reports IH]; [done|].
  cbn [fmap list_fmap]. rewrite !filter_cons.
  destruct (decide (rep_userId r = u)); cbn [length]; by rewrite IH.
Qed.

(** X18.  The productivity table, when no report is signed with a property
    name of [Object.prototype]: it has one row for each user who has a
    report, the count of the row is the number of reports of that user, and
    the counts add up to the number of reports. *)
Theorem inspectorProductivity_counts (reports : list QCReport) :
  Forall (λ r, rep_userId r ∉ inherited) reports →
  ∃ rows,
    inspectorProductivity reports = Some rows ∧
    NoDup rows.*1 ∧
    (∀ u n, (u, n) ∈ rows ↔
            n = length (filter (λ r, rep_userId r = u) reports) ∧ (0 < n)%nat) ∧
    sum_list_with snd rows = length reports.
Proof.
  intros Hkeys. unfold inspectorProductivity.
  rewrite <- (foldl_fmap (λ o k, increment k o) (Some []) reports rep_userId).
  rewrite increments_tally, bool_decide_true by by apply Forall_fmap.
  cbn [fmap option_fmap option_map].
  destruct (tally_entries (rep_userId <$> reports)
              (entries (tally (rep_userId <$> reports))) (entries_perm _))
    as (Hnodup & Hmem & Hsum).
  eexists. split; [reflexivity|]. split_and!.
  - done.
  - intros u n. by rewrite Hmem, occurrences_userIds.
  - by rewrite Hsum, length_fmap.
Qed.

(** Two reports: one with two failures, one with a failure of a label that
    reads as an array index. *)
Definition sampleReports : list QCReport :=
  [ mkReport "REP-1" 1000 (Some Packaging) "op2" "D1"
      [ mkCheckpoint "pkg_07" "Seal" (Some Fail) (Some "photo") "torn";
        mkCheckpoint "pkg_01" "Label" (Some Pass) (Some "photo") "";
        mkCheckpoint "custom_1" "7" (Some Fail) (Some "photo") "dent" ];
    mkReport "REP-2" 2000 (Some Packaging) "op2" "D2"
      [ mkCheckpoint "pkg_07" "Seal" (Some Fail) (Some "photo") "open" ] ].

Lemma sortedFailures_top_witness :
  ∃ top, sortedFailures sampleReports = Some top ∧
         (length top ≤ 5)%nat ∧
         ∀ label n, (label, n) ∈ top → n = failuresOf label sampleReports.
Proof.
  destruct (sortedFailures_top sampleReports)
    as (top & Htop & Hlen & _ & _ & Hcount & _).
  { apply (bool_decide_unpack _). by vm_compute. }
  exists top. split; [exact Htop|]. split; [exact Hlen|].
  intros label n Hin. apply (Hcount label n Hin).
Defined.

Lemma inspectorProductivity_counts_witness :
  ∃ rows, inspectorProductivity sampleReports = Some rows ∧
          sum_list_with snd rows = 2%nat.
Proof.
  destruct (inspectorProductivity_counts sampleReports) as (rows & Hrows & _ & _ & Hsum).
  { apply (bool_decide_unpack _). by vm_compute. }
  exists rows. split; [exact Hrows | exact Hsum].
Defined.

(** * Sample runs *)

(** One shift at the FQC station: the operator picks the stage, logs in,
    types a serial number, passes every checkpoint of the template with a
    photo, and submits. *)
Definition fqcShift : list Event :=
  [StageSelect FQC; LoginSubmit "op1" "pw"; SerialInput "d1"; DeviceSubmit]
  ++ ((λ cp, CheckpointUpdate (cp_id cp) (passPatch "data:image/png;base64,AAAA"))
        <$> freshChecklist (Some FQC))
  ++ [FinalSubmit sampleClock; NextDevice].

(** The FQC station after two Packaging reports of an earlier shift. *)
Definition fqcStationWithReports : World :=
  {| storage := mkLocalStorage (Some [INITIAL_ADMIN_USER; operator FQC])
                  (Some sampleReports) None;
     trace := [] |}.

(** One shift at the Packaging station: the operator picks the stage, logs
    in, types the serial number of device D1, passes every checkpoint of
    the template with a photo, and submits. *)
Definition packagingShift : list Event :=
  [StageSelect Packaging; LoginSubmit "op1" "pw"; SerialInput "d1"; DeviceSubmit]
  ++ ((λ cp, CheckpointUpdate (cp_id cp) (passPatch "data:image/png;base64,AAAA"))
        <$> freshChecklist (Some Packaging))
  ++ [FinalSubmit sampleClock; NextDevice].

(** The Packaging station after device D1 passed FQC. *)
Definition packagingStationAfterFqc : World :=
  {| storage := mkLocalStorage (Some [INITIAL_ADMIN_USER; operator Packaging]) None
                  (Some [mkDeviceStatus "D1" completed pending 500]);
     trace := [] |}.

Lemma run_reports_witness :
  let w' := (run (λ z, pretty z) fqcShift initialApp fqcStationWithReports).2 in
  Forall ReportOk (reportsOf fqcStationWithReports) ∧
  reportsOf fqcStationWithReports `prefix_of` reportsOf w' ∧
  Forall ReportOk (reportsOf w') ∧
  length (reportsOf fqcStationWithReports) = 2%nat ∧ length (reportsOf w') = 3%nat.
Proof.
  assert (Hok : Forall ReportOk (reportsOf fqcStationWithReports)).
  { repeat constructor; by eexists. }
  split; [exact Hok|].
  destruct (run_reports (λ z, pretty z) fqcShift fqcStationWithReports Hok)
    as [Hprefix Hall].
  split; [exact Hprefix|]. split; [exact Hall|]. by vm_compute.
Defined.

(** The shift is let through the gate and its submission is stored: the
    record of D1 has Packaging completed at the clock reading of the
    submission, and FQC is completed as before. *)
Lemma run_statuses_forward_witness :
  let w' := (run (λ z, pretty z) packagingShift initialApp packagingStationAfterFqc).2 in
  recordOf "D1" (statusesOf packagingStationAfterFqc)
    = Some (mkDeviceStatus "D1" completed pending 500) ∧
  ∃ r', recordOf "D1" (statusesOf w') = Some r' ∧ ds_fqcStatus r' ≠ pending ∧
        ds_packagingStatus r' = completed ∧ ds_lastUpdated r' = 2501.
Proof.
  split; [reflexivity|].
  destruct (run_statuses_forward (λ z, pretty z) packagingShift initialApp
              packagingStationAfterFqc "D1"
              (mkDeviceStatus "D1" completed pending 500) eq_refl)
    as [(r' & Hr' & Hkeep) _].
  exists r'. split; [exact Hr'|]. split; [by apply (Hkeep FQC)|].
  vm_compute in Hr'. injection Hr' as Hr'. rewrite <- Hr'. by split.
Defined.

Lemma logout_during_submission_witness :
  let st := sessionAt FQC "D1" [checked Fail "scratched"] in
  ∃ p, handleFinalSubmit 1000 1000 st emptyWorld
         = ((setIsSubmitting st true, Some p), emptyWorld) ∧
       let late := finalSubmitTimeout p 2500 2501
                     (logout (setIsSubmitting st true)) emptyWorld in
       currentUser late.1 = None ∧
       ∃ r, (getDeviceStatus "D1" late.2).1 = Some r ∧ ds_fqcStatus r = failed.
Proof.
  destruct (logout_during_submission 1000 1000 2500 2501
              (sessionAt FQC "D1" [checked Fail "scratched"]) emptyWorld eq_refl)
    as (p & Hsubmit & _ & Huser & _ & _ & _ & (r & Hr & _ & _ & Hstage) & _).
  exists p. split; [exact Hsubmit|]. split; [exact Huser|].
  exists r. split; [exact Hr|]. exact (Hstage FQC eq_refl).
Defined.

Lemma packaging_gate_follows_fqc_report_witness :
  let st := sessionAt FQC "D1" [checked Fail "scratched"] in
  let st2 := atDeviceIdEntry Packaging "D1" in
  let w' := (submit sampleClock st emptyWorld).2 in
  handleDeviceSubmit st2 w' = (setError st2 MSG_FQC_FIRST, w').
Proof.
  apply (packaging_gate_follows_fqc_report sampleClock
           (sessionAt FQC "D1" [checked Fail "scratched"])
           (atDeviceIdEntry Packaging "D1") emptyWorld);
    [reflexivity | reflexivity | by vm_compute | reflexivity | reflexivity |].
  apply Exists_cons_hd. reflexivity.
Defined.

(** * Reading the export back *)

Lemma append_cons c (s t : string) : String c s +:+ t = String c (s +:+ t).
Proof. reflexivity. Qed.

Lemma append_assoc (s1 s2 s3 : string) : (s1 +:+ s2) +:+ s3 = s1 +:+ (s2 +:+ s3).
Proof. induction s1 as [|c s1 IH]; [done|]. by rewrite !append_cons, IH. Qed.

(** The text that [escape] puts between the quotes: [String(val || '')]. *)
Definition fieldText (val : option string) : string := default "" val.

Lemma escape_fieldText val rest :
  escape val +:+ rest
    = String dquote (doubleQuotes (fieldText val) +:+ String dquote rest).
Proof.
  unfold escape, fieldText.
  assert (Htext : match val with
                  | Some s => if truthy s then s else ""
                  | None => ""
                  end = default "" val).
  { destruct val as [[|c s]|]; reflexivity. }
  rewrite Htext. by rewrite !append_cons, append_assoc.
Qed.

(** A reader of what follows an opening quote: the text up to the closing
    quote, two quotes standing for one, and the text behind the closing
    quote. *)
Fixpoint readQuoted (s : string) : option (string * string) :=
  match s with
  | EmptyString => None
  | String c s' =>
      if bool_decide (c = dquote) then
        match s' with
        | String c2 s'' =>
            if bool_decide (c2 = dquote)
            then prod_map (String dquote) id <$> readQuoted s''
            else Some (EmptyString, s')
        | EmptyString => Some (EmptyString, EmptyString)
        end
      else prod_map (String c) id <$> readQuoted s'
  end.

(** The text behind a closing quote of the export: nothing, or a separator. *)
Definition noQuoteAhead (s : string) : Prop :=
  match s with
  | EmptyString => True
  | String c _ => c ≠ dquote
  end.

Lemma readQuoted_doubleQuotes text rest :
  noQuoteAhead rest →
  readQuoted (doubleQuotes text +:+ String dquote rest) = Some (text, rest).
Proof.
  intros Hrest. induction text as [|c text IH].
  - change (readQuoted (String dquote rest) = Some (EmptyString, rest)).
    cbn [readQuoted]. rewrite bool_decide_true by done.
    destruct rest as [|c2 rest]; [done|].
    cbn in Hrest. by rewrite bool_decide_false.
  - cbn [doubleQuotes]. destruct (decide (c = dquote)) as [->|Hc].
    + rewrite bool_decide_true by done. rewrite !append_cons.
      cbn [readQuoted]. rewrite !bool_decide_true by done.
      by rewrite IH.
    + rewrite bool_decide_false by done. rewrite append_cons.
      cbn [readQuoted]. rewrite bool_decide_false by done. by rewrite IH.
Qed.

(** Two escaped values followed by text that starts with no quote. *)
Lemma escape_inj v1 v2 rest1 rest2 :
  noQuoteAhead rest1 → noQuoteAhead rest2 →
  escape v1 +:+ rest1 = escape v2 +:+ rest2 →
  fieldText v1 = fieldText v2 ∧ rest1 = rest2.
Proof.
  intros H1 H2. rewrite !escape_fieldText. intros [= Heq].
  apply (f_equal readQuoted) in Heq.
  rewrite !readQuoted_doubleQuotes in Heq by done.
  by injection Heq.
Qed.

Lemma append_nil_r (s : string) : s +:+ "" = s.
Proof. induction s as [|c s IH]; [done|]. by rewrite append_cons, IH. Qed.

(** [join] of a list that is not empty: the first string, then each of the
    others behind the separator. *)
Lemma join_cons sep x l :
  join sep (x :: l) = x +:+ foldr (λ y acc, sep +:+ (y +:+ acc)) "" l.
Proof.
  revert x. induction l as [|y l IH]; intros x.
  - cbn. by rewrite append_nil_r.
  - change (join sep (x :: y :: l)) with (x +:+ (sep +:+ join sep (y :: l))).
    by rewrite IH.
Qed.

Section ReadingBack.
Variable toISOString : Z → string.

(** The rows of the file behind the line of the headers. *)
Definition rowsText (reports : list QCReport) : string :=
  foldr (λ y acc, newline +:+ (y +:+ acc)) "" (csvRow toISOString <$> reports).

Lemma csvContent_rowsText reports :
  csvContent toISOString reports = join "," headers +:+ rowsText reports.
Proof. unfold csvContent. by rewrite join_cons. Qed.

Lemma rowsText_noQuoteAhead reports : noQuoteAhead (rowsText reports).
Proof. by destruct reports. Qed.

(** Two reports with the same columns in the export. *)
Definition sameColumns (r1 r2 : QCReport) : Prop :=
  rep_id r1 = rep_id r2 ∧
  toISOString (rep_timestamp r1) = toISOString (rep_timestamp r2) ∧
  rep_stage r1 = rep_stage r2 ∧
  rep_userId r1 = rep_userId r2 ∧
  rep_deviceId r1 = rep_deviceId r2 ∧
  checkpointsSummary r1 = checkpointsSummary r2.

Lemma stageValue_inj s1 s2 :
  fieldText (stageValue s1) = fieldText (stageValue s2) → s1 = s2.
Proof. by destruct s1 as [[]|], s2 as [[]|]. Qed.

Lemma csvRow_inj r1 r2 rest1 rest2 :
  noQuoteAhead rest1 → noQuoteAhead rest2 →
  csvRow toISOString r1 +:+ rest1 = csvRow toISOString r2 +:+ rest2 →
  sameColumns r1 r2 ∧ rest1 = rest2.
Proof.
  intros H1 H2. unfold csvRow, rowValues. cbn [fmap list_fmap join].
  rewrite !append_assoc. intros Heq.
  apply escape_inj in Heq as [Hid Heq]; [|done..]. apply String.app_inj in Heq.
  apply escape_inj in Heq as [Htime Heq]; [|done..]. apply String.app_inj in Heq.
  apply escape_inj in Heq as [Hstage Heq]; [|done..]. apply String.app_inj in Heq.
  apply escape_inj in Heq as [Huser Heq]; [|done..]. apply String.app_inj in Heq.
  apply escape_inj in Heq as [Hdevice Heq]; [|done..]. apply String.app_inj in Heq.
  apply escape_inj in Heq as [Hsummary Heq]; [|done..].
  split; [|done]. unfold sameColumns. cbn [fieldText default] in *.
  split_and!; try done. by apply stageValue_inj.
Qed.

Lemma rowsText_inj rs1 rs2 :
  rowsText rs1 = rowsText rs2 → Forall2 sameColumns rs1 rs2.
Proof.
  revert rs2. induction rs1 as [|r1 rs1 IH]; intros [|r2 rs2] Heq.
  - constructor.
  - discriminate Heq.
  - discriminate Heq.
  - change (newline +:+ (csvRow toISOString r1 +:+ rowsText rs1) =
            newline +:+ (csvRow toISOString r2 +:+ rowsText rs2)) in Heq.
    apply String.app_inj in Heq.
    apply csvRow_inj in Heq as [Hsame Heq]; [|apply rowsText_noQuoteAhead..].
    constructor; [done|]. by apply IH.
Qed.

(** X19.  The file of the export can be read back.  Two stores whose
    exports have the same content hold the same number of reports, and
    report by report, in the stored order, the same id, timestamp, stage,
    user id, device id and checkpoint summary, whatever commas, quotes and
    line breaks these texts hold. *)
Theorem csvContent_determines_columns (reports1 reports2 : list QCReport) :
  csvContent toISOString reports1 = csvContent toISOString reports2 →
  Forall2 sameColumns reports1 reports2.
Proof.
  rewrite !csvContent_rowsText. intros Heq. apply String.app_inj in Heq.
  by apply rowsText_inj.
Qed.

End ReadingBack.
(** * The admin panel as a machine *)

(** [String.prototype.toLowerCase] on the code units below 256: the
    letters A to Z, and the letters from 192 to 222 but the sign 215. *)
Definition lowerChar (c : ascii) : ascii :=
  let n := nat_of_ascii c in
  if bool_decide (65 ≤ n ≤ 90)%nat || bool_decide (192 ≤ n ≤ 214)%nat
     || bool_decide (216 ≤ n ≤ 222)%nat
  then ascii_of_nat (n + 32) else c.

Fixpoint toLowerCase (s : string) : string :=
  match s with
  | EmptyString => EmptyString
  | String c s' => String (lowerChar c) (toLowerCase s')
  end.

(** [handleSearch], with the query and the stage of the search form. *)
Definition handleSearch (searchQuery : string) (searchStage : Stage) (a : State) : State :=
  if negb (truthy (trim searchQuery)) then
    {| users := users a; newUserId := newUserId a; newPassword := newPassword a;
       newStage := newStage a; editingUserId := editingUserId a;
       searchResult := None; hasSearched := false |}
  else
    let found :=
      list_find (λ u, toLowerCase (usr_userId u) = trim (toLowerCase searchQuery)
                      ∧ usr_assignedStage u = searchStage) (users a) in
    {| users := users a; newUserId := newUserId a; newPassword := newPassword a;
       newStage := newStage a; editingUserId := editingUserId a;
       searchResult := Some (snd <$> found); hasSearched := true |}.

Definition clearSearch (a : State) : State :=
  {| users := users a; newUserId := newUserId a; newPassword := newPassword a;
     newStage := newStage a; editingUserId := editingUserId a;
     searchResult := None; hasSearched := false |}.

(** The inputs of the form.  The input of the user id is disabled while a
    user is edited. *)
Definition setNewUserId (value : string) (a : State) : State :=
  {| users := users a; newUserId := value; newPassword := newPassword a;
     newStage := newStage a; editingUserId := editingUserId a;
     searchResult := searchResult a; hasSearched := hasSearched a |}.

Definition setNewPassword (value : string) (a : State) : State :=
  {| users := users a; newUserId := newUserId a; newPassword := value;
     newStage := newStage a; editingUserId := editingUserId a;
     searchResult := searchResult a; hasSearched := hasSearched a |}.

Definition setNewStage (stage : StageName) (a : State) : State :=
  {| users := users a; newUserId := newUserId a; newPassword := newPassword a;
     newStage := Some stage; editingUserId := editingUserId a;
     searchResult := searchResult a; hasSearched := hasSearched a |}.

(** What the administrator can do on the panel.  The buttons of a row and
    of the search result call their handler with the user of the row or of
    the result; here a handler is taken with any user and any id. *)
Inductive PanelEvent :=
| TypeUserId (value : string)
| TypePassword (value : string)
| PickStage (stage : StageName)
| SubmitForm
| EditUser (user : User)
| CancelEditing
| DeleteUser (userId : string) (confirmed : bool)
| ToggleUser (userId : string)
| Search (searchQuery : string) (searchStage : StageName)
| ClearSearch.

Definition panelStep (e : PanelEvent) (a : State) : St State :=
  match e with
  | TypeUserId value =>
      mret (match editingUserId a with
            | Some e => if truthy e then a else setNewUserId value a
            | None => setNewUserId value a
            end)
  | TypePassword value => mret (setNewPassword value a)
  | PickStage stage => mret (setNewStage stage a)
  | SubmitForm => handleSubmit a
  | EditUser user => mret (handleEdit user a)
  | CancelEditing => mret (cancelEdit a)
  | DeleteUser userId confirmed => deleteUser userId confirmed a
  | ToggleUser userId => toggleStatus userId a
  | Search searchQuery searchStage => mret (handleSearch searchQuery (Some searchStage) a)
  | ClearSearch => mret (clearSearch a)
  end.

Fixpoint panelRun (es : list PanelEvent) (a : State) : St State :=
  match es with
  | [] => mret a
  | e :: es => a' ← panelStep e a; panelRun es a'
  end.

Lemma panelRun_cons e es a w :
  panelRun (e :: es) a w = panelRun es (panelStep e a w).1 (panelStep e a w).2.
Proof.
  cbn [panelRun]. unfold mbind, St_bind. by destruct (panelStep e a w).
Qed.

(** ** The store and the panel *)

(** The users that the form leaves: a new operator at the end, or the
    edited one with the password and the stage of the form. *)
Definition submitted (a : State) : list User :=
  match editingUserId a with
  | Some e =>
      if truthy e then
        (λ u, if bool_decide (usr_userId u = e)
              then {| usr_userId := usr_userId u; usr_password := newPassword a;
                      usr_isAdmin := usr_isAdmin u; usr_isActive := usr_isActive u;
                      usr_assignedStage := newStage a |}
              else u) <$> users a
      else users a ++ [mkUser (newUserId a) (newPassword a) false true (newStage a)]
  | None => users a ++ [mkUser (newUserId a) (newPassword a) false true (newStage a)]
  end.

Definition toggled (userId : string) (l : list User) : list User :=
  (λ u, if bool_decide (usr_userId u = userId)
        then {| usr_userId := usr_userId u; usr_password := usr_password u;
                usr_isAdmin := usr_isAdmin u; usr_isActive := negb (usr_isActive u);
                usr_assignedStage := usr_assignedStage u |}
        else u) <$> l.

(** A step of the panel leaves the users and the store alone, or writes to
    the store the users it leaves on the panel, which are those of the
    form, those without a deleted operator, or those with an operator
    toggled; the last two never for the id admin. *)
Lemma panelStep_cases e a w :
  let r := panelStep e a w in
  (users r.1 = users a ∧ r.2 = w) ∨
  (usersOf r.2 = Some (users r.1) ∧
   ((e = SubmitForm ∧ users r.1 = submitted a ∧ hasSearched r.1 = false) ∨
    (∃ userId, userId ≠ "admin" ∧
       users r.1 = filter (λ u, usr_userId u ≠ userId) (users a) ∧
       hasSearched r.1 = hasSearched a ∧
       searchResult r.1 = (if searchIs userId a then Some None else searchResult a)) ∨
    (∃ userId, userId ≠ "admin" ∧
       users r.1 = toggled userId (users a) ∧
       hasSearched r.1 = hasSearched a ∧
       searchResult r.1 =
         (if searchIs userId a
          then match list_find (λ u, usr_userId u = userId) (toggled userId (users a)) with
               | Some (_, u) => Some (Some u)
               | None => None
               end
          else searchResult a)))).
Proof.
  cbv zeta. destruct e; cbn [panelStep]; try (by left).
  - left. split; [|done]. cbn. by destruct (editingUserId a) as [e|]; [destruct (truthy e)|].
  - unfold handleSubmit. destruct (_ || _); [by left|].
    right. split; [done|]. left. split; [done|]. split; [|done].
    unfold submitted. cbn. by destruct (editingUserId a) as [e|]; [destruct (truthy e)|].
  - unfold deleteUser. case_bool_decide as Hadmin; [by left|].
    destruct confirmed; [|by left].
    right. split; [done|]. right. left. by exists userId.
  - unfold toggleStatus. case_bool_decide as Hadmin; [by left|].
    right. split; [done|]. right. right. by exists userId.
  - left. unfold handleSearch. by destruct (negb _).
Qed.

Lemma panelStep_other_slots e a w :
  reportsOf (panelStep e a w).2 = reportsOf w ∧
  statusesOf (panelStep e a w).2 = statusesOf w.
Proof.
  destruct e; cbn [panelStep]; try done.
  - unfold handleSubmit. by destruct (_ || _).
  - unfold deleteUser. destruct (bool_decide _); [done|]. by destruct confirmed.
  - unfold toggleStatus. by destruct (bool_decide _).
Qed.

Lemma mount_run w :
  usersOf (mount w).2 = Some (users (mount w).1) ∧
  hasSearched (mount w).1 = false ∧
  reportsOf (mount w).2 = reportsOf w ∧ statusesOf (mount w).2 = statusesOf w.
Proof.
  unfold mount. unfold mbind, St_bind, mret, St_ret.
  rewrite getStoredUsers_run. by destruct (usersOf w) eqn:Hw.
Qed.

Lemma panelRun_in_sync es a w :
  usersOf w = Some (users a) →
  usersOf (panelRun es a w).2 = Some (users (panelRun es a w).1) ∧
  reportsOf (panelRun es a w).2 = reportsOf w ∧
  statusesOf (panelRun es a w).2 = statusesOf w.
Proof.
  revert a w. induction es as [|e es IH]; intros a w Hsync; [done|].
  rewrite panelRun_cons.
  destruct (panelStep_other_slots e a w) as [Hreports Hstatuses].
  rewrite <- Hreports, <- Hstatuses. apply IH.
  destruct (panelStep_cases e a w) as [[Husers Hw]|[Hwritten _]]; [|done].
  by rewrite Hw, Husers.
Qed.

(** X20.  The panel and the store stay in step.  From the mount of the
    panel on any store and through any sequence of its operations, the
    users of the store are the users the panel lists, and the reports and
    the device statuses of the store are those of before the mount. *)
Theorem panel_store_in_step (es : list PanelEvent) (w : World) :
  let r := panelRun es (mount w).1 (mount w).2 in
  usersOf r.2 = Some (users r.1) ∧
  reportsOf r.2 = reportsOf w ∧ statusesOf r.2 = statusesOf w.
Proof.
  cbv zeta. destruct (mount_run w) as (Hsync & _ & Hreports & Hstatuses).
  rewrite <- Hreports, <- Hstatuses. by apply panelRun_in_sync.
Qed.

(** ** The administrators *)

(** From the users [l] to the users [l']: a record under the id admin has a
    record under that id with its two flags, and an administrator of [l']
    is an administrator of [l]. *)
Definition keepsAdministrators (l l' : list User) : Prop :=
  (∀ u, u ∈ l → usr_userId u = "admin" →
        ∃ u', u' ∈ l' ∧ usr_userId u' = "admin" ∧
              usr_isAdmin u' = usr_isAdmin u ∧ usr_isActive u' = usr_isActive u) ∧
  (∀ u', u' ∈ l' → usr_isAdmin u' = true →
         ∃ u, u ∈ l ∧ usr_userId u = usr_userId u' ∧ usr_isAdmin u = true).

Lemma keepsAdministrators_refl l : keepsAdministrators l l.
Proof. split; intros u Hu Hflag; by exists u. Qed.

Lemma keepsAdministrators_trans l1 l2 l3 :
  keepsAdministrators l1 l2 → keepsAdministrators l2 l3 → keepsAdministrators l1 l3.
Proof.
  intros [Hkeep12 Hnew12] [Hkeep23 Hnew23]. split.
  - intros u Hu Hid.
    destruct (Hkeep12 u Hu Hid) as (u2 & Hu2 & Hid2 & Hadmin2 & Hactive2).
    destruct (Hkeep23 u2 Hu2 Hid2) as (u3 & Hu3 & Hid3 & Hadmin3 & Hactive3).
    exists u3. split_and!; [done|done|congruence|congruence].
  - intros u3 Hu3 Hadmin3.
    destruct (Hnew23 u3 Hu3 Hadmin3) as (u2 & Hu2 & Hid2 & Hadmin2).
    destruct (Hnew12 u2 Hu2 Hadmin2) as (u1 & Hu1 & Hid1 & Hadmin1).
    exists u1. split_and!; [done|congruence|done].
Qed.

Lemma submitted_keepsAdministrators a : keepsAdministrators (users a) (submitted a).
Proof.
  assert (Hcreate : ∀ new, usr_isAdmin new = false →
            keepsAdministrators (users a) (users a ++ [new])).
  { intros new Hnew. split.
    - intros u Hu Hid. exists u. split_and!; try done.
      apply elem_of_app. by left.
    - intros u' Hu' Hadmin. apply elem_of_app in Hu' as [Hu'|Hu'].
      + by exists u'.
      + apply list_elem_of_singleton in Hu' as ->. congruence. }
  assert (Hedit : ∀ e,
            keepsAdministrators (users a)
              ((λ u, if bool_decide (usr_userId u = e)
                     then {| usr_userId := usr_userId u; usr_password := newPassword a;
                             usr_isAdmin := usr_isAdmin u; usr_isActive := usr_isActive u;
                             usr_assignedStage := newStage a |}
                     else u) <$> users a)).
  { intros e. split.
    - intros u Hu Hid. eexists. split; [apply list_elem_of_fmap; by exists u|].
      by destruct (bool_decide _).
    - intros u' Hu' Hadmin. apply list_elem_of_fmap in Hu' as (u & -> & Hu).
      exists u. split; [done|]. by destruct (bool_decide _). }
  unfold submitted.
  destruct (editingUserId a) as [e|]; [destruct (truthy e)|]; by auto.
Qed.

Lemma filter_keepsAdministrators userId l :
  userId ≠ "admin" →
  keepsAdministrators l (filter (λ u, usr_userId u ≠ userId) l).
Proof.
  intros Hadmin. split.
  - intros u Hu Hid. exists u. split_and!; try done.
    apply list_elem_of_filter. split; [congruence|done].
  - intros u' Hu' Hflag. apply list_elem_of_filter in Hu' as [_ Hu']. by exists u'.
Qed.

Lemma toggled_keepsAdministrators userId l :
  userId ≠ "admin" → keepsAdministrators l (toggled userId l).
Proof.
  intros Hadmin. unfold toggled. split.
  - intros u Hu Hid. exists u. split_and!; try done.
    apply list_elem_of_fmap. exists u. split; [|done].
    rewrite bool_decide_false; [done|congruence].
  - intros u' Hu' Hflag. apply list_elem_of_fmap in Hu' as (u & -> & Hu).
    exists u. split; [done|]. by destruct (bool_decide _).
Qed.

Lemma panelStep_keepsAdministrators e a w :
  keepsAdministrators (users a) (users (panelStep e a w).1).
Proof.
  destruct (panelStep_cases e a w)
    as [[-> _]|[_ [(_ & -> & _)|[(userId & Hadmin & -> & _)|(userId & Hadmin & -> & _)]]]].
  - apply keepsAdministrators_refl.
  - apply submitted_keepsAdministrators.
  - by apply filter_keepsAdministrators.
  - by apply toggled_keepsAdministrators.
Qed.

(** X21.  The panel and the administrators.  Through any sequence of
    operations of the panel, from any state of it: a record under the id
    admin is never removed, and keeps its administrator flag and its active
    flag; and no administrator is made, every administrator listed after
    the operations being listed as one, under the same id, before them. *)
Theorem panel_keeps_administrators (es : list PanelEvent) (a : State) (w : World) :
  let l' := users (panelRun es a w).1 in
  (∀ u, u ∈ users a → usr_userId u = "admin" →
        ∃ u', u' ∈ l' ∧ usr_userId u' = "admin" ∧
              usr_isAdmin u' = usr_isAdmin u ∧ usr_isActive u' = usr_isActive u) ∧
  (∀ u', u' ∈ l' → usr_isAdmin u' = true →
         ∃ u, u ∈ users a ∧ usr_userId u = usr_userId u' ∧ usr_isAdmin u = true).
Proof.
  cbv zeta. change (keepsAdministrators (users a) (users (panelRun es a w).1)).
  revert a w. induction es as [|e es IH]; intros a w.
  - apply keepsAdministrators_refl.
  - rewrite panelRun_cons.
    eapply keepsAdministrators_trans; [apply (panelStep_keepsAdministrators e a w)|apply IH].
Qed.

(** ** The result of a search *)

(** While the panel shows the result of a search, a user it shows is one
    of those it lists. *)
Definition resultListed (a : State) : Prop :=
  hasSearched a = true → ∀ u, searchResult a = Some (Some u) → u ∈ users a.

Lemma searchIs_false userId a u :
  searchIs userId a = false → searchResult a = Some (Some u) → usr_userId u ≠ userId.
Proof.
  unfold searchIs. intros His Hres. rewrite Hres in His.
  by apply bool_decide_eq_false in His.
Qed.

Lemma panelStep_resultListed e a w :
  resultListed a → resultListed (panelStep e a w).1.
Proof.
  intros Hlisted. destruct e; cbn [panelStep].
  - cbn. by destruct (editingUserId a) as [e|]; [destruct (truthy e)|].
  - done.
  - done.
  - unfold handleSubmit. destruct (_ || _); [done|]. intros Hshown. discriminate Hshown.
  - done.
  - done.
  - unfold deleteUser. destruct (bool_decide (userId = "admin")); [done|].
    destruct confirmed; [|done]. intros Hshown u. cbn.
    destruct (searchIs userId a) eqn:His; [discriminate|].
    intros Hres. apply list_elem_of_filter. split.
    + by apply (searchIs_false userId a).
    + by apply Hlisted.
  - unfold toggleStatus. destruct (bool_decide (userId = "admin")); [done|].
    intros Hshown u. cbn.
    destruct (searchIs userId a) eqn:His.
    + destruct (list_find _ _) as [[i found]|] eqn:Hfind; [|discriminate].
      intros [= <-]. apply list_find_Some in Hfind as (Hfound & _).
      by apply list_elem_of_lookup_2 in Hfound.
    + intros Hres. apply list_elem_of_fmap. exists u. split.
      * rewrite bool_decide_false; [done|]. by apply (searchIs_false userId a).
      * by apply Hlisted.
  - unfold handleSearch. destruct (negb _).
    + intros Hshown. discriminate Hshown.
    + intros _ u. cbn.
      destruct (list_find _ _) as [[i found]|] eqn:Hfind; [|discriminate].
      intros [= <-]. apply list_find_Some in Hfind as (Hfound & _).
      by apply list_elem_of_lookup_2 in Hfound.
  - intros Hshown. discriminate Hshown.
Qed.

Lemma panelRun_resultListed es a w :
  resultListed a → resultListed (panelRun es a w).1.
Proof.
  revert a w. induction es as [|e es IH]; intros a w Hlisted; [done|].
  rewrite panelRun_cons. by apply IH, panelStep_resultListed.
Qed.

(** X22.  The result of a search is never stale.  From the mount of the
    panel on any store and through any sequence of its operations,
    searches, edits, deletions and toggles among them: while the panel
    shows the result of a search, the user it shows is one of the users the
    panel lists, as listed, with the flags and the password of the list. *)
Theorem panel_search_result_listed (es : list PanelEvent) (w : World) :
  let a := (panelRun es (mount w).1 (mount w).2).1 in
  hasSearched a = true → ∀ u, searchResult a = Some (Some u) → u ∈ users a.
Proof.
  cbv zeta. apply panelRun_resultListed.
  destruct (mount_run w) as (_ & Hnot & _). intros Hshown. congruence.
Qed.

(** ** Sample uses *)

(** The sample reports with the photos left out: the export has no column
    for them. *)
Definition sampleReportsWithoutPhotos : list QCReport :=
  (λ r, mkReport (rep_id r) (rep_timestamp r) (rep_stage r) (rep_userId r)
          (rep_deviceId r)
          ((λ cp, mkCheckpoint (cp_id cp) (cp_label cp) (cp_status cp) None
                    (cp_reason cp)) <$> rep_checkpoints r)) <$> sampleReports.

Lemma csvContent_determines_columns_witness :
  Forall2 (sameColumns (λ z, pretty z)) sampleReports sampleReportsWithoutPhotos.
Proof.
  apply (csvContent_determines_columns (λ z, pretty z)). by vm_compute.
Defined.

(** A search for the operator of the FQC station, typed in capitals between
    spaces, and then a toggle of that operator. *)
Definition searchThenToggle : list PanelEvent :=
  [Search " OP1 " FQC; ToggleUser "op1"].

Lemma panel_search_result_listed_witness :
  let a := (panelRun searchThenToggle (mount fqcStation).1 (mount fqcStation).2).1 in
  ∃ u, searchResult a = Some (Some u) ∧ usr_isActive u = false ∧ u ∈ users a.
Proof.
  cbv zeta. eexists. split; [by vm_compute|]. split; [reflexivity|].
  apply (panel_search_result_listed searchThenToggle fqcStation); by vm_compute.
Defined.

(** * The device id of a session, typed or scanned *)

(** The lower-case letters below 256 that have an upper case below 256:
    a to z, the sharp s, and the letters from 224 to 254 but the sign
    247. *)
Definition lowerCaseUnit (c : ascii) : bool :=
  let n := nat_of_ascii c in
  bool_decide (97 ≤ n ≤ 122)%nat || bool_decide (223 ≤ n ≤ 246)%nat
  || bool_decide (248 ≤ n ≤ 254)%nat.

Fixpoint hasLowerCase (s : string) : bool :=
  match s with
  | EmptyString => false
  | String c s' => lowerCaseUnit c || hasLowerCase s'
  end.

(** A text with a character that [trim] keeps. *)
Fixpoint hasInk (s : string) : bool :=
  match s with
  | EmptyString => false
  | String c s' => negb (isWhiteSpace c) || hasInk s'
  end.

Lemma lowerCaseUnit_upperChar c :
  lowerCaseUnit c = true → nat_of_ascii c ≠ 223%nat →
  upperChar c ≠ c ∧ isWhiteSpace (upperChar c) = false.
Proof.
  destruct c as [[] [] [] [] [] [] [] []]; vm_compute; intros Hlower Hsharp;
    first [discriminate Hlower | by destruct Hsharp
          | (split; [discriminate | reflexivity])].
Qed.

Lemma toUpperCase_changes s : hasLowerCase s = true → toUpperCase s ≠ s.
Proof.
  induction s as [|c s IH]; [done|].
  cbn [hasLowerCase toUpperCase]. intros Hlower.
  case_bool_decide as Hsharp.
  - intros [= Hc _]. rewrite <- Hc in Hsharp. by vm_compute in Hsharp.
  - destruct (lowerCaseUnit c) eqn:Hc.
    + intros [= Hup _]. by destruct (lowerCaseUnit_upperChar c Hc Hsharp).
    + intros [= _ Htail]. by apply IH.
Qed.

Lemma toUpperCase_hasInk s : hasLowerCase s = true → hasInk (toUpperCase s) = true.
Proof.
  induction s as [|c s IH]; [done|].
  cbn [hasLowerCase toUpperCase]. intros Hlower.
  case_bool_decide as Hsharp; [reflexivity|].
  cbn [hasInk]. destruct (lowerCaseUnit c) eqn:Hc.
  - destruct (lowerCaseUnit_upperChar c Hc Hsharp) as [_ ->]. done.
  - rewrite IH by done. by destruct (isWhiteSpace _).
Qed.

Lemma trimStart_hasInk s : hasInk s = true → hasInk (trimStart s) = true.
Proof.
  induction s as [|c s IH]; [done|].
  cbn [hasInk trimStart]. destruct (isWhiteSpace c) eqn:Hc; cbn [negb orb].
  - exact IH.
  - intros _. cbn [hasInk]. by rewrite Hc.
Qed.

Lemma trimEnd_hasInk s : hasInk s = true → trimEnd s ≠ "".
Proof.
  induction s as [|c s IH]; [done|].
  cbn [hasInk trimEnd]. intros Hink.
  destruct (trimEnd s) as [|c' t] eqn:Htrim; [|done].
  destruct (isWhiteSpace c); [|done].
  cbn [negb orb] in Hink. by apply IH in Hink.
Qed.

Lemma trim_hasInk s : hasInk s = true → trim s ≠ "".
Proof. intros Hink. by apply trimEnd_hasInk, trimStart_hasInk. Qed.

(** The device ids of the array after [updateDeviceStatus]. *)
Lemma updatedStatuses_deviceIds d stage v now l :
  ds_deviceId <$> updatedStatuses d stage v now l =
    if bool_decide (d ∈ ds_deviceId <$> l)
    then ds_deviceId <$> l else (ds_deviceId <$> l) ++ [d].
Proof.
  unfold updatedStatuses.
  destruct (list_find _ l) as [[i old]|] eqn:Hfind.
  - apply list_find_Some in Hfind as (Hi & Hd & _).
    rewrite bool_decide_true.
    + rewrite list_fmap_insert. cbn. rewrite assignStage_deviceId.
      apply list_insert_id. by rewrite list_lookup_fmap, Hi.
    + apply list_elem_of_fmap. exists old. split; [done|].
      by apply list_elem_of_lookup_2 in Hi.
  - apply list_find_None in Hfind. rewrite Forall_forall in Hfind.
    rewrite bool_decide_false.
    + rewrite fmap_app. cbn. by rewrite assignStage_deviceId.
    + intros (r & Hr & Hin)%list_elem_of_fmap. by apply (Hfind r).
Qed.

Lemma recordOf_absent d l : d ∉ ds_deviceId <$> l → recordOf d l = None.
Proof.
  intros Hnot. unfold recordOf.
  destruct (list_find _ l) as [[i r]|] eqn:Hfind; [|done].
  apply list_find_Some in Hfind as (Hi & Hd & _). exfalso. apply Hnot.
  apply list_elem_of_fmap. exists r. split; [done|].
  by apply list_elem_of_lookup_2 in Hi.
Qed.

(** The one device of the store after a first accepted submission. *)
Lemma first_submission_deviceIds clk st :
  canSubmit (checkpoints st) = true →
  ds_deviceId <$> statusesOf (submit clk st emptyWorld).2 = [deviceId st].
Proof.
  intros Hok. rewrite (submit_accepted _ _ _ Hok). cbn [snd].
  rewrite statusesOf_submitted, !updatedStatuses_deviceIds.
  change (ds_deviceId <$> statusesOf emptyWorld) with (@nil string).
  rewrite (bool_decide_false (_ ∈ [])) by apply not_elem_of_nil.
  rewrite bool_decide_true; [done|]. apply list_elem_of_here.
Qed.

Lemma typedRun_deviceIds s :
  trim (toUpperCase s) ≠ "" →
  ds_deviceId <$> statusesOf (typedRun s) = [toUpperCase s].
Proof.
  intros Hink. unfold typedRun.
  assert (Hsubmit : handleDeviceSubmit
                      (serialNumberInput_onChange s (atDeviceIdEntry FQC "")) emptyWorld
                    = (entered (serialNumberInput_onChange s (atDeviceIdEntry FQC "")),
                       emptyWorld)).
  { unfold handleDeviceSubmit.
    change (deviceId (serialNumberInput_onChange s _)) with (toUpperCase s).
    unfold truthy. rewrite (bool_decide_false _ Hink). reflexivity. }
  rewrite Hsubmit. by rewrite first_submission_deviceIds.
Qed.

Lemma scannedRun_deviceIds s : ds_deviceId <$> statusesOf (scannedRun s) = [s].
Proof. unfold scannedRun. by rewrite first_submission_deviceIds. Qed.

(** C10.  The serial number input stores the upper case of what is typed,
    and the manual submit keeps it; a scan stores the decoded text as it
    is, whichever render polls.  An accepted submission files the device
    status under the stored device id.  Hence, at a station of an empty
    store, a label that is typed is filed under its upper case and a label
    that is scanned under the label itself; and for every label with a
    lower-case letter these are two keys: the typed one is not found under
    the label, and the scanned one is not found under its upper case.  The
    typed texts are those whose upper case stays below 256. *)
Theorem deviceId_depends_on_entry_path :
  (∀ s st, upperCaseInRange s = true →
           deviceId (serialNumberInput_onChange s st) = toUpperCase s ∧
           ∀ w, deviceId (handleDeviceSubmit (serialNumberInput_onChange s st) w).1
                = toUpperCase s) ∧
  (∀ s render st,
      currentStep st = SCAN_DEVICE_ID → scanning render = true → videoStream st = true →
      deviceId (detectCode render (Some s) st) = s) ∧
  (∀ clk st w,
      canSubmit (checkpoints st) = true →
      ∃ r, (getDeviceStatus (deviceId st) (submit clk st w).2).1 = Some r ∧
           ds_deviceId r = deviceId st) ∧
  (∀ s, upperCaseInRange s = true → trim (toUpperCase s) ≠ "" →
        ds_deviceId <$> statusesOf (typedRun s) = [toUpperCase s]) ∧
  (∀ s, ds_deviceId <$> statusesOf (scannedRun s) = [s]) ∧
  (∀ s, upperCaseInRange s = true → hasLowerCase s = true →
        toUpperCase s ≠ s ∧
        ds_deviceId <$> statusesOf (typedRun s) = [toUpperCase s] ∧
        (getDeviceStatus s (typedRun s)).1 = None ∧
        (getDeviceStatus (toUpperCase s) (scannedRun s)).1 = None).
Proof.
  split_and!.
  - intros s st _. split; [reflexivity|]. intros w.
    by rewrite handleDeviceSubmit_deviceId.
  - intros s render st Hstep Hscan Hvideo. unfold detectCode.
    rewrite Hstep, Hscan, Hvideo. reflexivity.
  - intros clk st w Hok. rewrite (submit_accepted _ _ _ Hok). cbn [snd].
    rewrite getDeviceStatus_run, statusesOf_submitted, recordOf_updated.
    cbn [fst]. eexists. split; [reflexivity|].
    eapply recordOf_deviceId. apply recordOf_updated.
  - intros s _ Hink. by apply typedRun_deviceIds.
  - apply scannedRun_deviceIds.
  - intros s _ Hlower.
    pose proof (toUpperCase_changes s Hlower) as Hchanges.
    pose proof (trim_hasInk _ (toUpperCase_hasInk s Hlower)) as Hink.
    split_and!; [done | by apply typedRun_deviceIds | |].
    + rewrite getDeviceStatus_run. cbn [fst]. apply recordOf_absent.
      rewrite typedRun_deviceIds by done.
      intros Hin%list_elem_of_singleton. by apply Hchanges.
    + rewrite getDeviceStatus_run. cbn [fst]. apply recordOf_absent.
      rewrite scannedRun_deviceIds.
      by intros Hin%list_elem_of_singleton.
Qed.

(** The label flex-0042a is recorded as FLEX-0042A when typed and as
    flex-0042a when scanned. *)
Lemma deviceId_depends_on_entry_path_witness :
  ds_deviceId <$> statusesOf (typedRun "flex-0042a") = ["FLEX-0042A"] ∧
  ds_deviceId <$> statusesOf (scannedRun "flex-0042a") = ["flex-0042a"] ∧
  (getDeviceStatus "flex-0042a" (typedRun "flex-0042a")).1 = None.
Proof.
  destruct deviceId_depends_on_entry_path as (_ & _ & _ & _ & Hscanned & Hkeys).
  destruct (Hkeys "flex-0042a" eq_refl eq_refl) as (_ & Htyped & Hnot & _).
  split_and!; [exact Htyped | exact (Hscanned "flex-0042a") | exact Hnot].
Defined.
